(** * mp4CrashRecorder: a shallow embedding of the crash-safe MP4 recorder

    The development follows the C++ sources:
    - [file_ops.cpp]     the stdio file abstraction ([StdioFile], [StdioFileOps]);
    - [index_file.cpp]   the journal reader ([IndexFile]);
    - [moov_builder.cpp] the [moov] synthesizer ([MoovBuilder]);
    - [mp4_recorder.cpp] the recorder and the recovery driver ([Mp4Recorder]).

    Fixed-width integers are [Z] with the wrap-around written out, byte
    buffers are [list Z] (one 8-bit value per element), the file system is a
    finite map from paths to contents, and the bool-returning methods are
    computations in a state monad with early exit.  What the program leaves
    open is a parameter of the call it belongs to: the reading of the clock,
    the outcome of a host call, the bytes an uninitialised object holds in
    its padding. *)

From Stdlib Require Import ZArith List Lia Bool Sorted.
From stdpp Require Import gmap strings list.

Open Scope Z_scope.

(** ** Fixed-width integers *)

Definition u8 (x : Z) : Z := x mod 2 ^ 8.
Definition u16 (x : Z) : Z := x mod 2 ^ 16.
Definition u32 (x : Z) : Z := x mod 2 ^ 32.
Definition u64 (x : Z) : Z := x mod 2 ^ 64.

(** Conversion to [int64_t] (two's complement). *)
Definition i64 (x : Z) : Z := (x + 2 ^ 63) mod 2 ^ 64 - 2 ^ 63.

Definition UINT32_MAX : Z := 0xFFFFFFFF.

Abbreviation bytes := (list Z).

Definition len {A} (l : list A) : Z := Z.of_nat (length l).

(** [common.h]: big-endian readers. *)
Definition byte_at (p : bytes) (i : Z) : Z := nth (Z.to_nat i) p 0.

Definition readBE32 (p : bytes) : Z :=
  Z.lor (Z.lor (Z.lor (Z.shiftl (byte_at p 0) 24) (Z.shiftl (byte_at p 1) 16))
               (Z.shiftl (byte_at p 2) 8)) (byte_at p 3).

(** Native (little-endian) object representation, as [fwrite (&x, sizeof x)]
    stores it on the hosts the recorder targets. *)
Fixpoint le_bytes (n : nat) (x : Z) : bytes :=
  match n with
  | O => []
  | S n' => Z.land x 0xFF :: le_bytes n' (Z.shiftr x 8)
  end.

Fixpoint le_value (p : bytes) : Z :=
  match p with
  | [] => 0
  | b :: p' => b + 256 * le_value p'
  end.

Definition chars (s : string) : bytes :=
  map (fun c => Z.of_nat (Ascii.nat_of_ascii c)) (String.list_ascii_of_string s).

(** ** The file system ([file_ops.h], [file_ops.cpp])

    [files] maps a path to the contents of the file of that name as the
    file layer has taken them: what a write call has accepted is part of
    the file at once.  Under the stdio implementation this is what a reader
    finds once the writing stream has been flushed or closed; how much of
    what a stream still buffers reaches the disk when the process dies
    before that is not modelled, so [files] in the middle of a session is
    not the disk a crash leaves, unless the streams have just been flushed.

    Every stdio call that can be refused by the host consumes one entry of
    [faults]: [None] lets the call go through, [Some k] refuses it ([k] is
    the number of bytes a refused [fwrite] still transfers, capped below the
    requested size).  An exhausted list refuses nothing. *)

Record World := mkWorld {
  files : gmap string bytes;
  faults : list (option Z)
}.

Definition with_files (fs : gmap string bytes) (w : World) : World :=
  mkWorld fs (faults w).

(** A state monad with early exit: [None] is the method's [return false]
    (the state reached so far is kept).  A method inside which the process
    is killed (see [Trap]) does not return true either: it ends in [None] as
    well, with the state, and so the files, it had reached. *)
Definition Op (S A : Type) : Type := S -> option A * S.

Global Instance op_ret {S} : MRet (Op S) := fun A a s => (Some a, s).
Global Instance op_bind {S} : MBind (Op S) := fun A B k c s =>
  match c s with
  | (Some a, s') => k a s'
  | (None, s') => (None, s')
  end.

Definition fail {S A} : Op S A := fun s => (None, s).
Definition guard {S} (b : bool) : Op S unit := if b then mret tt else fail.
Definition get {S} : Op S S := fun s => (Some s, s).
Definition put {S} (s : S) : Op S unit := fun _ => (Some tt, s).

(** The C++ [bool] a method returns, with the state it leaves. *)
Definition returns {S} (op : Op S unit) (s : S) : bool :=
  match fst (op s) with Some _ => true | None => false end.
Definition after {S A} (op : Op S A) (s : S) : S := snd (op s).

(** A call that can be cut short by a trap: it returns, or the process is
    killed by the signal (an integer division by zero) and nothing is
    returned. *)
Inductive Trap (A : Type) : Type :=
| Returned (a : A)
| Killed.
Arguments Returned {A} a.
Arguments Killed {A}.

(** A call whose result the caller inspects instead of propagating. *)
Definition attempt {S} (op : Op S unit) : Op S bool := fun s =>
  match op s with
  | (Some _, s') => (Some true, s')
  | (None, s') => (Some false, s')
  end.

Definition next_fault : Op World (option Z) := fun w =>
  match faults w with
  | [] => (Some None, w)
  | f :: fs => (Some f, mkWorld (files w) fs)
  end.

(** [std::unique_ptr<IFile>]: a null pointer is [None]. *)
Record File := mkFile {
  f_path : string;
  f_pos : Z;
  f_append : bool
}.

Inductive Mode := Mode_wb | Mode_rb | Mode_rpb | Mode_ab.
Inductive Origin := SEEK_SET | SEEK_END.

Definition contents (w : World) (path : string) : bytes :=
  default [] (files w !! path).

(** [StdioFileOps::open]: [fopen (path, mode)]. *)
Definition fs_open (path : string) (mode : Mode) : Op World (option File) :=
  f ← next_fault;
  w ← get;
  match f with
  | Some _ => mret None
  | None =>
      match mode with
      | Mode_wb =>
          put (with_files (<[path := []]> (files w)) w);;
          mret (Some (mkFile path 0 false))
      | Mode_rb | Mode_rpb =>
          match files w !! path with
          | Some _ => mret (Some (mkFile path 0 false))
          | None => mret None
          end
      | Mode_ab =>
          match files w !! path with
          | Some _ => mret (Some (mkFile path 0 true))
          | None =>
              put (with_files (<[path := []]> (files w)) w);;
              mret (Some (mkFile path 0 true))
          end
      end
  end.

(** Storing [data] at byte [pos] of a file (a gap is zero-filled). *)
Definition write_at (c : bytes) (pos : Z) (data : bytes) : bytes :=
  take (Z.to_nat pos) c ++ replicate (Z.to_nat pos - length c) 0
    ++ data ++ drop (Z.to_nat pos + length data) c.

(** [StdioFile::write]: the number of bytes written.  In append mode the
    bytes go to the end of the file wherever the handle stands. *)
Definition file_write (f : File) (data : bytes) : Op World (Z * File) :=
  if len data =? 0 then mret (0, f)
  else
    flt ← next_fault;
    w ← get;
    match files w !! f_path f with
    | None => mret (0, f)
    | Some c =>
        let n := match flt with
                 | None => len data
                 | Some k => Z.max 0 (Z.min k (len data - 1))
                 end in
        let pos := if f_append f then len c else f_pos f in
        let sent := take (Z.to_nat n) data in
        put (with_files (<[f_path f := write_at c pos sent]> (files w)) w);;
        mret (n, mkFile (f_path f) (pos + n) (f_append f))
    end.

(** [StdioFile::read]: the bytes read (their number is the return value). *)
Definition file_read (f : File) (size : Z) : Op World (bytes * File) :=
  if size =? 0 then mret ([], f)
  else
    w ← get;
    let got := take (Z.to_nat size) (drop (Z.to_nat (f_pos f)) (contents w (f_path f))) in
    mret (got, mkFile (f_path f) (f_pos f + len got) (f_append f)).

(** [StdioFile::seek]. *)
Definition file_seek (f : File) (offset : Z) (origin : Origin) : Op World (bool * File) :=
  flt ← next_fault;
  w ← get;
  let target := match origin with
                | SEEK_SET => offset
                | SEEK_END => len (contents w (f_path f)) + offset
                end in
  match flt with
  | Some _ => mret (false, f)
  | None =>
      if target <? 0 then mret (false, f)
      else mret (true, mkFile (f_path f) target (f_append f))
  end.

(** [StdioFile::tell]. *)
Definition file_tell (f : File) : Z := f_pos f.

(** [StdioFile::flush] and [StdioFile::sync]: of the two calls only the
    answer of the host is modelled (see [files]). *)
Definition file_flush (f : File) : Op World bool :=
  flt ← next_fault;
  mret (match flt with None => true | Some _ => false end).

Definition file_sync (f : File) : Op World bool :=
  flt ← next_fault;
  mret (match flt with None => true | Some _ => false end).

(** [StdioFileOps::exists]: [stat] succeeds. *)
Definition fs_exists (w : World) (path : string) : bool :=
  match files w !! path with Some _ => true | None => false end.

(** [StdioFileOps::remove]. *)
Definition fs_remove (path : string) : Op World bool :=
  flt ← next_fault;
  w ← get;
  match flt, files w !! path with
  | None, Some _ => put (with_files (delete path (files w)) w);; mret true
  | _, _ => mret false
  end.

(** [StdioFileOps::getFileSize]. *)
Definition fs_getFileSize (path : string) : Op World (option Z) :=
  flt ← next_fault;
  w ← get;
  match flt, files w !! path with
  | None, Some c => mret (Some (len c))
  | _, _ => mret None
  end.

Definition idx_name (filename : string) : string := filename +:+ ".idx".
Definition lock_name (filename : string) : string := filename +:+ ".lock".

(** [Mp4Recorder::hasIncompleteRecording]. *)
Definition hasIncompleteRecording (w : World) (filename : string) : bool :=
  let lock_file := lock_name filename in
  let idx_file := idx_name filename in
  fs_exists w lock_file && fs_exists w idx_file.

(** ** Journal records ([mp4_recorder.h]) *)

(** Objects of the two structs go to the journal and come back from it as
    their object representation, [fwrite (&x, sizeof (x))], padding bytes
    included.  The program never zeroes an object, so its padding bytes are
    whatever the memory held; a record carries them as one more field:
    4 bytes behind [size] and 6 bytes behind [track_id] for [FrameInfo],
    2 bytes behind [audio_channels] for [RecorderConfig]. *)
Record FrameInfo := mkFrame {
  offset : Z;        (* uint64_t *)
  size : Z;          (* uint32_t *)
  pts : Z;           (* int64_t *)
  dts : Z;           (* int64_t *)
  is_keyframe : Z;   (* uint8_t *)
  track_id : Z;      (* uint8_t *)
  padding : bytes    (* 4 + 6 bytes *)
}.

Record RecorderConfig := mkConfig {
  video_timescale : Z;
  audio_timescale : Z;
  audio_sample_rate : Z;
  audio_channels : Z;
  flush_interval_ms : Z;
  flush_frame_count : Z;
  video_width : Z;
  video_height : Z;
  config_padding : bytes   (* 2 bytes *)
}.

(** The default member initialisers, in an object whose padding is zero. *)
Definition default_config : RecorderConfig :=
  mkConfig 30000 48000 48000 2 500 1000 640 480 [0; 0].

(** Object representations on an LP64 little-endian host:
    [sizeof (RecorderConfig) = 32], [sizeof (FrameInfo) = 40]. *)
Definition sizeof_RecorderConfig : Z := 32.
Definition sizeof_FrameInfo : Z := 40.
Definition sizeof_uint32 : Z := 4.
Definition MAGIC : Z := 0x4D503452.

(** The 32 bytes of a [RecorderConfig]: the members at offsets 0, 4, 8, 12,
    16, 20, 24 and 28, the padding at 14.  ([resize] only makes the
    representation 32 bytes whatever list the record carries as padding.) *)
Definition encodeConfig (c : RecorderConfig) : bytes :=
  le_bytes 4 (video_timescale c) ++ le_bytes 4 (audio_timescale c)
  ++ le_bytes 4 (audio_sample_rate c) ++ le_bytes 2 (audio_channels c)
  ++ resize 2 0 (config_padding c)
  ++ le_bytes 4 (flush_interval_ms c) ++ le_bytes 4 (flush_frame_count c)
  ++ le_bytes 4 (video_width c) ++ le_bytes 4 (video_height c).

Definition field (b : bytes) (off n : nat) : Z := le_value (take n (drop off b)).

Definition decodeConfig (b : bytes) : RecorderConfig :=
  mkConfig (field b 0 4) (field b 4 4) (field b 8 4) (field b 12 2)
           (field b 16 4) (field b 20 4) (field b 24 4) (field b 28 4)
           (take 2 (drop 14 b)).

(** The 40 bytes of a [FrameInfo]: the members at offsets 0, 8, 16, 24, 32
    and 33, the padding at 12 (4 bytes) and at 34 (6 bytes). *)
Definition encodeFrame (f : FrameInfo) : bytes :=
  le_bytes 8 (offset f) ++ le_bytes 4 (size f) ++ resize 4 0 (padding f)
  ++ le_bytes 8 (pts f) ++ le_bytes 8 (dts f)
  ++ [u8 (is_keyframe f); u8 (track_id f)] ++ resize 6 0 (drop 4 (padding f)).

Definition decodeFrame (b : bytes) : FrameInfo :=
  mkFrame (field b 0 8) (field b 8 4) (i64 (field b 16 8)) (i64 (field b 24 8))
          (field b 32 1) (field b 33 1) (take 4 (drop 12 b) ++ take 6 (drop 34 b)).

(** ** The journal reader ([index_file.cpp]) *)

Record IndexFile := mkIndexFile {
  ix_file : option File;
  ix_frame_count : Z
}.

Definition header_size : Z := sizeof_uint32 + sizeof_RecorderConfig.

(** [IndexFile::open]. *)
Definition IndexFile_open (filename : string) : Op World IndexFile :=
  file ← fs_open filename Mode_rb;
  match file with
  | None => fail
  | Some f =>
      '(ok, f) ← file_seek f 0 SEEK_END;
      guard ok;;
      let file_size := file_tell f in
      let frame_count :=
        if (0 <? file_size) && (header_size <? file_size)
        then (file_size - header_size) / sizeof_FrameInfo
        else 0 in
      '(_, f) ← file_seek f 0 SEEK_SET;
      mret (mkIndexFile (Some f) frame_count)
  end.

(** [IndexFile::readConfig]. *)
Definition IndexFile_readConfig (ix : IndexFile) : Op World (RecorderConfig * IndexFile) :=
  match ix_file ix with
  | None => fail
  | Some f =>
      '(magic, f) ← file_read f sizeof_uint32;
      guard (len magic =? sizeof_uint32);;
      guard (le_value magic =? MAGIC);;
      '(cfg, f) ← file_read f sizeof_RecorderConfig;
      guard (len cfg =? sizeof_RecorderConfig);;
      mret (decodeConfig cfg, mkIndexFile (Some f) (ix_frame_count ix))
  end.

(** The [while (file_->read (&frame, sizeof (FrameInfo)) == sizeof (FrameInfo))]
    loop of [IndexFile::readAllFrames]; every turn consumes 40 bytes of the
    file, so the length of the file bounds the number of turns. *)
Fixpoint read_frames (fuel : nat) (f : File) (video audio : list FrameInfo)
  : Op World (list FrameInfo * list FrameInfo * File) :=
  match fuel with
  | O => mret (video, audio, f)
  | S fuel' =>
      '(raw, f') ← file_read f sizeof_FrameInfo;
      if len raw =? sizeof_FrameInfo then
        let frame := decodeFrame raw in
        if track_id frame =? 0 then read_frames fuel' f' (video ++ [frame]) audio
        else if track_id frame =? 1 then read_frames fuel' f' video (audio ++ [frame])
        else read_frames fuel' f' video audio
      else mret (video, audio, f')
  end.

(** [IndexFile::readAllFrames]. *)
Definition IndexFile_readAllFrames (ix : IndexFile)
  : Op World (list FrameInfo * list FrameInfo * IndexFile) :=
  match ix_file ix with
  | None => fail
  | Some f =>
      '(_, f) ← file_seek f header_size SEEK_SET;
      w ← get;
      '(video, audio, f) ← read_frames (S (length (contents w (f_path f)))) f [] [];
      mret (video, audio, mkIndexFile (Some f) (ix_frame_count ix))
  end.

(** ** The moov synthesizer ([moov_builder.cpp])

    A writer appends to its output vector; here it returns what it appends. *)

Definition writeUint8 (value : Z) : bytes := [u8 value].

Definition writeUint16BE (value : Z) : bytes :=
  let v := u16 value in
  [Z.land (Z.shiftr v 8) 0xFF; Z.land v 0xFF].

Definition writeUint32BE (value : Z) : bytes :=
  let v := u32 value in
  [Z.land (Z.shiftr v 24) 0xFF; Z.land (Z.shiftr v 16) 0xFF;
   Z.land (Z.shiftr v 8) 0xFF; Z.land v 0xFF].

Definition writeAtomHeader (type : string) (size : Z) : bytes :=
  writeUint32BE size ++ take 4 (chars type).

Definition writeDescriptorLength (length : Z) : bytes :=
  let value := Z.land (u32 length) 0x0FFFFFFF in
  let b0 := Z.land (Z.shiftr value 21) 0x7F in
  let b1 := Z.land (Z.shiftr value 14) 0x7F in
  let b2 := Z.land (Z.shiftr value 7) 0x7F in
  let b3 := Z.land value 0x7F in
  let first := if negb (b0 =? 0) then 0%nat
               else if negb (b1 =? 0) then 1%nat
               else if negb (b2 =? 0) then 2%nat else 3%nat in
  drop first [Z.lor b0 0x80; Z.lor b1 0x80; Z.lor b2 0x80; b3].

Definition getSampleRateIndex (sample_rate : Z) : Z :=
  if sample_rate =? 96000 then 0 else if sample_rate =? 88200 then 1
  else if sample_rate =? 64000 then 2 else if sample_rate =? 48000 then 3
  else if sample_rate =? 44100 then 4 else if sample_rate =? 32000 then 5
  else if sample_rate =? 24000 then 6 else if sample_rate =? 22050 then 7
  else if sample_rate =? 16000 then 8 else if sample_rate =? 12000 then 9
  else if sample_rate =? 11025 then 10 else if sample_rate =? 8000 then 11
  else if sample_rate =? 7350 then 12 else 3.

(** The identity matrix both [mvhd] and [tkhd] carry. *)
Definition matrix : bytes :=
  flat_map (fun i => if (i =? 0) || (i =? 4) || (i =? 8)
                     then writeUint32BE 0x00010000 else writeUint32BE 0)
           [0; 1; 2; 3; 4; 5; 6; 7; 8].

Definition zeros (n : nat) : bytes := replicate n 0.

(** [MoovBuilder::buildMvhd]. *)
Definition buildMvhd (duration : Z) : option bytes :=
  Some (writeAtomHeader "mvhd" 108
        ++ writeUint32BE 0          (* version 0 + flags 0 *)
        ++ writeUint32BE 0          (* creation time *)
        ++ writeUint32BE 0          (* modification time *)
        ++ writeUint32BE 1000       (* timescale *)
        ++ writeUint32BE duration
        ++ writeUint32BE 0x00010000 (* playback speed *)
        ++ writeUint16BE 0x0100     (* volume *)
        ++ writeUint16BE 0 ++ zeros 8
        ++ matrix
        ++ flat_map (fun _ : Z => writeUint32BE 0) [0; 1; 2; 3; 4; 5]
        ++ writeUint32BE 3).        (* next track ID *)

Definition dummy_frame : FrameInfo := mkFrame 0 0 0 0 0 0 [].

(** [frames.back ()] and [frames[i]]. *)
Definition back (frames : list FrameInfo) : FrameInfo := List.last frames dummy_frame.
Definition at_index (frames : list FrameInfo) (i : nat) : FrameInfo := nth i frames dummy_frame.

(** The grouping loop of [MoovBuilder::buildStts]: one turn per sample, the
    duration of a sample being the distance to the next PTS, as [uint32_t]. *)
Fixpoint stts_loop (frames : list FrameInfo) (default_duration : Z)
    (entries : list (Z * Z)) (current_duration current_count : Z)
  : list (Z * Z) * Z * Z :=
  match frames with
  | [] => (entries, current_duration, current_count)
  | f :: rest =>
      let duration := match rest with
                      | g :: _ => u32 (pts g - pts f)
                      | [] => default_duration
                      end in
      if (duration =? current_duration) || (current_count =? 0)
      then stts_loop rest default_duration entries duration (u32 (current_count + 1))
      else stts_loop rest default_duration
             (entries ++ [(current_count, current_duration)]) duration 1
  end.

(** The [(count, duration)] entries [MoovBuilder::buildStts] emits. *)
Definition stts_entries (frames : list FrameInfo) (default_duration : Z) : list (Z * Z) :=
  let n := length frames in
  let default_duration :=
    if 2 <=? len frames
    then u32 (pts (at_index frames (n - 1)) - pts (at_index frames (n - 2)))
    else default_duration in
  let '(entries, current_duration, current_count) :=
    stts_loop frames default_duration [] 0 0 in
  if 0 <? current_count then entries ++ [(current_count, current_duration)] else entries.

(** [MoovBuilder::buildStts]. *)
Definition buildStts (frames : list FrameInfo) (default_duration : Z) : option bytes :=
  match frames with
  | [] => None
  | _ =>
      let entries := stts_entries frames default_duration in
      Some (writeAtomHeader "stts" (8 + 8 + len entries * 8)
            ++ writeUint32BE 0 ++ writeUint32BE (len entries)
            ++ flat_map (fun e => writeUint32BE (fst e) ++ writeUint32BE (snd e)) entries)
  end.

(** The 1-based indices of the key frames, counting from [i + 1]. *)
Fixpoint keyframe_indices (frames : list FrameInfo) (i : Z) : list Z :=
  match frames with
  | [] => []
  | f :: rest =>
      if negb (is_keyframe f =? 0)
      then u32 (i + 1) :: keyframe_indices rest (i + 1)
      else keyframe_indices rest (i + 1)
  end.

(** [MoovBuilder::buildStss]. *)
Definition buildStss (frames : list FrameInfo) : option bytes :=
  let idx := keyframe_indices frames 0 in
  Some (writeAtomHeader "stss" (8 + 8 + len idx * 4)
        ++ writeUint32BE 0 ++ writeUint32BE (len idx)
        ++ flat_map writeUint32BE idx).

(** [MoovBuilder::buildStsz]. *)
Definition buildStsz (frames : list FrameInfo) : option bytes :=
  match frames with
  | [] => None
  | _ =>
      Some (writeAtomHeader "stsz" (8 + 8 + 4 + len frames * 4)
            ++ writeUint32BE 0 ++ writeUint32BE 0 ++ writeUint32BE (len frames)
            ++ flat_map (fun f => writeUint32BE (size f)) frames)
  end.

(** The offset loop of [MoovBuilder::buildStco]: it gives up at the first
    chunk offset above [0xFFFFFFFF]. *)
Definition chunk_offset_64 (mdat_start : Z) (frame : FrameInfo) : Z :=
  u64 (mdat_start + offset frame).

Fixpoint stco_entries (frames : list FrameInfo) (mdat_start : Z) : option bytes :=
  match frames with
  | [] => Some []
  | frame :: rest =>
      if UINT32_MAX <? chunk_offset_64 mdat_start frame then None
      else
        match stco_entries rest mdat_start with
        | None => None
        | Some tl => Some (writeUint32BE (chunk_offset_64 mdat_start frame) ++ tl)
        end
  end.

(** [MoovBuilder::buildStco]. *)
Definition buildStco (frames : list FrameInfo) (mdat_start : Z) : option bytes :=
  match frames with
  | [] => None
  | _ =>
      match stco_entries frames mdat_start with
      | None => None
      | Some entries =>
          Some (writeAtomHeader "stco" (8 + 8 + len frames * 4)
                ++ writeUint32BE 0 ++ writeUint32BE (len frames) ++ entries)
      end
  end.

(** [MoovBuilder::buildStsc]. *)
Definition buildStsc (frames : list FrameInfo) : option bytes :=
  match frames with
  | [] => None
  | _ =>
      Some (writeAtomHeader "stsc" (8 + 8 + 12)
            ++ writeUint32BE 0 ++ writeUint32BE 1
            ++ writeUint32BE 1 ++ writeUint32BE 1 ++ writeUint32BE 1)
  end.

(** A parameter set without its leading Annex-B start code, if it has one. *)
Definition strip_start_code (p : bytes) : bytes :=
  if (4 <=? len p) && (byte_at p 0 =? 0) && (byte_at p 1 =? 0)
     && (byte_at p 2 =? 0) && (byte_at p 3 =? 1) then drop 4 p
  else if (3 <=? len p) && (byte_at p 0 =? 0) && (byte_at p 1 =? 0)
          && (byte_at p 2 =? 1) then drop 3 p
  else p.

(** The [avc1] sample entry with its [avcC] box.  A null pointer or a zero
    size selects the built-in parameter sets; the callers pass a null pointer
    exactly when the vector is empty. *)
Definition avc1_entry (width height : Z) (h264_sps h264_pps : bytes) : bytes :=
  let sps_data := if 0 <? len h264_sps then strip_start_code h264_sps
                  else [0x42; 0x00; 0x1E; 0xE1; 0x00; 0x00; 0x00] in
  let pps_data := if 0 <? len h264_pps then strip_start_code h264_pps
                  else [0xE1; 0x00] in
  let avcc_size := u32 (8 + 1 + 1 + 1 + 1 + 1 + 1 + 2 + len sps_data + 1 + 2 + len pps_data) in
  let avc1_size := u32 (4 + 4 + 6 + 2 + 2 + 2 + 4 + 4 + 4 + 2 + 2 + 4 + 4 + 4 + 2 + 32 + 2 + 2
                        + avcc_size) in
  let '(profile, compatibility, level) :=
    if 4 <=? len sps_data
    then (byte_at sps_data 1, byte_at sps_data 2, byte_at sps_data 3)
    else (0x42, 0x00, 0x1F) in
  writeUint32BE avc1_size ++ chars "avc1"
  ++ zeros 6
  ++ writeUint16BE 1                       (* data reference index *)
  ++ writeUint16BE 0 ++ writeUint16BE 0    (* version, revision *)
  ++ writeUint32BE 0 ++ writeUint32BE 0 ++ writeUint32BE 0
  ++ writeUint16BE width ++ writeUint16BE height
  ++ writeUint32BE 0x00480000 ++ writeUint32BE 0x00480000
  ++ writeUint32BE 0                       (* data size *)
  ++ writeUint16BE 1                       (* frame count *)
  ++ zeros 32                              (* compressor name *)
  ++ writeUint16BE 24 ++ writeUint16BE 0xFFFF
  ++ writeUint32BE avcc_size ++ chars "avcC"
  ++ writeUint8 0x01
  ++ writeUint8 profile ++ writeUint8 compatibility ++ writeUint8 level
  ++ writeUint8 0xFF
  ++ writeUint8 0xE1
  ++ writeUint16BE (len sps_data) ++ flat_map writeUint8 sps_data
  ++ writeUint8 0x01
  ++ writeUint16BE (len pps_data) ++ flat_map writeUint8 pps_data.

(** The [mp4a] sample entry with its [esds] box. *)
Definition mp4a_entry (audio_sample_rate audio_channels : Z) : bytes :=
  let channel_count := if 0 <? audio_channels then audio_channels else 2 in
  let sample_rate := if 0 <? audio_sample_rate then audio_sample_rate else 48000 in
  let sample_rate_index := getSampleRateIndex sample_rate in
  let audio_object_type := 2 in
  let asc_bits :=
    Z.lor (Z.lor (u16 (Z.shiftl (Z.land audio_object_type 0x1F) 11))
                 (u16 (Z.shiftl (Z.land sample_rate_index 0x0F) 7)))
          (u16 (Z.shiftl (Z.land channel_count 0x0F) 3)) in
  let asc_bytes := [u8 (Z.land (Z.shiftr asc_bits 8) 0xFF); u8 (Z.land asc_bits 0xFF)] in
  let decoder_config :=
    writeUint8 0x40 ++ writeUint8 0x15
    ++ writeUint8 0x00 ++ writeUint8 0x00 ++ writeUint8 0x00
    ++ writeUint32BE 0 ++ writeUint32BE 0
    ++ [0x05] ++ writeDescriptorLength (len asc_bytes) ++ asc_bytes in
  let sl_config := [0x06] ++ writeDescriptorLength 1 ++ [0x02] in
  let decoder_config_descriptor :=
    [0x04] ++ writeDescriptorLength (len decoder_config) ++ decoder_config in
  let es_descriptor :=
    writeUint16BE 2 ++ writeUint8 0x00 ++ decoder_config_descriptor ++ sl_config in
  let esds_payload :=
    writeUint32BE 0 ++ [0x03] ++ writeDescriptorLength (len es_descriptor) ++ es_descriptor in
  let esds_box := writeAtomHeader "esds" (8 + u32 (len esds_payload)) ++ esds_payload in
  writeUint32BE (36 + u32 (len esds_box)) ++ chars "mp4a"
  ++ zeros 6
  ++ writeUint16BE 1
  ++ writeUint16BE 0 ++ writeUint16BE 0
  ++ writeUint32BE 0
  ++ writeUint16BE channel_count
  ++ writeUint16BE 16
  ++ writeUint16BE 0 ++ writeUint16BE 0
  ++ writeUint32BE (Z.shiftl sample_rate 16)
  ++ esds_box.

(** [MoovBuilder::buildStsd]. *)
Definition buildStsd (codec : string) (width height audio_sample_rate audio_channels : Z)
    (h264_sps h264_pps : bytes) : option bytes :=
  let stsd_entries :=
    if String.eqb codec "avc1" then avc1_entry width height h264_sps h264_pps
    else mp4a_entry audio_sample_rate audio_channels in
  Some (writeAtomHeader "stsd" (8 + 8 + len stsd_entries)
        ++ writeUint32BE 0 ++ writeUint32BE 1 ++ stsd_entries).

(** The duration [MoovBuilder::buildTrak] hands to [buildStts] for a final
    sample that has no predecessor. *)
Definition stts_default_duration (codec : string) (timescale : Z) : Z :=
  if String.eqb codec "mp4a" then 1024
  else if 30 <=? timescale then timescale / 30
  else 1.

(** A track's duration in the [mvhd] timescale,
    [(frames.back ().pts * 1000) / timescale]: the product is formed in
    [int64_t] and wraps there (as the targets compute it), the [uint32_t]
    timescale is converted to [int64_t] for a truncating division, and the
    quotient is stored in a [uint32_t].  The timescale is not looked at
    first: a division by zero kills the process. *)
Definition duration_ms (frames : list FrameInfo) (timescale : Z) : Trap Z :=
  if timescale =? 0 then Killed
  else Returned (u32 (Z.quot (i64 (pts (back frames) * 1000)) timescale)).

(** [MoovBuilder::buildTrak].  Of what a call of the builder comes to,
    [Returned (Some data)] is [return true] with the bytes built and
    [Returned None] is [return false]. *)
Definition buildTrak (frames : list FrameInfo) (track : Z) (timescale : Z) (codec : string)
    (video_width video_height audio_sample_rate audio_channels : Z)
    (h264_sps h264_pps : bytes) (mdat_start : Z) : Trap (option bytes) :=
  let is_avc1 := String.eqb codec "avc1" in
  match duration_ms frames timescale with
  | Killed => Killed
  | Returned tkhd_duration =>
  let tkhd_data :=
    writeAtomHeader "tkhd" 92
    ++ writeUint32BE 0x0000000F
    ++ writeUint32BE 0 ++ writeUint32BE 0
    ++ writeUint32BE track
    ++ writeUint32BE 0
    ++ writeUint32BE tkhd_duration
    ++ writeUint32BE 0 ++ writeUint32BE 0
    ++ writeUint16BE 0 ++ writeUint16BE 0
    ++ writeUint16BE (if is_avc1 then 0 else 0x0100)
    ++ writeUint16BE 0
    ++ matrix
    ++ (if is_avc1 && (0 <? video_width) && (0 <? video_height)
        then writeUint32BE (Z.shiftl video_width 16) ++ writeUint32BE (Z.shiftl video_height 16)
        else writeUint32BE 0x00010000 ++ writeUint32BE 0x00010000) in
  let mdhd_data :=
    writeAtomHeader "mdhd" 32
    ++ writeUint32BE 0 ++ writeUint32BE 0 ++ writeUint32BE 0
    ++ writeUint32BE timescale
    ++ writeUint32BE (pts (back frames))
    ++ writeUint16BE 0x55C4 ++ writeUint16BE 0 in
  let handler_type := if is_avc1 then "vide"%string else "soun"%string in
  let hdlr_data :=
    writeAtomHeader "hdlr" 68
    ++ writeUint32BE 0 ++ writeUint32BE 0
    ++ chars handler_type
    ++ flat_map (fun _ : Z => writeUint32BE 0) [0; 1; 2; 3; 4; 5; 6; 7; 8; 9; 10; 11] in
  let media_header :=
    if is_avc1
    then writeAtomHeader "vmhd" 20 ++ writeUint32BE 0 ++ writeUint16BE 0
         ++ writeUint16BE 0 ++ writeUint16BE 0 ++ writeUint16BE 0
    else writeAtomHeader "smhd" 16 ++ writeUint32BE 0 ++ writeUint16BE 0 ++ writeUint16BE 0 in
  let dref_data :=
    writeUint32BE 0 ++ writeUint32BE 1
    ++ writeUint32BE 12 ++ chars "url " ++ writeUint32BE 0x00000001 in
  let dref_box := writeAtomHeader "dref" (8 + len dref_data) ++ dref_data in
  let dinf_box := writeAtomHeader "dinf" (8 + len dref_box) ++ dref_box in
  Returned (
  stsd_data ← buildStsd codec video_width video_height audio_sample_rate audio_channels
                        h264_sps h264_pps;
  stts_data ← buildStts frames (stts_default_duration codec timescale);
  stss_data ← (if is_avc1 then buildStss frames else Some []);
  stsz_data ← buildStsz frames;
  stco_data ← buildStco frames mdat_start;
  stsc_data ← buildStsc frames;
  let stbl_data := stsd_data ++ stts_data ++ stss_data ++ stsz_data ++ stco_data ++ stsc_data in
  let stbl_box := writeAtomHeader "stbl" (8 + len stbl_data) ++ stbl_data in
  let minf_data := media_header ++ dinf_box ++ stbl_box in
  let minf_box := writeAtomHeader "minf" (8 + len minf_data) ++ minf_data in
  let mdia_box :=
    writeAtomHeader "mdia" (8 + len mdhd_data + len hdlr_data + len minf_box)
    ++ mdhd_data ++ hdlr_data ++ minf_box in
  Some (writeAtomHeader "trak" (8 + len tkhd_data + len mdia_box) ++ tkhd_data ++ mdia_box))
  end.

(** [MoovBuilder::buildMoov]. *)
Definition buildMoov (video_frames audio_frames : list FrameInfo)
    (video_timescale audio_timescale audio_sample_rate audio_channels : Z)
    (video_width video_height : Z) (h264_sps h264_pps : bytes) (mdat_start : Z)
  : Trap (option bytes) :=
  match (match video_frames with
         | [] => Returned 0
         | _ => duration_ms video_frames video_timescale
         end) with
  | Killed => Killed
  | Returned video_duration =>
  match buildMvhd video_duration with
  | None => Returned None
  | Some mvhd_data =>
  match (match video_frames with
         | [] => Returned (Some [])
         | _ => buildTrak video_frames 1 video_timescale "avc1" video_width video_height
                          0 0 h264_sps h264_pps mdat_start
         end) with
  | Killed => Killed
  | Returned None => Returned None
  | Returned (Some video_trak) =>
  match (match audio_frames with
         | [] => Returned (Some [])
         | _ => buildTrak audio_frames 2 audio_timescale "mp4a" 0 0
                          audio_sample_rate audio_channels [] [] mdat_start
         end) with
  | Killed => Killed
  | Returned None => Returned None
  | Returned (Some audio_trak) =>
  let moov_size := u32 (8 + len mvhd_data + len video_trak + len audio_trak) in
  Returned (Some (writeAtomHeader "moov" moov_size ++ mvhd_data ++ video_trak ++ audio_trak))
  end end end end.

(** [MoovBuilder::writeMoovToFile]. *)
Definition writeMoovToFile (filename : string) (moov_data : bytes) : Op World unit :=
  file ← fs_open filename Mode_ab;
  match file with
  | None => fail
  | Some f =>
      '(ok, f) ← file_seek f 0 SEEK_END;
      guard ok;;
      '(written, f) ← file_write f moov_data;
      _ ← file_flush f;
      guard (written =? len moov_data)
  end.

(** ** The recorder ([mp4_recorder.h], [mp4_recorder.cpp]) *)

Record Recorder := mkRecorder {
  mp4_filename_ : string;
  idx_filename_ : string;
  lock_filename_ : string;
  mp4_file_ : option File;
  idx_file_ : option File;
  lock_file_ : option File;
  config_ : RecorderConfig;
  recording_ : bool;
  frame_count_ : Z;
  mdat_start_ : Z;
  mdat_size_ : Z;
  video_frames_ : list FrameInfo;
  audio_frames_ : list FrameInfo;
  h264_sps_ : bytes;
  h264_pps_ : bytes;
  last_flush_time_ : Z;          (* steady_clock ticks, in nanoseconds *)
  frames_since_flush_ : Z
}.

(** A freshly constructed recorder (the in-class member initialisers). *)
Definition new_recorder : Recorder :=
  mkRecorder "" "" "" None None None default_config false 0 0 0 [] [] [] [] 0 0.

Definition set_filenames (a b c : string) (r : Recorder) : Recorder :=
  mkRecorder a b c (mp4_file_ r) (idx_file_ r) (lock_file_ r) (config_ r) (recording_ r)
    (frame_count_ r) (mdat_start_ r) (mdat_size_ r) (video_frames_ r) (audio_frames_ r)
    (h264_sps_ r) (h264_pps_ r) (last_flush_time_ r) (frames_since_flush_ r).
Definition set_mp4_file (f : option File) (r : Recorder) : Recorder :=
  mkRecorder (mp4_filename_ r) (idx_filename_ r) (lock_filename_ r) f (idx_file_ r)
    (lock_file_ r) (config_ r) (recording_ r) (frame_count_ r) (mdat_start_ r) (mdat_size_ r)
    (video_frames_ r) (audio_frames_ r) (h264_sps_ r) (h264_pps_ r) (last_flush_time_ r)
    (frames_since_flush_ r).
Definition set_idx_file (f : option File) (r : Recorder) : Recorder :=
  mkRecorder (mp4_filename_ r) (idx_filename_ r) (lock_filename_ r) (mp4_file_ r) f
    (lock_file_ r) (config_ r) (recording_ r) (frame_count_ r) (mdat_start_ r) (mdat_size_ r)
    (video_frames_ r) (audio_frames_ r) (h264_sps_ r) (h264_pps_ r) (last_flush_time_ r)
    (frames_since_flush_ r).
Definition set_lock_file (f : option File) (r : Recorder) : Recorder :=
  mkRecorder (mp4_filename_ r) (idx_filename_ r) (lock_filename_ r) (mp4_file_ r)
    (idx_file_ r) f (config_ r) (recording_ r) (frame_count_ r) (mdat_start_ r) (mdat_size_ r)
    (video_frames_ r) (audio_frames_ r) (h264_sps_ r) (h264_pps_ r) (last_flush_time_ r)
    (frames_since_flush_ r).
Definition set_config (c : RecorderConfig) (r : Recorder) : Recorder :=
  mkRecorder (mp4_filename_ r) (idx_filename_ r) (lock_filename_ r) (mp4_file_ r)
    (idx_file_ r) (lock_file_ r) c (recording_ r) (frame_count_ r) (mdat_start_ r)
    (mdat_size_ r) (video_frames_ r) (audio_frames_ r) (h264_sps_ r) (h264_pps_ r)
    (last_flush_time_ r) (frames_since_flush_ r).
Definition set_recording (b : bool) (r : Recorder) : Recorder :=
  mkRecorder (mp4_filename_ r) (idx_filename_ r) (lock_filename_ r) (mp4_file_ r)
    (idx_file_ r) (lock_file_ r) (config_ r) b (frame_count_ r) (mdat_start_ r)
    (mdat_size_ r) (video_frames_ r) (audio_frames_ r) (h264_sps_ r) (h264_pps_ r)
    (last_flush_time_ r) (frames_since_flush_ r).
Definition set_frame_count (n : Z) (r : Recorder) : Recorder :=
  mkRecorder (mp4_filename_ r) (idx_filename_ r) (lock_filename_ r) (mp4_file_ r)
    (idx_file_ r) (lock_file_ r) (config_ r) (recording_ r) n (mdat_start_ r)
    (mdat_size_ r) (video_frames_ r) (audio_frames_ r) (h264_sps_ r) (h264_pps_ r)
    (last_flush_time_ r) (frames_since_flush_ r).
Definition set_mdat_start (n : Z) (r : Recorder) : Recorder :=
  mkRecorder (mp4_filename_ r) (idx_filename_ r) (lock_filename_ r) (mp4_file_ r)
    (idx_file_ r) (lock_file_ r) (config_ r) (recording_ r) (frame_count_ r) n
    (mdat_size_ r) (video_frames_ r) (audio_frames_ r) (h264_sps_ r) (h264_pps_ r)
    (last_flush_time_ r) (frames_since_flush_ r).
Definition set_mdat_size (n : Z) (r : Recorder) : Recorder :=
  mkRecorder (mp4_filename_ r) (idx_filename_ r) (lock_filename_ r) (mp4_file_ r)
    (idx_file_ r) (lock_file_ r) (config_ r) (recording_ r) (frame_count_ r)
    (mdat_start_ r) n (video_frames_ r) (audio_frames_ r) (h264_sps_ r) (h264_pps_ r)
    (last_flush_time_ r) (frames_since_flush_ r).
Definition set_video_frames (l : list FrameInfo) (r : Recorder) : Recorder :=
  mkRecorder (mp4_filename_ r) (idx_filename_ r) (lock_filename_ r) (mp4_file_ r)
    (idx_file_ r) (lock_file_ r) (config_ r) (recording_ r) (frame_count_ r)
    (mdat_start_ r) (mdat_size_ r) l (audio_frames_ r) (h264_sps_ r) (h264_pps_ r)
    (last_flush_time_ r) (frames_since_flush_ r).
Definition set_audio_frames (l : list FrameInfo) (r : Recorder) : Recorder :=
  mkRecorder (mp4_filename_ r) (idx_filename_ r) (lock_filename_ r) (mp4_file_ r)
    (idx_file_ r) (lock_file_ r) (config_ r) (recording_ r) (frame_count_ r)
    (mdat_start_ r) (mdat_size_ r) (video_frames_ r) l (h264_sps_ r) (h264_pps_ r)
    (last_flush_time_ r) (frames_since_flush_ r).
Definition set_h264 (sps pps : bytes) (r : Recorder) : Recorder :=
  mkRecorder (mp4_filename_ r) (idx_filename_ r) (lock_filename_ r) (mp4_file_ r)
    (idx_file_ r) (lock_file_ r) (config_ r) (recording_ r) (frame_count_ r)
    (mdat_start_ r) (mdat_size_ r) (video_frames_ r) (audio_frames_ r) sps pps
    (last_flush_time_ r) (frames_since_flush_ r).
Definition set_last_flush_time (t : Z) (r : Recorder) : Recorder :=
  mkRecorder (mp4_filename_ r) (idx_filename_ r) (lock_filename_ r) (mp4_file_ r)
    (idx_file_ r) (lock_file_ r) (config_ r) (recording_ r) (frame_count_ r)
    (mdat_start_ r) (mdat_size_ r) (video_frames_ r) (audio_frames_ r) (h264_sps_ r)
    (h264_pps_ r) t (frames_since_flush_ r).
Definition set_frames_since_flush (n : Z) (r : Recorder) : Recorder :=
  mkRecorder (mp4_filename_ r) (idx_filename_ r) (lock_filename_ r) (mp4_file_ r)
    (idx_file_ r) (lock_file_ r) (config_ r) (recording_ r) (frame_count_ r)
    (mdat_start_ r) (mdat_size_ r) (video_frames_ r) (audio_frames_ r) (h264_sps_ r)
    (h264_pps_ r) (last_flush_time_ r) n.

(** A recorder together with the file system it works on. *)
Record Machine := mkMachine {
  rec : Recorder;
  disk : World
}.

Definition io {A} (op : Op World A) : Op Machine A := fun m =>
  let '(a, w) := op (disk m) in (a, mkMachine (rec m) w).
Definition this : Op Machine Recorder := fun m => (Some (rec m), m).
Definition assign (f : Recorder -> Recorder) : Op Machine unit := fun m =>
  (Some tt, mkMachine (f (rec m)) (disk m)).

Definition ftyp : bytes :=
  [0x00; 0x00; 0x00; 0x20] ++ chars "ftyp" ++ chars "isom" ++ [0x00; 0x00; 0x02; 0x00]
  ++ chars "isom" ++ chars "iso2" ++ chars "avc1" ++ chars "mp41".

Definition mdat_header : bytes := [0x00; 0x00; 0x00; 0x00] ++ chars "mdat".

(** The four bytes [stop] and [recover] store in the mdat size field. *)
Definition size_bytes (mdat_total_size : Z) : bytes :=
  [u8 (Z.land (Z.shiftr mdat_total_size 24) 0xFF);
   u8 (Z.land (Z.shiftr mdat_total_size 16) 0xFF);
   u8 (Z.land (Z.shiftr mdat_total_size 8) 0xFF);
   u8 (Z.land mdat_total_size 0xFF)].

(** [Mp4Recorder::createFiles]. *)
Definition createFiles (filename : string) : Op Machine unit :=
  mp4 ← io (fs_open filename Mode_wb);
  assign (set_mp4_file mp4);;
  match mp4 with
  | None => fail
  | Some f =>
      '(n, f) ← io (file_write f ftyp);
      assign (set_mp4_file (Some f));;
      guard (n =? len ftyp);;
      '(n, f) ← io (file_write f mdat_header);
      assign (set_mp4_file (Some f));;
      guard (n =? len mdat_header);;
      let mdat_start := file_tell f in
      guard (negb (mdat_start <? 0));;
      assign (set_mdat_start (u64 mdat_start));;
      assign (set_mdat_size 0);;
      r ← this;
      idx ← io (fs_open (idx_filename_ r) Mode_wb);
      assign (set_idx_file idx);;
      match idx with
      | None => fail
      | Some g =>
          '(n, g) ← io (file_write g (le_bytes 4 MAGIC));
          assign (set_idx_file (Some g));;
          guard (n =? sizeof_uint32);;
          '(n, g) ← io (file_write g (encodeConfig (config_ r)));
          assign (set_idx_file (Some g));;
          guard (n =? sizeof_RecorderConfig);;
          _ ← io (file_flush g);
          lock ← io (fs_open (lock_filename_ r) Mode_wb);
          assign (set_lock_file lock);;
          match lock with
          | None => fail
          | Some l =>
              '(_, l) ← io (file_write l (chars "RECORDING"));
              assign (set_lock_file (Some l));;
              _ ← io (file_flush l);
              mret tt
          end
      end
  end.

(** [Mp4Recorder::start]; [now] is the reading of the steady clock. *)
Definition start (filename : string) (config : RecorderConfig) (now : Z) : Op Machine unit :=
  r ← this;
  guard (negb (recording_ r));;
  assign (set_filenames filename (idx_name filename) (lock_name filename));;
  assign (set_config config);;
  createFiles filename;;
  assign (set_recording true);;
  assign (set_frame_count 0);;
  assign (set_last_flush_time now);;
  assign (set_frames_since_flush 0).

(** [Mp4Recorder::setH264Config]; a null pointer is an empty buffer. *)
Definition setH264Config (sps pps : bytes) : Op Machine unit :=
  guard (negb ((len sps =? 0) || (len pps =? 0)));;
  assign (set_h264 sps pps).

(** [Mp4Recorder::writeFrameToMdat].  The method dereferences [mp4_file_]
    unchecked; the handle is there whenever the recorder is recording, and
    the model fails where it is not. *)
Definition writeFrameToMdat (data : bytes) : Op Machine unit :=
  r ← this;
  match mp4_file_ r with
  | None => fail
  | Some f =>
      '(n, f) ← io (file_write f data);
      assign (set_mp4_file (Some f));;
      guard (n =? len data)
  end.

(** [Mp4Recorder::logFrameToIndex]. *)
Definition logFrameToIndex (frame : FrameInfo) : Op Machine unit :=
  r ← this;
  match idx_file_ r with
  | None => fail
  | Some g =>
      '(n, g) ← io (file_write g (encodeFrame frame));
      assign (set_idx_file (Some g));;
      guard (n =? sizeof_FrameInfo);;
      if track_id frame =? 0
      then assign (fun r => set_video_frames (video_frames_ r ++ [frame]) r)
      else if track_id frame =? 1
      then assign (fun r => set_audio_frames (audio_frames_ r ++ [frame]) r)
      else mret tt
  end.

(** [Mp4Recorder::flushIfNeeded]; [now] is the reading of the steady clock,
    the elapsed time is truncated to whole milliseconds. *)
Definition flushIfNeeded (now : Z) : Op Machine unit :=
  r ← this;
  let elapsed_ms := u64 (Z.quot (now - last_flush_time_ r) 1000000) in
  if (flush_interval_ms (config_ r) <=? elapsed_ms)
     || (flush_frame_count (config_ r) <=? frames_since_flush_ r)
  then
    match mp4_file_ r, idx_file_ r with
    | Some f, Some g =>
        ok ← io (file_flush f); guard ok;;
        ok ← io (file_flush g); guard ok;;
        ok ← io (file_sync f); guard ok;;
        ok ← io (file_sync g); guard ok;;
        assign (set_last_flush_time now);;
        assign (set_frames_since_flush 0)
    | _, _ => fail
    end
  else mret tt.

(** The bookkeeping both writers do once the sample and its record are out. *)
Definition count_frame (size : Z) : Op Machine unit :=
  assign (fun r => set_mdat_size (u64 (mdat_size_ r + size)) r);;
  assign (fun r => set_frame_count (u64 (frame_count_ r + 1)) r);;
  assign (fun r => set_frames_since_flush (u32 (frames_since_flush_ r + 1)) r).

(** [Mp4Recorder::writeVideoFrame]; the buffer [data] carries its [size]
    (a [uint32_t], so a buffer has less than 2^32 bytes), and a null pointer
    with size 0 is the empty buffer.  [stack] is what the local
    [FrameInfo frame], which is not initialised, holds in its padding. *)
Definition writeVideoFrame (data : bytes) (pts : Z) (is_keyframe : bool) (now : Z)
    (stack : bytes) : Op Machine unit :=
  r ← this;
  guard (recording_ r);;
  let size := len data in
  let frame :=
    mkFrame (mdat_size_ r) size pts pts (if is_keyframe then 1 else 0) 0 stack in
  writeFrameToMdat data;;
  logFrameToIndex frame;;
  count_frame size;;
  flushIfNeeded now.

(** [Mp4Recorder::writeAudioFrame]. *)
Definition writeAudioFrame (data : bytes) (pts : Z) (now : Z) (stack : bytes)
  : Op Machine unit :=
  r ← this;
  guard (recording_ r);;
  let size := len data in
  writeFrameToMdat data;;
  r ← this;
  let frame := mkFrame (mdat_size_ r) size pts pts 1 1 stack in
  logFrameToIndex frame;;
  count_frame size;;
  flushIfNeeded now.

(** [Mp4Recorder::buildAndWriteMoov]; a builder that is killed takes the
    method, and [stop] around it, with it. *)
Definition buildAndWriteMoov : Op Machine unit :=
  r ← this;
  let c := config_ r in
  match buildMoov (video_frames_ r) (audio_frames_ r)
          (video_timescale c) (audio_timescale c) (audio_sample_rate c) (audio_channels c)
          (video_width c) (video_height c) (h264_sps_ r) (h264_pps_ r) (mdat_start_ r) with
  | Killed => fail
  | Returned None => fail
  | Returned (Some moov_data) => io (writeMoovToFile (mp4_filename_ r) moov_data)
  end.

(** [Mp4Recorder::cleanupFiles]. *)
Definition cleanupFiles : Op Machine unit :=
  r ← this;
  _ ← io (fs_remove (idx_filename_ r));
  _ ← io (fs_remove (lock_filename_ r));
  mret tt.

(** [Mp4Recorder::stop]. *)
Definition stop : Op Machine unit :=
  r ← this;
  guard (recording_ r);;
  assign (set_recording false);;
  match mp4_file_ r with
  | Some f => _ ← io (file_flush f); mret tt
  | None => mret tt
  end;;
  let mdat_total_size := u32 (8 + mdat_size_ r) in
  match mp4_file_ r with
  | Some f =>
      '(_, f) ← io (file_seek f (i64 (u64 (mdat_start_ r - 8))) SEEK_SET);
      '(_, f) ← io (file_write f (size_bytes mdat_total_size));
      _ ← io (file_flush f);
      assign (set_mp4_file None)
  | None => mret tt
  end;;
  buildAndWriteMoov;;
  assign (set_idx_file None);;
  assign (set_lock_file None);;
  cleanupFiles.

(** [Mp4Recorder::isRecording] and [Mp4Recorder::getFrameCount]. *)
Definition isRecording (m : Machine) : bool := recording_ (rec m).
Definition getFrameCount (m : Machine) : Z := frame_count_ (rec m).

(** ** The recovery driver ([mp4_recorder.cpp]) *)

Definition nonempty (b : bytes) : bool := negb (len b =? 0).

(** The [handleNal] closure of [extractH264ConfigFromSample]: it keeps the
    first SPS (type 7) and the first PPS (type 8) of at most 256 bytes. *)
Definition handleNal (nal : bytes) (sps pps : bytes) : bytes * bytes :=
  let max_param_size := 256 in
  if len nal =? 0 then (sps, pps)
  else if max_param_size <? len nal then (sps, pps)
  else
    let nal_type := Z.land (byte_at nal 0) 0x1F in
    if (nal_type =? 7) && negb (nonempty sps) then (nal, pps)
    else if (nal_type =? 8) && negb (nonempty pps) then (sps, nal)
    else (sps, pps).

Definition slice (sample : bytes) (from count : Z) : bytes :=
  take (Z.to_nat count) (drop (Z.to_nat from) sample).

(** The Annex-B scan: [pos] advances by at least one byte a turn. *)
Fixpoint annexb_scan (fuel : nat) (sample : bytes) (pos start : Z) (sps pps : bytes)
  : bool * bytes * bytes :=
  let finish :=
    let '(sps, pps) :=
      if start <? len sample then handleNal (slice sample start (len sample - start)) sps pps
      else (sps, pps) in
    (nonempty sps && nonempty pps, sps, pps) in
  match fuel with
  | O => finish
  | S fuel' =>
      if pos + 3 <? len sample then
        let b := fun i => byte_at sample (pos + i) in
        let start_len :=
          if (pos + 3 <? len sample) && (b 0 =? 0) && (b 1 =? 0) && (b 2 =? 1) then 3
          else if (pos + 4 <? len sample) && (b 0 =? 0) && (b 1 =? 0) && (b 2 =? 0)
                  && (b 3 =? 1) then 4
          else 0 in
        if 0 <? start_len then
          let '(sps', pps') :=
            if start <? pos then handleNal (slice sample start (pos - start)) sps pps
            else (sps, pps) in
          if (start <? pos) && nonempty sps' && nonempty pps' then (true, sps', pps')
          else annexb_scan fuel' sample (pos + start_len) (pos + start_len) sps' pps'
        else annexb_scan fuel' sample (pos + 1) start sps pps
      else finish
  end.

(** The scan of 4-byte length-prefixed NAL units. *)
Fixpoint length_prefixed_scan (fuel : nat) (sample : bytes) (pos : Z) (sps pps : bytes)
  : bool * bytes * bytes :=
  match fuel with
  | O => (nonempty sps && nonempty pps, sps, pps)
  | S fuel' =>
      if pos + 4 <=? len sample then
        let nal_size := readBE32 (drop (Z.to_nat pos) sample) in
        let pos := pos + 4 in
        if (nal_size =? 0) || (len sample <? pos + nal_size)
        then (nonempty sps && nonempty pps, sps, pps)
        else
          let '(sps, pps) := handleNal (slice sample pos nal_size) sps pps in
          if nonempty sps && nonempty pps then (true, sps, pps)
          else length_prefixed_scan fuel' sample (pos + nal_size) sps pps
      else (nonempty sps && nonempty pps, sps, pps)
  end.

(** [extractH264ConfigFromSample]; [sps] and [pps] are updated in place. *)
Definition extractH264ConfigFromSample (sample sps pps : bytes) : bool * bytes * bytes :=
  if len sample <? 4 then (false, sps, pps)
  else
    let b := byte_at sample in
    let has_start_code :=
      ((4 <=? len sample) && (b 0 =? 0) && (b 1 =? 0) && (b 2 =? 0) && (b 3 =? 1))
      || ((3 <=? len sample) && (b 0 =? 0) && (b 1 =? 0) && (b 2 =? 1)) in
    if has_start_code then annexb_scan (length sample) sample 0 0 sps pps
    else length_prefixed_scan (length sample) sample 0 sps pps.

(** The frame loop of [extractH264ConfigFromMdat]. *)
Fixpoint extract_from_frames (file : File) (mdat_start : Z) (video_frames : list FrameInfo)
    (sps pps : bytes) : Op World (bool * bytes * bytes) :=
  match video_frames with
  | [] => mret (false, sps, pps)
  | frame :: rest =>
      if size frame =? 0 then extract_from_frames file mdat_start rest sps pps
      else
        let offset := u64 (mdat_start + offset frame) in
        '(ok, file) ← file_seek file (i64 offset) SEEK_SET;
        if negb ok then extract_from_frames file mdat_start rest sps pps
        else
          '(sample, file) ← file_read file (size frame);
          if negb (len sample =? size frame)
          then extract_from_frames file mdat_start rest sps pps
          else
            let '(found, sps, pps) := extractH264ConfigFromSample sample sps pps in
            if found then mret (true, sps, pps)
            else extract_from_frames file mdat_start rest sps pps
  end.

(** [extractH264ConfigFromMdat]. *)
Definition extractH264ConfigFromMdat (filename : string) (mdat_start : Z)
    (video_frames : list FrameInfo) (sps pps : bytes) : Op World (bool * bytes * bytes) :=
  file ← fs_open filename Mode_rb;
  match file with
  | None => mret (false, sps, pps)
  | Some f => extract_from_frames f mdat_start video_frames sps pps
  end.

(** [Mp4Recorder::recover], in the four stretches its disk effects divide it
    into.  Steps 1 and 2: the journal is read (and closed). *)
Definition recover_read_journal (filename : string)
  : Op World (RecorderConfig * list FrameInfo * list FrameInfo) :=
  idx ← IndexFile_open (idx_name filename);
  '(recovery_config, idx) ← IndexFile_readConfig idx;
  '(video_frames, audio_frames, idx) ← IndexFile_readAllFrames idx;
  mret (recovery_config, video_frames, audio_frames).

(** Steps 3 and 4: the mdat size field is overwritten with [file_size - 32].
    (The [mdat_size] the method sums up from the records before this is only
    logged.) *)
Definition recover_patch_mdat (filename : string) : Op World unit :=
  mp4_file ← fs_open filename Mode_rpb;
  match mp4_file with
  | None => fail
  | Some f =>
      file_size ← fs_getFileSize filename;
      match file_size with
      | None => fail
      | Some file_size =>
          guard (negb (file_size <? 40));;
          '(ok, f) ← file_seek f 32 SEEK_SET;
          guard ok;;
          let mdat_total_size_64 := u64 (file_size - 32) in
          guard (negb (UINT32_MAX <? mdat_total_size_64));;
          let mdat_total_size := u32 mdat_total_size_64 in
          '(n, f) ← file_write f (size_bytes mdat_total_size);
          guard (n =? 4);;
          _ ← file_flush f;
          mret tt
      end
  end.

(** Steps 5 to 7: the parameter sets are looked up in the first video
    samples, the moov box is built and appended.  The timescales come from
    the journal unchecked: a builder that is killed takes [recover] with
    it. *)
Definition recover_append_moov (filename : string) (recovery_config : RecorderConfig)
    (video_frames audio_frames : list FrameInfo) : Op World unit :=
  let mdat_start := 40 in
  '(_, recovered_sps, recovered_pps) ←
    extractH264ConfigFromMdat filename mdat_start video_frames [] [];
  let c := recovery_config in
  match buildMoov video_frames audio_frames
          (video_timescale c) (audio_timescale c) (audio_sample_rate c) (audio_channels c)
          (video_width c) (video_height c) recovered_sps recovered_pps mdat_start with
  | Killed => fail
  | Returned None => fail
  | Returned (Some moov_data) => writeMoovToFile filename moov_data
  end.

(** Step 8: the sidecars are unlinked; a refusal is only logged. *)
Definition recover_cleanup (filename : string) : Op World unit :=
  _ ← fs_remove (idx_name filename);
  _ ← fs_remove (lock_name filename);
  mret tt.

Definition recover (filename : string) : Op World unit :=
  '(recovery_config, video_frames, audio_frames) ← recover_read_journal filename;
  recover_patch_mdat filename;;
  recover_append_moov filename recovery_config video_frames audio_frames;;
  recover_cleanup filename.

(** ** Sessions as the caller drives them *)

Inductive Call :=
| WriteVideo (data : bytes) (pts : Z) (is_keyframe : bool) (now : Z) (stack : bytes)
| WriteAudio (data : bytes) (pts : Z) (now : Z) (stack : bytes).

Definition run_call (c : Call) : Op Machine unit :=
  match c with
  | WriteVideo data pts key now stack => writeVideoFrame data pts key now stack
  | WriteAudio data pts now stack => writeAudioFrame data pts now stack
  end.

(** The calls are issued in order; a failed call does not stop the caller.
    The result lists what each call returned. *)
Fixpoint run_calls (cs : list Call) (m : Machine) : list bool * Machine :=
  match cs with
  | [] => ([], m)
  | c :: cs' =>
      let '(r, m') := run_call c m in
      let '(rs, m'') := run_calls cs' m' in
      (bool_decide (is_Some r) :: rs, m'')
  end.

Definition fresh (w : World) : Machine := mkMachine new_recorder w.
Definition empty_disk : World := mkWorld ∅ [].

(** ** Reference definitions the properties are stated against *)

(** Run-length encoding, left to right: [(count, value)] per maximal run. *)
Fixpoint rle_go (cur cnt : Z) (l : list Z) : list (Z * Z) :=
  match l with
  | [] => [(cnt, cur)]
  | x :: l' => if x =? cur then rle_go cur (cnt + 1) l' else (cnt, cur) :: rle_go x 1 l'
  end.

Definition rle (l : list Z) : list (Z * Z) :=
  match l with
  | [] => []
  | x :: l' => rle_go x 1 l'
  end.

(** The successive PTS deltas, one for every sample but the last. *)
Fixpoint pts_deltas (frames : list FrameInfo) : list Z :=
  match frames with
  | [] => []
  | f :: rest =>
      match rest with
      | [] => []
      | g :: _ => u32 (pts g - pts f) :: pts_deltas rest
      end
  end.

(** The final sample's duration as the specification words it: 1024 for
    audio; for video the previous delta, or [max (timescale / 30, 1)] for a
    single sample. *)
Definition final_duration_specified (codec : string) (timescale : Z)
    (frames : list FrameInfo) : Z :=
  if String.eqb codec "mp4a" then 1024
  else List.last (pts_deltas frames) (Z.max (timescale / 30) 1).

(** The final sample's duration as the builder computes it: the previous
    delta for either kind of track; only a single sample gets the default. *)
Definition final_duration (codec : string) (timescale : Z) (frames : list FrameInfo) : Z :=
  List.last (pts_deltas frames)
            (if String.eqb codec "mp4a" then 1024 else Z.max (timescale / 30) 1).

(** The durations the grouping loop goes through. *)
Fixpoint loop_durations_of (frames : list FrameInfo) (default_duration : Z) : list Z :=
  match frames with
  | [] => []
  | f :: rest =>
      match rest with
      | [] => [default_duration]
      | g :: _ => u32 (pts g - pts f) :: loop_durations_of rest default_duration
      end
  end.

(** The fields of the [mvhd] box inside a [moov] box: the box starts
    after the 8-byte [moov] header and has an 8-byte header of its own. *)
Definition mvhd_version (moov : bytes) : Z := byte_at moov 16.
Definition mvhd_timescale (moov : bytes) : Z := readBE32 (drop 28 moov).
Definition mvhd_duration (moov : bytes) : Z := readBE32 (drop 32 moov).

(** An operation that leaves the recording flag as it found it. *)
Definition keeps_flag {A} (op : Op Machine A) : Prop :=
  forall m, recording_ (rec (snd (op m))) = recording_ (rec m).

(** What the next fallible call finds in the fault list. *)
Definition pop (flts : list (option Z)) : option Z * list (option Z) :=
  match flts with
  | [] => (None, [])
  | f :: rest => (f, rest)
  end.

(** The journal file of a session: magic, configuration, records. *)
Definition journal_bytes (cfg : RecorderConfig) (journal : list FrameInfo) : bytes :=
  le_bytes 4 MAGIC ++ encodeConfig cfg ++ flat_map encodeFrame journal.

Definition is_video (f : FrameInfo) : bool := track_id f =? 0.
Definition is_audio (f : FrameInfo) : bool := track_id f =? 1.

(** An open session on [path]: the recorder is recording, [path] holds the
    two headers and the [payload] written so far, [path.idx] holds the
    [journal], and both handles stand at the end of their files. *)
Record session (path : string) (cfg : RecorderConfig) (journal : list FrameInfo)
    (payload : bytes) (m : Machine) : Prop := {
  s_recording : recording_ (rec m) = true;
  s_mp4_name : mp4_filename_ (rec m) = path;
  s_idx_name : idx_filename_ (rec m) = idx_name path;
  s_lock_name : lock_filename_ (rec m) = lock_name path;
  s_config : config_ (rec m) = cfg;
  s_mdat_start : mdat_start_ (rec m) = 40;
  s_mp4 : files (disk m) !! path = Some (ftyp ++ mdat_header ++ payload);
  s_mp4_file : mp4_file_ (rec m)
               = Some (mkFile path (len (ftyp ++ mdat_header ++ payload)) false);
  s_idx : files (disk m) !! idx_name path = Some (journal_bytes cfg journal);
  s_idx_file : idx_file_ (rec m)
               = Some (mkFile (idx_name path) (len (journal_bytes cfg journal)) false);
  s_mdat_size : mdat_size_ (rec m) = u64 (len payload);
  s_video : video_frames_ (rec m) = List.filter is_video journal;
  s_audio : audio_frames_ (rec m) = List.filter is_audio journal
}.

(** The sample a call hands over, and the record the call journals when the
    payload written before it is [written] bytes long. *)
Definition call_data (c : Call) : bytes :=
  match c with
  | WriteVideo data _ _ _ _ => data
  | WriteAudio data _ _ _ => data
  end.

Definition record_of (c : Call) (written : Z) : FrameInfo :=
  match c with
  | WriteVideo data pts key _ stack =>
      mkFrame written (len data) pts pts (if key then 1 else 0) 0 stack
  | WriteAudio data pts _ stack => mkFrame written (len data) pts pts 1 1 stack
  end.

(** What a [fwrite] of [data] transfers, and the faults left after it. *)
Definition wrote (flts : list (option Z)) (data : bytes) : Z * list (option Z) :=
  match data with
  | [] => (0, flts)
  | _ => (match fst (pop flts) with
          | None => len data
          | Some k => Z.max 0 (Z.min k (len data - 1))
          end, snd (pop flts))
  end.

(** The records a run of successful calls journals when [written] bytes of
    payload precede it, and the payload the run adds. *)
Fixpoint journal_from (cs : list Call) (written : Z) : list FrameInfo :=
  match cs with
  | [] => []
  | c :: cs' => record_of c (u64 written) :: journal_from cs' (written + len (call_data c))
  end.

Definition payload_of (cs : list Call) : bytes := flat_map call_data cs.


(** The sum of the sizes of the samples a run of calls hands over. *)
Definition sum_sizes (cs : list Call) : Z :=
  fold_right (fun c acc => len (call_data c) + acc) 0 cs.

(** An operation that unlinks nothing: every file present before it is
    present after it. *)
Definition keeps_files {A} (op : Op Machine A) : Prop :=
  forall m p, is_Some (files (disk m) !! p) -> is_Some (files (disk (snd (op m))) !! p).

Definition keeps_files_io {A} (op : Op World A) : Prop :=
  forall w p, is_Some (files w !! p) -> is_Some (files (snd (op w)) !! p).

(** What the journal reader makes of the bytes of a journal file: the
    configuration behind the magic number, then one record per whole
    stride of 40 bytes, split by track. *)
Fixpoint parse_frames (fuel : nat) (rest : bytes) (video audio : list FrameInfo)
  : list FrameInfo * list FrameInfo :=
  match fuel with
  | O => (video, audio)
  | S fuel' =>
      let raw := take 40 rest in
      if len raw =? sizeof_FrameInfo then
        let frame := decodeFrame raw in
        if track_id frame =? 0 then parse_frames fuel' (drop 40 rest) (video ++ [frame]) audio
        else if track_id frame =? 1
             then parse_frames fuel' (drop 40 rest) video (audio ++ [frame])
             else parse_frames fuel' (drop 40 rest) video audio
      else (video, audio)
  end.

Definition parse_journal (c : bytes)
  : option (RecorderConfig * list FrameInfo * list FrameInfo) :=
  let magic := take 4 c in
  let cfg := take 32 (drop 4 c) in
  if negb (len magic =? sizeof_uint32) then None
  else if negb (le_value magic =? MAGIC) then None
  else if negb (len cfg =? sizeof_RecorderConfig) then None
  else
    let '(video, audio) := parse_frames (S (length c)) (drop 36 c) [] [] in
    Some (decodeConfig cfg, video, audio).

(** The moov box of a session without frames: the movie header alone. *)
Definition empty_moov : bytes :=
  writeAtomHeader "moov" 116 ++ default [] (buildMvhd 0).

(** The mdat size field after recovery of a file of [file_size] bytes. *)
Definition patched (c : bytes) : bytes :=
  write_at c 32 (size_bytes (u32 (u64 (len c - 32)))).

(** The disk a process leaves when it dies during [recover (path)]: right
    after step 4 (the mdat size is patched), and right after step 7 (the
    moov box is appended, the sidecars are still there). *)
Definition crashed_after_patch (path : string) (w : World) : World :=
  after (recover_read_journal path ≫= fun _ => recover_patch_mdat path) w.

Definition crashed_after_moov (path : string) (w : World) : World :=
  after (recover_read_journal path ≫= fun '(recovery_config, video_frames, audio_frames) =>
         recover_patch_mdat path ≫= fun _ =>
         recover_append_moov path recovery_config video_frames audio_frames) w.

(** An interrupted session of one video sample: the files [start] and one
    [writeVideoFrame] leave when the call comes a second after [start], so
    that it ends by flushing and syncing both files. *)
Definition interrupted_session : World :=
  disk (after (writeVideoFrame [0; 0; 0; 1; 0x65] 0 true 1000000000 (zeros 10))
              (after (start "out.mp4" default_config 0) (fresh empty_disk))).

(** ** Big-endian accessors and the log filter ([common.h], [common.cpp]) *)

(** [readBE64]. *)
Definition readBE64 (p : bytes) : Z :=
  Z.lor (Z.shiftl (readBE32 p) 32) (readBE32 (drop 4 p)).

(** [writeBE32 (p, v)] stores four bytes at [p]; the buffer is returned as
    the call leaves it. *)
Definition writeBE32 (p : bytes) (v : Z) : bytes :=
  let v := u32 v in
  <[3%nat := Z.land v 0xFF]>
    (<[2%nat := Z.land (Z.shiftr v 8) 0xFF]>
       (<[1%nat := Z.land (Z.shiftr v 16) 0xFF]>
          (<[0%nat := Z.land (Z.shiftr v 24) 0xFF]> p))).

(** [writeBE64 (p, v)]: the high word at [p], the low word at [p + 4]. *)
Definition writeBE64 (p : bytes) (v : Z) : bytes :=
  let v := u64 v in
  let p := writeBE32 p (u32 (Z.shiftr v 32)) in
  take 4 p ++ writeBE32 (drop 4 p) (u32 v).

Inductive LogSeverity := LS_VERBOSE | LS_INFO | LS_WARNING | LS_ERROR | LS_NONE.
Inductive LogLevel := SILENT | ERROR | INFO | DEBUG.

(** The enumerators' values. *)
Definition severity_value (s : LogSeverity) : Z :=
  match s with
  | LS_VERBOSE => 0 | LS_INFO => 1 | LS_WARNING => 2 | LS_ERROR => 3 | LS_NONE => 4
  end.

(** [SetLogLevel]: the value it stores in [g_min_severity]. *)
Definition SetLogLevel (level : LogLevel) : LogSeverity :=
  match level with
  | SILENT => LS_NONE
  | ERROR => LS_ERROR
  | INFO => LS_INFO
  | DEBUG => LS_VERBOSE
  end.

(** [LogSettings::ShouldLog], with [g_min_severity] made a parameter. *)
Definition ShouldLog (g_min_severity severity : LogSeverity) : bool :=
  (severity_value g_min_severity <=? severity_value severity)
  && negb (severity_value g_min_severity =? severity_value LS_NONE).

(** [getAdtsSampleRate] of the demo's ADTS reader ([mp4_recover_demo.cpp]). *)
Definition kSampleRates : list Z :=
  [96000; 88200; 64000; 48000; 44100; 32000; 24000; 22050;
   16000; 12000; 11025; 8000; 7350].

Definition getAdtsSampleRate (index : Z) : Z :=
  if len kSampleRates <=? index then 0
  else nth (Z.to_nat index) kSampleRates 0.

(** [MoovBuilder::writeUint64BE]. *)
Definition writeUint64BE (value : Z) : bytes :=
  let v := u64 value in
  writeUint32BE (u32 (Z.shiftr v 32)) ++ writeUint32BE (u32 v).

(** ** The journal writer ([index_file.cpp])

    The writing methods of [IndexFile] consult the [dirty_] flag; an
    [IndexFile] object is carried with it and with the file system. *)

Record IndexMachine := mkIndexMachine {
  index : IndexFile;
  dirty_ : bool;
  index_disk : World
}.

Definition index_io {A} (op : Op World A) : Op IndexMachine A := fun m =>
  let '(a, w) := op (index_disk m) in (a, mkIndexMachine (index m) (dirty_ m) w).
Definition set_index_file (f : option File) : Op IndexMachine unit := fun m =>
  (Some tt, mkIndexMachine (mkIndexFile f (ix_frame_count (index m))) (dirty_ m) (index_disk m)).
Definition set_index_frame_count (n : Z) : Op IndexMachine unit := fun m =>
  (Some tt, mkIndexMachine (mkIndexFile (ix_file (index m)) n) (dirty_ m) (index_disk m)).
Definition set_dirty (d : bool) : Op IndexMachine unit := fun m =>
  (Some tt, mkIndexMachine (index m) d (index_disk m)).

(** [IndexFile::create]. *)
Definition IndexFile_create (filename : string) : Op IndexMachine unit :=
  file ← index_io (fs_open filename Mode_wb);
  set_index_file file;;
  match file with
  | None => fail
  | Some _ => set_index_frame_count 0;; set_dirty false
  end.

(** [IndexFile::writeConfig]. *)
Definition IndexFile_writeConfig (config : RecorderConfig) : Op IndexMachine unit :=
  m ← get;
  match ix_file (index m) with
  | None => fail
  | Some f =>
      '(n, f) ← index_io (file_write f (le_bytes 4 MAGIC));
      set_index_file (Some f);;
      guard (n =? sizeof_uint32);;
      '(n, f) ← index_io (file_write f (encodeConfig config));
      set_index_file (Some f);;
      guard (n =? sizeof_RecorderConfig);;
      set_dirty true
  end.

(** [IndexFile::writeFrame]. *)
Definition IndexFile_writeFrame (frame : FrameInfo) : Op IndexMachine unit :=
  m ← get;
  match ix_file (index m) with
  | None => fail
  | Some f =>
      '(n, f) ← index_io (file_write f (encodeFrame frame));
      set_index_file (Some f);;
      guard (n =? sizeof_FrameInfo);;
      m ← get;
      set_index_frame_count (u64 (ix_frame_count (index m) + 1));;
      set_dirty true
  end.

(** [IndexFile::flush]. *)
Definition IndexFile_flush : Op IndexMachine unit :=
  m ← get;
  match ix_file (index m) with
  | None => mret tt
  | Some f =>
      if negb (dirty_ m) then mret tt
      else
        ok ← index_io (file_flush f);
        guard ok;;
        set_dirty false
  end.

(** [IndexFile::close]; the result of its [flush] is dropped. *)
Definition IndexFile_close : Op IndexMachine unit :=
  m ← get;
  match ix_file (index m) with
  | None => mret tt
  | Some _ =>
      _ ← attempt IndexFile_flush;
      set_index_file None
  end.

(** [IndexFile::getFrameCount]. *)
Definition IndexFile_getFrameCount (ix : IndexFile) : Z := ix_frame_count ix.

(** A journal written through [IndexFile]: the header, then the records. *)
Definition write_index (filename : string) (config : RecorderConfig)
    (frames : list FrameInfo) : Op IndexMachine unit :=
  IndexFile_create filename;;
  IndexFile_writeConfig config;;
  foldr (fun frame rest => IndexFile_writeFrame frame;; rest) (mret tt) frames;;
  IndexFile_close.

(** A journal read through [IndexFile], as [recover] does it. *)
Definition read_index (filename : string)
  : Op World (RecorderConfig * list FrameInfo * list FrameInfo * Z) :=
  idx ← IndexFile_open filename;
  let frame_count := IndexFile_getFrameCount idx in
  '(config, idx) ← IndexFile_readConfig idx;
  '(video_frames, audio_frames, idx) ← IndexFile_readAllFrames idx;
  mret (config, video_frames, audio_frames, frame_count).

(** ** The destructor ([mp4_recorder.cpp]) *)


(** ** Reference definitions for the boxes, the journal and the sessions *)

(** The length an MPEG-4 descriptor reader takes from the bytes of an
    expandable length field: seven bits a byte, most significant first. *)
Definition descriptor_length (b : bytes) : Z :=
  fold_left (fun acc x => acc * 128 + Z.land x 0x7F) b 0.

(** The continuation flag of a byte of such a field. *)
Definition continues (x : Z) : bool := negb (Z.land x 0x80 =? 0).

(** A tree of ISO boxes, and its bytes: a box is its 32-bit big-endian
    size (header included), its four-character type and its body, the body
    of a container being its children one after the other. *)
#[warnings="-register-all"] Inductive Box :=
| Leaf (type : string) (payload : bytes)
| Node (type : string) (children : list Box).

Fixpoint serialize (b : Box) : bytes :=
  match b with
  | Leaf type payload => writeUint32BE (8 + len payload) ++ chars type ++ payload
  | Node type children =>
      let body := flat_map serialize children in
      writeUint32BE (8 + len body) ++ chars type ++ body
  end.

(** The boxes of a track, around its sample tables. *)
Definition trak_tree (tkhd mdhd hdlr : bytes) (media_header : Box) (dref : bytes)
    (sample_tables : list Box) : Box :=
  Node "trak"
    [Leaf "tkhd" tkhd;
     Node "mdia"
       [Leaf "mdhd" mdhd; Leaf "hdlr" hdlr;
        Node "minf" [media_header; Node "dinf" [Leaf "dref" dref];
                     Node "stbl" sample_tables]]].

Definition is_trak_tree (t : Box) : Prop :=
  exists tkhd mdhd hdlr media_header dref sample_tables,
    t = trak_tree tkhd mdhd hdlr media_header dref sample_tables.

(** The values the fields of a record and of a configuration can take,
    by their C types, and the number of their padding bytes. *)
Definition frame_ok (f : FrameInfo) : Prop :=
  0 <= offset f < 2 ^ 64 /\ 0 <= size f < 2 ^ 32
  /\ - 2 ^ 63 <= pts f < 2 ^ 63 /\ - 2 ^ 63 <= dts f < 2 ^ 63
  /\ 0 <= is_keyframe f < 2 ^ 8 /\ 0 <= track_id f < 2 ^ 8
  /\ len (padding f) = 10.

Definition config_ok (c : RecorderConfig) : Prop :=
  0 <= video_timescale c < 2 ^ 32 /\ 0 <= audio_timescale c < 2 ^ 32
  /\ 0 <= audio_sample_rate c < 2 ^ 32 /\ 0 <= audio_channels c < 2 ^ 16
  /\ 0 <= flush_interval_ms c < 2 ^ 32 /\ 0 <= flush_frame_count c < 2 ^ 32
  /\ 0 <= video_width c < 2 ^ 32 /\ 0 <= video_height c < 2 ^ 32
  /\ len (config_padding c) = 2.

(** An operation that leaves every file as it is. *)
Definition same_files {A} (op : Op World A) : Prop :=
  forall w, files (snd (op w)) = files w.

(** An operation that unlinks nothing when it fails. *)
Definition keeps_files_if_failed {A} (op : Op Machine A) : Prop :=
  forall m p, fst (op m) = None ->
    is_Some (files (disk m) !! p) -> is_Some (files (disk (snd (op m))) !! p).

(** An operation that leaves a member of the recorder as it found it. *)
Definition keeps {X A} (member : Recorder -> X) (op : Op Machine A) : Prop :=
  forall m, member (rec (snd (op m))) = member (rec m).

(** The clock reading a call is made at. *)
Definition call_now (c : Call) : Z :=
  match c with
  | WriteVideo _ _ _ now _ => now
  | WriteAudio _ _ now _ => now
  end.

(** Whether [flushIfNeeded] finds a flush due. *)
Definition flush_due (r : Recorder) (now : Z) : bool :=
  (flush_interval_ms (config_ r) <=? u64 (Z.quot (now - last_flush_time_ r) 1000000))
  || (flush_frame_count (config_ r) <=? frames_since_flush_ r).

(** A parameter set the recovery may hold: none yet, or a NAL unit of the
    given type and of at most 256 bytes. *)
Definition param_set_ok (nal_type : Z) (p : bytes) : Prop :=
  p = [] \/ (1 <= len p <= 256 /\ Z.land (byte_at p 0) 0x1F = nal_type).

(** What a scan may make of the parameter sets it was given: a set already
    there is kept, a new one is cut out of the sample. *)
Definition scanned (sample sps pps sps' pps' : bytes) : Prop :=
  param_set_ok 7 sps' /\ param_set_ok 8 pps'
  /\ (sps <> [] -> sps' = sps) /\ (pps <> [] -> pps' = pps)
  /\ (sps' = sps \/ exists from count, sps' = slice sample from count)
  /\ (pps' = pps \/ exists from count, pps' = slice sample from count).

(** A 16-bit big-endian field of a box. *)
Definition be16_at (p : bytes) (i : Z) : Z := byte_at p i * 256 + byte_at p (i + 1).

(** The start codes a parameter set may carry: none, the three-byte and the
    four-byte Annex-B start code. *)
Definition start_codes : list bytes := [[]; [0; 0; 1]; [0; 0; 0; 1]].

(** The parameter sets as a player takes them out of an [avc1] sample
    entry: the [avcC] box starts at offset 86; its first parameter set has
    its 16-bit length at offset 100, and the second one follows one count
    byte after the first. *)
Definition avcC_sps (entry : bytes) : bytes :=
  take (Z.to_nat (be16_at entry 100)) (drop 102 entry).

Definition avcC_pps (entry : bytes) : bytes :=
  let n := be16_at entry 100 in
  take (Z.to_nat (be16_at entry (103 + n))) (drop (Z.to_nat (105 + n)) entry).

(** The AudioSpecificConfig of an [mp4a] sample entry: the two bytes at
    offset 70, as one 16-bit number. *)
Definition audio_specific_config (entry : bytes) : Z := be16_at entry 70.

(** The fields of the [i]-th record of a journal file as a reader of the
    file finds them: the record starts at byte 36 + 40 i and holds [offset]
    in its bytes 0 to 7, [size] in 8 to 11, [pts] in 16 to 23, [dts] in 24
    to 31, [is_keyframe] in byte 32 and [track_id] in byte 33, all
    little-endian. *)
Definition journal_offset (c : bytes) (i : nat) : Z := field c (36 + 40 * i) 8.
Definition journal_size (c : bytes) (i : nat) : Z := field c (36 + 40 * i + 8) 4.
Definition journal_pts (c : bytes) (i : nat) : Z := i64 (field c (36 + 40 * i + 16) 8).
Definition journal_dts (c : bytes) (i : nat) : Z := i64 (field c (36 + 40 * i + 24) 8).
Definition journal_keyframe (c : bytes) (i : nat) : Z := field c (36 + 40 * i + 32) 1.
Definition journal_track (c : bytes) (i : nat) : Z := field c (36 + 40 * i + 33) 1.

(** The track, the time stamp and the key frame flag a call hands over. *)
Definition call_track (c : Call) : Z :=
  match c with
  | WriteVideo _ _ _ _ _ => 0
  | WriteAudio _ _ _ _ => 1
  end.

Definition call_pts (c : Call) : Z :=
  match c with
  | WriteVideo _ pts _ _ _ => pts
  | WriteAudio _ pts _ _ => pts
  end.

Definition call_keyframe (c : Call) : Z :=
  match c with
  | WriteVideo _ _ key _ _ => if key then 1 else 0
  | WriteAudio _ _ _ _ => 1
  end.

(** An open session whose write calls have all succeeded so far, whatever
    the recorder holds in its frame lists: [session] without the lists. *)
Record journaling (path : string) (cfg : RecorderConfig) (journal : list FrameInfo)
    (payload : bytes) (m : Machine) : Prop := {
  j_recording : recording_ (rec m) = true;
  j_mp4_name : mp4_filename_ (rec m) = path;
  j_idx_name : idx_filename_ (rec m) = idx_name path;
  j_lock_name : lock_filename_ (rec m) = lock_name path;
  j_config : config_ (rec m) = cfg;
  j_mdat_start : mdat_start_ (rec m) = 40;
  j_mp4 : files (disk m) !! path = Some (ftyp ++ mdat_header ++ payload);
  j_mp4_file : mp4_file_ (rec m)
               = Some (mkFile path (len (ftyp ++ mdat_header ++ payload)) false);
  j_idx : files (disk m) !! idx_name path = Some (journal_bytes cfg journal);
  j_idx_file : idx_file_ (rec m)
               = Some (mkFile (idx_name path) (len (journal_bytes cfg journal)) false);
  j_mdat_size : mdat_size_ (rec m) = u64 (len payload)
}.

(** The states of an open session on [path]: the state a successful
    [start] leaves, and every state a write call or [setH264Config],
    whatever it returns and whatever the host refuses, leads on to. *)
Inductive open_session (path : string) : Machine -> Prop :=
| open_start (m0 : Machine) (cfg : RecorderConfig) (now : Z) (m : Machine) :
    start path cfg now m0 = (Some tt, m) -> open_session path m
| open_call (m : Machine) (c : Call) :
    open_session path m -> open_session path (after (run_call c) m)
| open_config (m : Machine) (sps pps : bytes) :
    open_session path m -> open_session path (after (setH264Config sps pps) m).

(** What all these states have in common: the recorder is recording under
    the names of [path], the MP4 file starts with the two headers, the
    journal is there, each handle stands at the end of its file, and the
    running payload size is a [uint64_t]. *)
Record opened (path : string) (m : Machine) : Prop := {
  o_recording : recording_ (rec m) = true;
  o_mp4_name : mp4_filename_ (rec m) = path;
  o_idx_name : idx_filename_ (rec m) = idx_name path;
  o_lock_name : lock_filename_ (rec m) = lock_name path;
  o_mdat_start : mdat_start_ (rec m) = 40;
  o_mp4 : exists c, files (disk m) !! path = Some (ftyp ++ mdat_header ++ c)
                    /\ mp4_file_ (rec m)
                       = Some (mkFile path (len (ftyp ++ mdat_header ++ c)) false);
  o_idx : exists c, files (disk m) !! idx_name path = Some c
                    /\ idx_file_ (rec m) = Some (mkFile (idx_name path) (len c) false);
  o_mdat_size : 0 <= mdat_size_ (rec m) < 2 ^ 64
}.

(** The frame lists after a record of [frame] has been taken in. *)
Definition listed (frame : FrameInfo) (r r' : Recorder) : Prop :=
  video_frames_ r' = video_frames_ r ++ (if is_video frame then [frame] else [])
  /\ audio_frames_ r' = audio_frames_ r ++ (if is_audio frame then [frame] else []).

(** * Properties *)

(** ** Integers and bytes *)

Lemma u32_u64 x : u32 (u64 x) = u32 x.
Proof.
  unfold u32, u64. rewrite Z.mod_mod_divide; [reflexivity|].
  exists (2 ^ 32). reflexivity.
Qed.

Lemma u32_small x : 0 <= x <= UINT32_MAX -> u32 x = x.
Proof. unfold u32, UINT32_MAX. intros. apply Z.mod_small. lia. Qed.

Lemma u64_range x : 0 <= u64 x < 2 ^ 64.
Proof. unfold u64. apply Z.mod_pos_bound. lia. Qed.

Lemma Returned_inj {A} (a b : A) : Returned a = Returned b -> a = b.
Proof. by intros [= ->]. Qed.

Lemma u64_small x : 0 <= x < 2 ^ 64 -> u64 x = x.
Proof. unfold u64. intros. apply Z.mod_small. lia. Qed.

Lemma len_app {A} (l k : list A) : len (l ++ k) = len l + len k.
Proof. unfold len. rewrite length_app. lia. Qed.

Lemma len_nonneg {A} (l : list A) : 0 <= len l.
Proof. unfold len. lia. Qed.

Lemma len_nil_iff {A} (l : list A) : len l = 0 <-> l = [].
Proof. unfold len. destruct l; cbn; split; intros; try congruence; try lia. Qed.

(** A 32-bit value survives the big-endian writer and reader. *)
Lemma readBE32_writeUint32BE v :
  0 <= v <= UINT32_MAX -> readBE32 (writeUint32BE v) = v.
Proof.
  intros Hv. unfold writeUint32BE. rewrite (u32_small v Hv).
  unfold readBE32, byte_at.
  change (Z.to_nat 0) with 0%nat; change (Z.to_nat 1) with 1%nat;
  change (Z.to_nat 2) with 2%nat; change (Z.to_nat 3) with 3%nat. cbn [nth].
  change 0xFF with (Z.ones 8).
  apply Z.bits_inj'. intros n Hn.
  rewrite !Z.lor_spec. rewrite !Z.shiftl_spec by lia. rewrite !Z.land_spec.
  assert (Hhi : forall k, 32 <= k -> Z.testbit v k = false).
  { intros k Hk. destruct (Z.eq_dec v 0) as [->|Hne]; [apply Z.bits_0|].
    apply Z.bits_above_log2; [lia|].
    assert (Z.log2 v < 32); [|lia].
    apply Z.log2_lt_pow2; unfold UINT32_MAX in Hv; lia. }
  assert (Hneg : forall a k, k < 0 -> Z.testbit a k = false)
    by (intros; apply Z.testbit_neg_r; lia).
  assert (Hsr : forall s k, 0 <= s -> Z.testbit (Z.shiftr v s) k =
            if Z.ltb k 0 then false else Z.testbit v (k + s)).
  { intros s k Hs. destruct (Z.ltb_spec k 0); [apply Hneg; lia|].
    apply Z.shiftr_spec; lia. }
  assert (Hones : forall k, Z.testbit (Z.ones 8) k = (0 <=? k) && (k <? 8)).
  { intros k. destruct (Z.leb_spec 0 k), (Z.ltb_spec k 8); cbn.
    - apply Z.ones_spec_low; lia.
    - apply Z.ones_spec_high; lia.
    - apply Hneg; lia.
    - apply Hneg; lia. }
  rewrite !Hsr by lia. rewrite !Hones.
  destruct (Z_lt_dec n 8); [|destruct (Z_lt_dec n 16);
    [|destruct (Z_lt_dec n 24); [|destruct (Z_lt_dec n 32)]]].
  all: repeat match goal with
    | |- context [?a <? ?b] => destruct (Z.ltb_spec a b); try lia
    | |- context [?a <=? ?b] => destruct (Z.leb_spec a b); try lia
    end; cbn [andb orb];
    rewrite ?andb_false_r, ?andb_true_r, ?orb_false_r, ?orb_false_l.
  all: try (f_equal; lia).
  symmetry. apply Hhi. lia.
Qed.

Lemma writeUint32BE_u64 x : writeUint32BE (u64 x) = writeUint32BE x.
Proof. unfold writeUint32BE. rewrite u32_u64. reflexivity. Qed.

(** ** Incomplete recordings *)

(** C7: [hasIncompleteRecording (path)] is true exactly when both sidecar
    files, [path.lock] and [path.idx], exist. *)
Theorem hasIncompleteRecording_iff_both_sidecars (w : World) (path : string) :
  hasIncompleteRecording w path = true
  <-> is_Some (files w !! (path +:+ ".lock")) /\ is_Some (files w !! (path +:+ ".idx")).
Proof.
  unfold hasIncompleteRecording, fs_exists, lock_name, idx_name.
  rewrite andb_true_iff.
  destruct (files w !! (path +:+ ".lock")), (files w !! (path +:+ ".idx"));
    split; intros [H1 H2]; split; eauto;
    try discriminate; try (by inversion H1); try (by inversion H2).
Qed.

(** ** Chunk offsets *)


Lemma stco_entries_values frames mdat_start tl :
  stco_entries frames mdat_start = Some tl ->
  tl = flat_map (fun f => writeUint32BE (mdat_start + offset f)) frames
  /\ Forall (fun f => chunk_offset_64 mdat_start f <= UINT32_MAX) frames.
Proof.
  revert tl. induction frames as [|f rest IH]; cbn [stco_entries flat_map]; intros tl H.
  - by inversion H.
  - destruct (Z.ltb_spec UINT32_MAX (chunk_offset_64 mdat_start f)) as [Hov|Hok];
      [discriminate|].
    destruct (stco_entries rest mdat_start) as [tl'|]; [|discriminate].
    destruct (IH tl' eq_refl) as [-> HF]. injection H as <-.
    split; [|by constructor].
    unfold chunk_offset_64, writeUint32BE. rewrite u32_u64. reflexivity.
Qed.


Lemma buildTrak_killed frames track codec w h asr ach sps pps mdat_start :
  buildTrak frames track 0 codec w h asr ach sps pps mdat_start = Killed.
Proof. reflexivity. Qed.

(** The words of a table of 32-bit entries, read back one by one. *)
Lemma drop_flat_map_words {A} (g : A -> Z) (l : list A) : forall i x,
  l !! i = Some x ->
  drop (4 * i) (flat_map (fun a => writeUint32BE (g a)) l)
  = writeUint32BE (g x) ++ flat_map (fun a => writeUint32BE (g a)) (drop (S i) l).
Proof.
  induction l as [|a l IH]; intros i x H; [destruct i; discriminate|].
  destruct i as [|i].
  - injection H as ->. reflexivity.
  - change ((a :: l) !! S i) with (l !! i) in H.
    cbn [flat_map]. replace (4 * S i)%nat with (4 + 4 * i)%nat by lia.
    rewrite <- drop_drop. rewrite drop_app_length' by reflexivity.
    by apply IH.
Qed.





(** ** Time-to-sample entries *)

Lemma loop_durations_split frames d :
  frames <> [] -> loop_durations_of frames d = pts_deltas frames ++ [d].
Proof.
  induction frames as [|f rest IH]; [done|]. intros _.
  destruct rest as [|g rest']; [reflexivity|].
  change (loop_durations_of (f :: g :: rest') d)
    with (u32 (pts g - pts f) :: loop_durations_of (g :: rest') d).
  change (pts_deltas (f :: g :: rest'))
    with (u32 (pts g - pts f) :: pts_deltas (g :: rest')).
  rewrite IH by discriminate. reflexivity.
Qed.

Lemma stts_loop_rle frames d : forall entries cd cc,
  0 < cc -> cc + len frames < 2 ^ 32 ->
  let '(e, cd', cc') := stts_loop frames d entries cd cc in
  0 < cc' /\ e ++ [(cc', cd')] = entries ++ rle_go cd cc (loop_durations_of frames d).
Proof.
  induction frames as [|f rest IH]; intros entries cd cc Hcc Hlen.
  - cbn. done.
  - assert (Hl : len (f :: rest) = len rest + 1) by (unfold len; cbn; lia).
    rewrite Hl in Hlen. pose proof (len_nonneg rest) as Hr.
    change (2 ^ 32) with 4294967296 in Hlen.
    set (duration := match rest with
                     | [] => d
                     | g :: _ => u32 (pts g - pts f)
                     end).
    assert (Hd : loop_durations_of (f :: rest) d = duration :: loop_durations_of rest d).
    { destruct rest; reflexivity. }
    rewrite Hd. cbn [stts_loop rle_go]. fold duration.
    assert (Hz : (cc =? 0) = false) by (apply Z.eqb_neq; lia). rewrite Hz, orb_false_r.
    destruct (Z.eqb_spec duration cd) as [->|Hne].
    + assert (Hu : u32 (cc + 1) = cc + 1) by (apply u32_small; unfold UINT32_MAX; lia).
      rewrite Hu. apply IH; [lia | change (2 ^ 32) with 4294967296; lia].
    + specialize (IH (entries ++ [(cc, cd)]) duration 1).
      destruct (stts_loop rest d (entries ++ [(cc, cd)]) duration 1) as [[e cd'] cc'].
      destruct IH as [? ->]; [lia | change (2 ^ 32) with 4294967296; lia |].
      split; [done|]. by rewrite <- app_assoc.
Qed.

Lemma last_pts_delta frames d :
  (2 <= length frames)%nat ->
  List.last (pts_deltas frames) d
  = u32 (pts (at_index frames (length frames - 1))
         - pts (at_index frames (length frames - 2))).
Proof.
  induction frames as [|f rest IH]; [cbn; lia|]. intros Hlen.
  destruct rest as [|g rest']; [cbn in Hlen; lia|].
  destruct rest' as [|h rest''].
  - reflexivity.
  - change (pts_deltas (f :: g :: h :: rest''))
      with (u32 (pts g - pts f) :: pts_deltas (g :: h :: rest'')).
    change (pts_deltas (g :: h :: rest''))
      with (u32 (pts h - pts g) :: pts_deltas (h :: rest'')) in *.
    cbn [List.last]. cbn [List.last] in IH. rewrite IH by (cbn; lia).
    cbn [length]. replace (S (S (S (length rest''))) - 1)%nat
      with (S (S (S (length rest'')) - 1)) by lia.
    replace (S (S (S (length rest''))) - 2)%nat
      with (S (S (S (length rest'')) - 2)) by lia.
    reflexivity.
Qed.

Lemma pts_deltas_short frames : (length frames < 2)%nat -> pts_deltas frames = [].
Proof. destruct frames as [|f [|g r]]; cbn; intros; try reflexivity; lia. Qed.

Lemma stts_default_duration_max codec timescale :
  stts_default_duration codec timescale
  = if String.eqb codec "mp4a" then 1024 else Z.max (timescale / 30) 1.
Proof.
  unfold stts_default_duration. destruct (String.eqb codec "mp4a"); [reflexivity|].
  destruct (Z.leb_spec 30 timescale).
  - assert (1 <= timescale / 30) by (apply Z.div_le_lower_bound; lia). lia.
  - assert (timescale / 30 < 1) by (apply Z.div_lt_upper_bound; lia). lia.
Qed.

(** C3, as the builder has it: the entries of [stts] are the run-length
    encoding of the successive PTS deltas followed by the final sample's
    duration, and that duration is the previous delta whenever the track,
    audio or video, has two samples or more; a single sample gets 1024 on an
    audio track and [max (timescale / 30, 1)] on a video track. *)
Theorem stts_entries_run_length_encode_durations
    (codec : string) (timescale : Z) (frames : list FrameInfo) :
  frames <> [] ->
  len frames < 2 ^ 32 ->
  stts_entries frames (stts_default_duration codec timescale)
  = rle (pts_deltas frames ++ [final_duration codec timescale frames])
  /\ final_duration codec timescale frames
     = (if (2 <=? len frames)
        then u32 (pts (at_index frames (length frames - 1))
                  - pts (at_index frames (length frames - 2)))
        else if String.eqb codec "mp4a" then 1024 else Z.max (timescale / 30) 1).
Proof.
  intros Hne Hlen.
  assert (Hfinal : final_duration codec timescale frames
     = (if (2 <=? len frames)
        then u32 (pts (at_index frames (length frames - 1))
                  - pts (at_index frames (length frames - 2)))
        else if String.eqb codec "mp4a" then 1024 else Z.max (timescale / 30) 1)).
  { unfold final_duration. destruct (Z.leb_spec 2 (len frames)) as [H2|H2]; unfold len in H2.
    - apply last_pts_delta. lia.
    - rewrite pts_deltas_short by lia. reflexivity. }
  split; [|exact Hfinal].
  unfold stts_entries. rewrite <- stts_default_duration_max in Hfinal. rewrite <- Hfinal.
  set (d := final_duration codec timescale frames).
  rewrite <- (loop_durations_split frames d Hne).
  destruct frames as [|f rest]; [done|].
  assert (Hl : len (f :: rest) = len rest + 1) by (unfold len; cbn; lia).
  set (duration := match rest with
                   | [] => d
                   | g :: _ => u32 (pts g - pts f)
                   end).
  assert (Hd : loop_durations_of (f :: rest) d = duration :: loop_durations_of rest d).
  { destruct rest; reflexivity. }
  rewrite Hd. cbn [stts_loop rle]. fold duration.
  change (0 =? 0) with true. rewrite orb_true_r. change (u32 (0 + 1)) with 1.
  pose proof (stts_loop_rle rest d [] duration 1) as Hloop.
  destruct (stts_loop rest d [] duration 1) as [[e cd'] cc'].
  destruct Hloop as [Hpos ->]; [lia | change (2 ^ 32) with 4294967296 in *; lia |].
  assert (Hp : (0 <? cc') = true) by (apply Z.ltb_lt; lia).
  rewrite Hp. reflexivity.
Qed.

Lemma stts_entries_run_length_encode_durations_witness :
  stts_entries [mkFrame 0 200 0 0 1 1 (zeros 10); mkFrame 200 200 1000 1000 1 1 (zeros 10)]
               (stts_default_duration "mp4a" 48000)
  = [(2, 1000)].
Proof.
  pose proof (stts_entries_run_length_encode_durations "mp4a" 48000
                [mkFrame 0 200 0 0 1 1 (zeros 10); mkFrame 200 200 1000 1000 1 1 (zeros 10)]) as H.
  destruct H as [H _]; [discriminate | reflexivity |].
  rewrite H. reflexivity.
Defined.

(** On an audio track with two samples 1000 ticks apart the final sample
    gets 1000, not the 1024 the specification words ask for. *)
Lemma stts_audio_final_sample_not_1024 :
  let frames := [mkFrame 0 200 0 0 1 1 (zeros 10); mkFrame 200 200 1000 1000 1 1 (zeros 10)] in
  stts_entries frames (stts_default_duration "mp4a" 48000)
  <> rle (pts_deltas frames ++ [final_duration_specified "mp4a" 48000 frames]).
Proof. vm_compute. discriminate. Qed.

(** ** The movie header *)

(** Without video frames the movie header carries a zero duration, whatever
    the audio track holds. *)
Lemma mvhd_duration_without_video audio ats asr ach w h sps pps mdat_start moov :
  buildMoov [] audio 30000 ats asr ach w h sps pps mdat_start = Returned (Some moov) ->
  mvhd_version moov = 0 /\ mvhd_timescale moov = 1000 /\ mvhd_duration moov = 0.
Proof.
  unfold buildMoov. cbn [buildMvhd].
  destruct audio as [|a audio'].
  - intros H. injection H as <-. vm_compute. done.
  - destruct (buildTrak (a :: audio') 2 ats "mp4a" 0 0 asr ach [] [] mdat_start)
      as [[trak|]|]; [|discriminate..].
    intros H. injection H as <-.
    unfold mvhd_version, mvhd_timescale, mvhd_duration. done.
Qed.

(** C4, at a session of two audio samples one second apart and no video:
    the audio track lasts 1000 ms, the movie header says 0. *)
Theorem mvhd_duration_audio_only_is_zero :
  let audio := [mkFrame 0 200 0 0 1 1 (zeros 10); mkFrame 200 200 48000 48000 1 1 (zeros 10)] in
  exists moov,
    buildMoov [] audio 30000 48000 48000 2 640 480 [] [] 40 = Returned (Some moov)
    /\ mvhd_version moov = 0
    /\ mvhd_timescale moov = 1000
    /\ mvhd_duration moov = 0
    /\ duration_ms audio 48000 = Returned 1000.
Proof.
  intros audio.
  destruct (buildMoov [] audio 30000 48000 48000 2 640 480 [] [] 40) as [[moov|]|] eqn:E;
    [|vm_compute in E; discriminate..].
  exists moov. destruct (mvhd_duration_without_video _ _ _ _ _ _ _ _ _ _ E) as (?&?&?).
  repeat split; try done.
Qed.

(** ** The monad, step by step *)

Lemma bind_this {A} (k : Recorder -> Op Machine A) (m : Machine) :
  (this ≫= k) m = k (rec m) m.
Proof. reflexivity. Qed.

Lemma bind_assign {A} (f : Recorder -> Recorder) (k : unit -> Op Machine A) (m : Machine) :
  (assign f ≫= k) m = k tt (mkMachine (f (rec m)) (disk m)).
Proof. reflexivity. Qed.

Lemma bind_guard_true {S A} (k : unit -> Op S A) : (guard true ≫= k) = k tt.
Proof. reflexivity. Qed.

Lemma bind_guard_false {S A} (k : unit -> Op S A) (s : S) : (guard false ≫= k) s = (None, s).
Proof. reflexivity. Qed.

Lemma bind_ret {S A B} (a : A) (k : A -> Op S B) : (mret a ≫= k) = k a.
Proof. reflexivity. Qed.

Lemma bind_run {S A B} (c : Op S A) (k : A -> Op S B) (s : S) :
  (c ≫= k) s = match c s with
               | (Some a, s') => k a s'
               | (None, s') => (None, s')
               end.
Proof. reflexivity. Qed.

(** ** The recording flag *)

Lemma keeps_ret {A} (a : A) : keeps_flag (mret a).
Proof. intros m. reflexivity. Qed.

Lemma keeps_fail {A} : keeps_flag (@fail Machine A).
Proof. intros m. reflexivity. Qed.

Lemma keeps_guard b : keeps_flag (guard b).
Proof. intros m. destruct b; reflexivity. Qed.

Lemma keeps_this : keeps_flag this.
Proof. intros m. reflexivity. Qed.

Lemma keeps_io {A} (op : Op World A) : keeps_flag (io op).
Proof. intros m. unfold io. destruct (op (disk m)). reflexivity. Qed.

Lemma keeps_assign f :
  (forall r, recording_ (f r) = recording_ r) -> keeps_flag (assign f).
Proof. intros H m. cbn. apply H. Qed.

Lemma keeps_bind {A B} (c : Op Machine A) (k : A -> Op Machine B) :
  keeps_flag c -> (forall a, keeps_flag (k a)) -> keeps_flag (c ≫= k).
Proof.
  intros Hc Hk m. rewrite bind_run. specialize (Hc m).
  destruct (c m) as [[a|] m']; cbn in *; [|done].
  rewrite Hk. done.
Qed.

Ltac keeps :=
  repeat first
    [ assumption | progress cbv zeta | apply keeps_ret | apply keeps_fail
    | apply keeps_guard | apply keeps_this
    | apply keeps_io | apply keeps_assign; intros; reflexivity
    | apply keeps_bind; [|intros]
    | match goal with
      | |- keeps_flag (match ?x with _ => _ end) => destruct x
      | |- keeps_flag (if ?x then _ else _) => destruct x
      end ].

Lemma keeps_buildAndWriteMoov : keeps_flag buildAndWriteMoov.
Proof. unfold buildAndWriteMoov. keeps. Qed.

Lemma keeps_cleanupFiles : keeps_flag cleanupFiles.
Proof. unfold cleanupFiles. keeps. Qed.

Lemma stop_leaves_flag_clear (m : Machine) : recording_ (rec (snd (stop m))) = false.
Proof.
  unfold stop. rewrite bind_this.
  destruct (recording_ (rec m)) eqn:E.
  - rewrite bind_guard_true, bind_assign.
    match goal with
    | |- recording_ (rec (snd (?op ?m'))) = _ =>
        assert (K : keeps_flag op); [|rewrite (K m'); reflexivity]
    end.
    pose proof keeps_buildAndWriteMoov. pose proof keeps_cleanupFiles.
    keeps.
  - rewrite bind_guard_false. exact E.
Qed.

Lemma stop_rejected_when_not_recording (m : Machine) :
  recording_ (rec m) = false -> stop m = (None, m).
Proof.
  intros E. unfold stop. rewrite bind_this, E. apply bind_guard_false.
Qed.

(** C10: whatever the outcome of [stop] on a recording recorder, the
    recorder is not recording afterwards; a second [stop] is rejected and
    changes nothing. *)
Theorem stop_always_clears_recording (m : Machine) :
  isRecording m = true ->
  isRecording (after stop m) = false
  /\ returns stop (after stop m) = false
  /\ after stop (after stop m) = after stop m.
Proof.
  intros _. unfold isRecording, after, returns.
  pose proof (stop_leaves_flag_clear m) as H.
  rewrite (stop_rejected_when_not_recording _ H). done.
Qed.

Lemma stop_always_clears_recording_witness :
  let m := after (start "out.mp4" default_config 0) (fresh empty_disk) in
  isRecording m = true /\ isRecording (after stop m) = false.
Proof.
  intros m. assert (H : isRecording m = true) by (vm_compute; reflexivity).
  split; [exact H|]. exact (proj1 (stop_always_clears_recording m H)).
Defined.

(** ** Paths *)

Lemma string_app_nil_r (s : string) : s +:+ "" = s.
Proof.
  induction s as [|a s IH]; [reflexivity|].
  change (String a (s +:+ "") = String a s). by rewrite IH.
Qed.

Lemma app_suffix_ne (path sfx : string) : sfx <> ""%string -> path <> path +:+ sfx.
Proof.
  intros Hs H. rewrite <- (string_app_nil_r path) in H at 1.
  apply (inj (String.app path)) in H. congruence.
Qed.

Lemma path_ne_idx path : path <> idx_name path.
Proof. apply app_suffix_ne. discriminate. Qed.

Lemma path_ne_lock path : path <> lock_name path.
Proof. apply app_suffix_ne. discriminate. Qed.

Lemma idx_ne_lock path : idx_name path <> lock_name path.
Proof. unfold idx_name, lock_name. intros H. apply (inj (String.app path)) in H. discriminate. Qed.

(** ** The stdio primitives, one call at a time *)

Lemma run_io {A B} (op : Op World A) (k : A -> Op Machine B) (m : Machine) :
  (io op ≫= k) m
  = match op (disk m) with
    | (Some a, w) => k a (mkMachine (rec m) w)
    | (None, w) => (None, mkMachine (rec m) w)
    end.
Proof. rewrite bind_run. unfold io. destruct (op (disk m)) as [[a|] w]; reflexivity. Qed.

Lemma fs_open_run path mode fs flts :
  fs_open path mode (mkWorld fs flts)
  = let rest := snd (pop flts) in
    match fst (pop flts) with
    | Some _ => (Some None, mkWorld fs rest)
    | None =>
        match mode with
        | Mode_wb => (Some (Some (mkFile path 0 false)), mkWorld (<[path := []]> fs) rest)
        | Mode_rb | Mode_rpb =>
            match fs !! path with
            | Some _ => (Some (Some (mkFile path 0 false)), mkWorld fs rest)
            | None => (Some None, mkWorld fs rest)
            end
        | Mode_ab =>
            match fs !! path with
            | Some _ => (Some (Some (mkFile path 0 true)), mkWorld fs rest)
            | None => (Some (Some (mkFile path 0 true)), mkWorld (<[path := []]> fs) rest)
            end
        end
    end.
Proof.
  destruct flts as [|[k|] rest]; destruct mode; destruct (fs !! path) eqn:E;
    unfold fs_open, mbind, op_bind, get, put, mret, op_ret, next_fault; cbn;
    rewrite ?E; reflexivity.
Qed.

Lemma file_write_nil f w : file_write f [] w = (Some (0, f), w).
Proof. reflexivity. Qed.

Lemma file_write_run f data fs flts c :
  fs !! f_path f = Some c -> data <> [] ->
  file_write f data (mkWorld fs flts)
  = let n := match fst (pop flts) with
             | None => len data
             | Some k => Z.max 0 (Z.min k (len data - 1))
             end in
    let pos := if f_append f then len c else f_pos f in
    (Some (n, mkFile (f_path f) (pos + n) (f_append f)),
     mkWorld (<[f_path f := write_at c pos (take (Z.to_nat n) data)]> fs) (snd (pop flts))).
Proof.
  intros Hc Hd. unfold file_write.
  assert (Hz : (len data =? 0) = false).
  { apply Z.eqb_neq. rewrite len_nil_iff. done. }
  rewrite Hz. destruct flts as [|[k|] rest];
    unfold mbind, op_bind, get, put, mret, op_ret, next_fault; cbn; rewrite Hc; reflexivity.
Qed.

Lemma file_seek_run f off origin fs flts :
  file_seek f off origin (mkWorld fs flts)
  = let target := match origin with
                  | SEEK_SET => off
                  | SEEK_END => len (default [] (fs !! f_path f)) + off
                  end in
    (Some (match fst (pop flts) with
           | Some _ => (false, f)
           | None => if target <? 0 then (false, f)
                     else (true, mkFile (f_path f) target (f_append f))
           end), mkWorld fs (snd (pop flts))).
Proof.
  destruct flts as [|[k|] rest];
    unfold file_seek, mbind, op_bind, get, put, mret, op_ret, next_fault, contents; cbn;
    try reflexivity;
    match goal with |- context [?a <? 0] => destruct (a <? 0) end; reflexivity.
Qed.

Lemma file_flush_run f fs flts :
  file_flush f (mkWorld fs flts)
  = (Some (match fst (pop flts) with None => true | Some _ => false end),
     mkWorld fs (snd (pop flts))).
Proof. destruct flts as [|[k|] rest]; reflexivity. Qed.

Lemma file_sync_run f fs flts :
  file_sync f (mkWorld fs flts)
  = (Some (match fst (pop flts) with None => true | Some _ => false end),
     mkWorld fs (snd (pop flts))).
Proof. destruct flts as [|[k|] rest]; reflexivity. Qed.

Lemma fs_remove_run path fs flts :
  fs_remove path (mkWorld fs flts)
  = match fst (pop flts), fs !! path with
    | None, Some _ => (Some true, mkWorld (delete path fs) (snd (pop flts)))
    | _, _ => (Some false, mkWorld fs (snd (pop flts)))
    end.
Proof.
  destruct flts as [|[k|] rest]; destruct (fs !! path) eqn:E;
    unfold fs_remove, mbind, op_bind, get, put, mret, op_ret, next_fault; cbn;
    rewrite ?E; reflexivity.
Qed.

Lemma fs_getFileSize_run path fs flts :
  fs_getFileSize path (mkWorld fs flts)
  = (Some (match fst (pop flts), fs !! path with
           | None, Some c => Some (len c)
           | _, _ => None
           end), mkWorld fs (snd (pop flts))).
Proof.
  destruct flts as [|[k|] rest]; destruct (fs !! path) eqn:E;
    unfold fs_getFileSize, mbind, op_bind, get, put, mret, op_ret, next_fault; cbn;
    rewrite ?E; reflexivity.
Qed.

Lemma file_read_run f n w :
  file_read f n w
  = let got := if n =? 0 then []
               else take (Z.to_nat n) (drop (Z.to_nat (f_pos f)) (contents w (f_path f))) in
    (Some (got, mkFile (f_path f) (f_pos f + len got) (f_append f)), w).
Proof.
  unfold file_read. destruct (n =? 0); cbn; [|reflexivity].
  destruct f. cbn. rewrite Z.add_0_r. reflexivity.
Qed.

Lemma write_at_end c data : write_at c (len c) data = c ++ data.
Proof.
  unfold write_at, len. rewrite Nat2Z.id.
  rewrite firstn_all, Nat.sub_diag. cbn.
  rewrite drop_ge by lia. by rewrite app_nil_r.
Qed.

Lemma take_len {A} (l : list A) : take (Z.to_nat (len l)) l = l.
Proof. unfold len. rewrite Nat2Z.id. apply firstn_all. Qed.

Lemma short_write k n : 0 < n -> (Z.max 0 (Z.min k (n - 1)) =? n) = false.
Proof. intros. apply Z.eqb_neq. lia. Qed.

Lemma len_ftyp : len ftyp = 32. Proof. reflexivity. Qed.
Lemma len_mdat_header : len mdat_header = 8. Proof. reflexivity. Qed.
Lemma len_encodeConfig c : len (encodeConfig c) = 32.
Proof. unfold encodeConfig, len. by rewrite !length_app, length_resize. Qed.
Lemma len_encodeFrame f : len (encodeFrame f) = 40.
Proof. unfold encodeFrame, len. by rewrite !length_app, !length_resize. Qed.

Lemma eqb_len_encodeFrame f : (len (encodeFrame f) =? sizeof_FrameInfo) = true.
Proof. by rewrite len_encodeFrame. Qed.

Lemma eqb_len_encodeConfig c : (len (encodeConfig c) =? sizeof_RecorderConfig) = true.
Proof. by rewrite len_encodeConfig. Qed.

(** ** Big-endian accessors *)

Lemma lor_shiftl_add hi lo k :
  0 <= k -> 0 <= lo < 2 ^ k -> Z.lor (Z.shiftl hi k) lo = hi * 2 ^ k + lo.
Proof.
  intros Hk Hlo.
  pose proof (Z.add_lor_land (Z.shiftl hi k) lo) as H.
  assert (Hz : Z.land (Z.shiftl hi k) lo = 0).
  { apply Z.bits_inj'. intros n Hn. rewrite Z.land_spec, Z.bits_0.
    destruct (Z.ltb_spec n k).
    - rewrite Z.shiftl_spec_low by lia. reflexivity.
    - destruct (Z.eq_dec lo 0) as [->|Hne]; [by rewrite Z.bits_0, andb_false_r|].
      rewrite (Z.bits_above_log2 lo n); [apply andb_false_r|lia|].
      apply Z.lt_le_trans with k; [|lia]. apply Z.log2_lt_pow2; lia. }
  rewrite Hz, Z.add_0_r in H. rewrite H. rewrite Z.shiftl_mul_pow2 by lia. reflexivity.
Qed.

Lemma land_ff x : Z.land x 0xFF = x mod 256.
Proof. change 0xFF with (Z.ones 8). rewrite Z.land_ones by lia. reflexivity. Qed.

Lemma lor_add_disjoint x lo k :
  0 <= k -> 0 <= lo < 2 ^ k -> x mod 2 ^ k = 0 -> Z.lor x lo = x + lo.
Proof.
  intros Hk Hlo Hx.
  assert (H2 : 0 < 2 ^ k) by (apply Z.pow_pos_nonneg; lia).
  pose proof (Z.div_mod x (2 ^ k) ltac:(lia)) as Hdm. rewrite Hx, Z.add_0_r in Hdm.
  rewrite Hdm at 1. rewrite Z.mul_comm, <- Z.shiftl_mul_pow2 by lia.
  rewrite lor_shiftl_add by lia. lia.
Qed.

Lemma readBE32_value a b c d rest :
  0 <= a < 256 -> 0 <= b < 256 -> 0 <= c < 256 -> 0 <= d < 256 ->
  readBE32 (a :: b :: c :: d :: rest) = a * 2 ^ 24 + b * 2 ^ 16 + c * 2 ^ 8 + d.
Proof.
  intros Ha Hb Hc Hd. unfold readBE32, byte_at.
  change (Z.to_nat 0) with 0%nat; change (Z.to_nat 1) with 1%nat;
  change (Z.to_nat 2) with 2%nat; change (Z.to_nat 3) with 3%nat. cbn [nth].
  rewrite !Z.shiftl_mul_pow2 by lia.
  change (2 ^ 24) with 16777216. change (2 ^ 16) with 65536. change (2 ^ 8) with 256.
  rewrite (lor_add_disjoint (a * 16777216) (b * 65536) 24); try lia;
    [|change (2 ^ 24) with 16777216; apply Z_mod_mult].
  rewrite (lor_add_disjoint _ (c * 256) 16); try lia;
    [|replace (a * 16777216 + b * 65536) with ((a * 256 + b) * 2 ^ 16) by lia;
      apply Z_mod_mult].
  rewrite (lor_add_disjoint _ d 8); try lia.
  replace (a * 16777216 + b * 65536 + c * 256) with ((a * 65536 + b * 256 + c) * 2 ^ 8)
    by lia.
  apply Z_mod_mult.
Qed.

Lemma be32_digits v :
  0 <= v < 2 ^ 32 ->
  let a := Z.land (Z.shiftr v 24) 0xFF in
  let b := Z.land (Z.shiftr v 16) 0xFF in
  let c := Z.land (Z.shiftr v 8) 0xFF in
  let d := Z.land v 0xFF in
  (0 <= a < 256 /\ 0 <= b < 256 /\ 0 <= c < 256 /\ 0 <= d < 256)
  /\ a * 2 ^ 24 + b * 2 ^ 16 + c * 2 ^ 8 + d = v.
Proof.
  intros Hv. cbv zeta. rewrite !land_ff, !Z.shiftr_div_pow2 by lia.
  change (2 ^ 24) with 16777216. change (2 ^ 16) with 65536. change (2 ^ 8) with 256.
  change (2 ^ 32) with 4294967296 in Hv.
  split; [repeat split; apply Z.mod_pos_bound; lia|].
  pose proof (Z.div_mod v 256 ltac:(lia)).
  pose proof (Z.div_mod (v / 256) 256 ltac:(lia)).
  pose proof (Z.div_mod (v / 256 / 256) 256 ltac:(lia)).
  rewrite !Z.div_div in * by lia.
  change (256 * 256) with 65536 in *. change (65536 * 256) with 16777216 in *.
  assert (v / 16777216 < 256) by (apply Z.div_lt_upper_bound; lia).
  assert (0 <= v / 16777216) by (apply Z.div_pos; lia).
  rewrite (Z.mod_small (v / 16777216)) by lia.
  pose proof (Z.mod_pos_bound v 256 ltac:(lia)).
  pose proof (Z.mod_pos_bound (v / 256) 256 ltac:(lia)).
  pose proof (Z.mod_pos_bound (v / 65536) 256 ltac:(lia)).
  lia.
Qed.

Lemma u32_range x : 0 <= u32 x < 2 ^ 32.
Proof. unfold u32. apply Z.mod_pos_bound. lia. Qed.

Lemma u32_id x : 0 <= x < 2 ^ 32 -> u32 x = x.
Proof. intros. unfold u32. apply Z.mod_small. lia. Qed.

Lemma writeBE32_shape p v :
  4 <= len p ->
  writeBE32 p v = writeUint32BE v ++ drop 4 p.
Proof.
  unfold len. intros Hp.
  destruct p as [|a [|b [|c [|d rest]]]]; cbn [length] in Hp; try lia.
  reflexivity.
Qed.

Lemma readBE32_app4 x rest : length x = 4%nat -> readBE32 (x ++ rest) = readBE32 x.
Proof.
  intros Hx. destruct x as [|a [|b [|c [|d [|]]]]]; cbn in Hx; try lia. reflexivity.
Qed.

Lemma u32_idem x : u32 (u32 x) = u32 x.
Proof. apply u32_id, u32_range. Qed.

Lemma writeUint32BE_u32 v : writeUint32BE (u32 v) = writeUint32BE v.
Proof. unfold writeUint32BE. rewrite u32_idem. reflexivity. Qed.

Lemma readBE32_writeUint32BE_u32 v : readBE32 (writeUint32BE v) = u32 v.
Proof.
  rewrite <- writeUint32BE_u32. apply readBE32_writeUint32BE.
  pose proof (u32_range v). unfold UINT32_MAX. lia.
Qed.

(** X1: [writeBE32]/[readBE32] and [writeBE64]/[readBE64] are inverse on a
    buffer that has room for the value; [writeBE64] touches nothing beyond
    its eight bytes, and these are the eight bytes the moov builder's
    [writeUint64BE] appends. *)
Theorem readBE64_writeBE64_round_trip (p : bytes) (v : Z) :
  8 <= len p -> 0 <= v < 2 ^ 64 ->
  readBE64 (writeBE64 p v) = v
  /\ readBE32 (writeBE32 p v) = u32 v
  /\ drop 8 (writeBE64 p v) = drop 8 p
  /\ len (writeBE64 p v) = len p
  /\ take 8 (writeBE64 p v) = writeUint64BE v.
Proof.
  intros Hp Hv.
  assert (Hu : u64 v = v) by (apply u64_small; exact Hv).
  assert (Hshape : writeBE64 p v
                   = writeUint32BE (Z.shiftr v 32) ++ writeUint32BE v ++ drop 8 p).
  { unfold writeBE64. cbv zeta. rewrite Hu.
    rewrite (writeBE32_shape p) by lia.
    rewrite take_app_length' by reflexivity.
    rewrite drop_app_length' by reflexivity.
    rewrite writeBE32_shape.
    - rewrite drop_drop. rewrite !writeUint32BE_u32. reflexivity.
    - unfold len in *. rewrite length_drop. lia. }
  assert (Hhi : 0 <= Z.shiftr v 32 < 2 ^ 32).
  { rewrite Z.shiftr_div_pow2 by lia. split; [apply Z.div_pos; lia|].
    apply Z.div_lt_upper_bound; [lia|]. change (2 ^ 32 * 2 ^ 32) with (2 ^ 64). lia. }
  repeat split.
  - rewrite Hshape. unfold readBE64.
    rewrite readBE32_app4 by reflexivity.
    rewrite drop_app_length' by reflexivity.
    rewrite readBE32_app4 by reflexivity.
    rewrite !readBE32_writeUint32BE_u32.
    rewrite (u32_id (Z.shiftr v 32)) by exact Hhi.
    rewrite lor_shiftl_add by (pose proof (u32_range v); lia).
    unfold u32. rewrite Z.shiftr_div_pow2 by lia.
    pose proof (Z.div_mod v (2 ^ 32) ltac:(lia)). lia.
  - rewrite writeBE32_shape by lia. rewrite readBE32_app4 by reflexivity.
    apply readBE32_writeUint32BE_u32.
  - rewrite Hshape. rewrite app_assoc. rewrite drop_app_length' by reflexivity. reflexivity.
  - rewrite Hshape. unfold len in *. rewrite !length_app, length_drop.
    change (length (writeUint32BE (Z.shiftr v 32))) with 4%nat.
    change (length (writeUint32BE v)) with 4%nat. lia.
  - rewrite Hshape, app_assoc. rewrite take_app_length' by reflexivity.
    unfold writeUint64BE. cbv zeta. rewrite Hu, !writeUint32BE_u32. reflexivity.
Qed.

Lemma readBE64_writeBE64_round_trip_witness :
  readBE64 (writeBE64 (replicate 10 7) 0x0102030405060708) = 0x0102030405060708
  /\ readBE32 (writeBE32 (replicate 10 7) 0x0102030405060708) = 0x05060708
  /\ drop 8 (writeBE64 (replicate 10 7) 0x0102030405060708) = [7; 7]
  /\ len (writeBE64 (replicate 10 7) 0x0102030405060708) = 10
  /\ take 8 (writeBE64 (replicate 10 7) 0x0102030405060708)
     = writeUint64BE 0x0102030405060708.
Proof.
  apply (readBE64_writeBE64_round_trip (replicate 10 7) 0x0102030405060708);
    [vm_compute; discriminate | lia].
Defined.

(** ** Descriptor lengths, sample rates, log levels *)

Lemma below_128 (P : Z -> bool) :
  forallb P (map Z.of_nat (seq 0 128)) = true -> forall b, 0 <= b < 128 -> P b = true.
Proof.
  intros H b Hb. rewrite forallb_forall in H. apply H.
  apply in_map_iff. exists (Z.to_nat b). split; [lia|]. apply in_seq. lia.
Qed.

Lemma group_payload b : 0 <= b < 128 -> Z.land (Z.lor b 0x80) 0x7F = b.
Proof.
  intros Hb. apply Z.eqb_eq.
  apply (below_128 (fun b => Z.land (Z.lor b 0x80) 0x7F =? b)); [reflexivity|exact Hb].
Qed.

Lemma group_continues b : 0 <= b < 128 -> continues (Z.lor b 0x80) = true.
Proof. apply (below_128 (fun b => continues (Z.lor b 0x80))). reflexivity. Qed.

Lemma group_last b :
  0 <= b < 128 -> continues b = false /\ Z.land b 0x7F = b.
Proof.
  intros Hb. split.
  - apply negb_true_iff. apply (below_128 (fun b => negb (continues b))); [reflexivity|done].
  - apply Z.eqb_eq. apply (below_128 (fun b => Z.land b 0x7F =? b)); [reflexivity|done].
Qed.

Lemma group_range b : 0 <= b < 128 -> 0 <= Z.lor b 0x80 < 256.
Proof.
  intros Hb.
  assert (H : ((0 <=? Z.lor b 0x80) && (Z.lor b 0x80 <? 256)) = true)
    by (apply (below_128 (fun b => (0 <=? Z.lor b 0x80) && (Z.lor b 0x80 <? 256)));
        [reflexivity|done]).
  apply andb_true_iff in H. lia.
Qed.

Lemma groups_of_28_bits v :
  0 <= v < 2 ^ 28 ->
  let b0 := Z.land (Z.shiftr v 21) 0x7F in
  let b1 := Z.land (Z.shiftr v 14) 0x7F in
  let b2 := Z.land (Z.shiftr v 7) 0x7F in
  let b3 := Z.land v 0x7F in
  (0 <= b0 < 128 /\ 0 <= b1 < 128 /\ 0 <= b2 < 128 /\ 0 <= b3 < 128)
  /\ ((b0 * 128 + b1) * 128 + b2) * 128 + b3 = v.
Proof.
  intros Hv. cbv zeta. change 0x7F with (Z.ones 7).
  rewrite !Z.land_ones, !Z.shiftr_div_pow2 by lia.
  change (2 ^ 21) with 2097152. change (2 ^ 14) with 16384. change (2 ^ 7) with 128.
  change (2 ^ 28) with 268435456 in Hv.
  split; [repeat split; apply Z.mod_pos_bound; lia|].
  pose proof (Z.div_mod v 128 ltac:(lia)).
  pose proof (Z.div_mod (v / 128) 128 ltac:(lia)).
  pose proof (Z.div_mod (v / 128 / 128) 128 ltac:(lia)).
  rewrite !Z.div_div in * by lia.
  change (128 * 128) with 16384 in *. change (16384 * 128) with 2097152 in *.
  assert (v / 2097152 < 128) by (apply Z.div_lt_upper_bound; lia).
  assert (0 <= v / 2097152) by (apply Z.div_pos; lia).
  rewrite (Z.mod_small (v / 2097152)) by lia.
  pose proof (Z.mod_pos_bound v 128 ltac:(lia)).
  pose proof (Z.mod_pos_bound (v / 128) 128 ltac:(lia)).
  pose proof (Z.mod_pos_bound (v / 16384) 128 ltac:(lia)).
  lia.
Qed.

(** X2: [writeDescriptorLength] emits one to four bytes, every byte but the
    last flagged as continued, without a leading empty group, and a reader
    of the field gets the low 28 bits of the length back. *)
Theorem writeDescriptorLength_decodes (length : Z) :
  0 <= length < 2 ^ 32 ->
  let out := writeDescriptorLength length in
  descriptor_length out = length mod 2 ^ 28
  /\ 1 <= len out <= 4
  /\ Forall (fun x => 0 <= x < 256) out
  /\ map continues out = replicate (Nat.pred (List.length out)) true ++ [false]
  /\ (1 < len out -> Z.land (hd 0 out) 0x7F <> 0).
Proof.
  intros Hn. cbv zeta. unfold writeDescriptorLength.
  rewrite (u32_id length) by exact Hn.
  change 0x0FFFFFFF with (Z.ones 28). rewrite Z.land_ones by lia.
  set (v := length mod 2 ^ 28).
  assert (Hv : 0 <= v < 2 ^ 28) by (apply Z.mod_pos_bound; lia).
  destruct (groups_of_28_bits v Hv) as [(H0 & H1 & H2 & H3) Hsum].
  cbv zeta in *.
  set (b0 := Z.land (Z.shiftr v 21) 0x7F) in *.
  set (b1 := Z.land (Z.shiftr v 14) 0x7F) in *.
  set (b2 := Z.land (Z.shiftr v 7) 0x7F) in *.
  set (b3 := Z.land v 0x7F) in *.
  pose proof (group_range b0 H0). pose proof (group_range b1 H1).
  pose proof (group_range b2 H2).
  destruct (group_last b3 H3) as [Hc3 Hp3].
  destruct (Z.eqb_spec b0 0) as [E0|E0]; cbn [negb];
    [destruct (Z.eqb_spec b1 0) as [E1|E1]; cbn [negb];
      [destruct (Z.eqb_spec b2 0) as [E2|E2]; cbn [negb]|]|];
    cbn [drop descriptor_length fold_left map hd List.length Nat.pred replicate app];
    rewrite ?group_payload, ?group_continues, ?Hc3, ?Hp3 by assumption;
    (split; [lia|]); (split; [unfold len; cbn [List.length]; lia|]);
    (split; [repeat constructor; lia|]); (split; [reflexivity|]);
    unfold len; cbn [List.length]; lia.
Qed.

Lemma writeDescriptorLength_decodes_witness :
  descriptor_length (writeDescriptorLength 300) = 300 mod 2 ^ 28
  /\ 1 <= len (writeDescriptorLength 300) <= 4
  /\ Forall (fun x => 0 <= x < 256) (writeDescriptorLength 300)
  /\ map continues (writeDescriptorLength 300)
     = replicate (Nat.pred (List.length (writeDescriptorLength 300))) true ++ [false]
  /\ (1 < len (writeDescriptorLength 300)
      -> Z.land (hd 0 (writeDescriptorLength 300)) 0x7F <> 0).
Proof. apply (writeDescriptorLength_decodes 300). lia. Defined.

(** X3: the sample-rate table of the demo's ADTS reader and the index the
    builder writes into the AudioSpecificConfig agree: every table index
    comes back, a rate outside the table is written as 48000 Hz (index 3),
    and an index outside the table reads as rate 0. *)
Theorem getSampleRateIndex_inverts_getAdtsSampleRate (index rate : Z) :
  (0 <= index < 13 -> getSampleRateIndex (getAdtsSampleRate index) = index)
  /\ (13 <= index -> getAdtsSampleRate index = 0)
  /\ (In rate kSampleRates -> getAdtsSampleRate (getSampleRateIndex rate) = rate)
  /\ (~ In rate kSampleRates -> getSampleRateIndex rate = 3)
  /\ 0 <= getSampleRateIndex rate < 13.
Proof.
  repeat split.
  - intros Hi.
    assert (Hc : index = 0 \/ index = 1 \/ index = 2 \/ index = 3 \/ index = 4
                 \/ index = 5 \/ index = 6 \/ index = 7 \/ index = 8 \/ index = 9
                 \/ index = 10 \/ index = 11 \/ index = 12) by lia.
    repeat (destruct Hc as [->|Hc]; [reflexivity|]). subst. reflexivity.
  - intros Hi. unfold getAdtsSampleRate. change (len kSampleRates) with 13.
    destruct (Z.leb_spec 13 index); [reflexivity|lia].
  - intros Hin. cbn in Hin.
    repeat (destruct Hin as [<-|Hin]; [reflexivity|]). contradiction.
  - intros Hnot. unfold getSampleRateIndex.
    repeat match goal with
    | |- context [?a =? ?b] =>
        destruct (Z.eqb_spec a b) as [->|_]; [exfalso; apply Hnot; cbn; tauto|]
    end.
    reflexivity.
  - unfold getSampleRateIndex.
    repeat match goal with
    | |- context [?a =? ?b] => destruct (a =? b); [lia|]
    end. lia.
  - unfold getSampleRateIndex.
    repeat match goal with
    | |- context [?a =? ?b] => destruct (a =? b); [lia|]
    end. lia.
Qed.

Lemma getSampleRateIndex_inverts_getAdtsSampleRate_witness :
  getSampleRateIndex (getAdtsSampleRate 4) = 4 /\ getAdtsSampleRate 13 = 0
  /\ getAdtsSampleRate (getSampleRateIndex 22050) = 22050
  /\ getSampleRateIndex 44000 = 3.
Proof.
  destruct (getSampleRateIndex_inverts_getAdtsSampleRate 4 22050) as (H1 & _ & H3 & _).
  destruct (getSampleRateIndex_inverts_getAdtsSampleRate 13 44000) as (_ & H2 & _ & H4 & _).
  split; [apply H1; lia|]. split; [apply H2; lia|].
  split; [apply H3; cbn; tauto|]. apply H4. cbn. intros H.
  repeat (destruct H as [H|H]; [discriminate H|]). exact H.
Defined.

(** X4: the log filter.  A message goes out exactly when its severity is at
    least the threshold and the threshold is not [LS_NONE]; so [SILENT]
    silences every message (errors too), [ERROR] lets only errors through
    (and a message of severity [LS_NONE]), [INFO] drops only the
    verbose ones and [DEBUG] drops none. *)
Theorem SetLogLevel_thresholds (severity : LogSeverity) :
  ShouldLog (SetLogLevel SILENT) severity = false
  /\ ShouldLog (SetLogLevel DEBUG) severity = true
  /\ (ShouldLog (SetLogLevel ERROR) severity = true
      <-> severity = LS_ERROR \/ severity = LS_NONE)
  /\ (ShouldLog (SetLogLevel INFO) severity = true <-> severity <> LS_VERBOSE)
  /\ (forall threshold louder,
        ShouldLog threshold severity = true ->
        severity_value severity <= severity_value louder ->
        ShouldLog threshold louder = true).
Proof.
  split; [destruct severity; reflexivity|].
  split; [destruct severity; reflexivity|].
  split; [destruct severity; cbn; split; intros H; try done; try tauto;
          destruct H; discriminate|].
  split; [destruct severity; cbn; split; intros H; try done|].
  intros threshold louder. destruct threshold, severity, louder; cbn; intros; try done; lia.
Qed.

(** ** The box tree of a track and of the movie *)

Lemma len_writeUint32BE x : len (writeUint32BE x) = 4.
Proof. reflexivity. Qed.

Lemma len_flat_map_const {A} (f : A -> bytes) (k : Z) (l : list A) :
  (forall x, len (f x) = k) -> len (flat_map f l) = k * len l.
Proof.
  intros Hf. induction l as [|x l IH]; cbn [flat_map]; [unfold len; cbn; lia|].
  rewrite len_app, IH, Hf. unfold len. cbn [length]. lia.
Qed.

Lemma header_leaf type size payload :
  String.length type = 4%nat -> size = 8 + len payload ->
  writeAtomHeader type size ++ payload = serialize (Leaf type payload).
Proof.
  intros Ht ->. unfold writeAtomHeader. cbn [serialize].
  rewrite <- app_assoc. f_equal. f_equal.
  apply take_ge. unfold chars. rewrite length_map.
  rewrite <- Ht. clear. induction type; cbn; [lia|]. cbn in IHtype. lia.
Qed.

Lemma header_node type size children :
  String.length type = 4%nat -> size = 8 + len (flat_map serialize children) ->
  writeAtomHeader type size ++ flat_map serialize children = serialize (Node type children).
Proof.
  intros Ht ->. unfold writeAtomHeader. cbn [serialize].
  rewrite <- app_assoc. f_equal. f_equal.
  apply take_ge. unfold chars. rewrite length_map.
  rewrite <- Ht. clear. induction type; cbn; [lia|]. cbn in IHtype. lia.
Qed.

Lemma stco_entries_length frames mdat_start tl :
  stco_entries frames mdat_start = Some tl -> len tl = 4 * len frames.
Proof.
  intros H. apply stco_entries_values in H as [-> _].
  apply len_flat_map_const. reflexivity.
Qed.

(** The sample tables, each as a box. *)
Lemma buildStts_box frames d x :
  buildStts frames d = Some x ->
  x = serialize (Leaf "stts"
        (writeUint32BE 0 ++ writeUint32BE (len (stts_entries frames d))
         ++ flat_map (fun e => writeUint32BE (fst e) ++ writeUint32BE (snd e))
                     (stts_entries frames d))).
Proof.
  unfold buildStts. destruct frames as [|f rest] eqn:E; [discriminate|]. rewrite <- E.
  intros H; apply (inj Some) in H; subst x. apply header_leaf; [reflexivity|].
  rewrite !len_app, !len_writeUint32BE.
  rewrite (len_flat_map_const _ 8) by reflexivity. lia.
Qed.

Lemma buildStss_box frames x :
  buildStss frames = Some x ->
  x = serialize (Leaf "stss"
        (writeUint32BE 0 ++ writeUint32BE (len (keyframe_indices frames 0))
         ++ flat_map writeUint32BE (keyframe_indices frames 0))).
Proof.
  unfold buildStss. intros H; apply (inj Some) in H; subst x. apply header_leaf; [reflexivity|].
  rewrite !len_app, !len_writeUint32BE.
  rewrite (len_flat_map_const _ 4) by reflexivity. lia.
Qed.

Lemma buildStsz_box frames x :
  buildStsz frames = Some x ->
  x = serialize (Leaf "stsz"
        (writeUint32BE 0 ++ writeUint32BE 0 ++ writeUint32BE (len frames)
         ++ flat_map (fun f => writeUint32BE (size f)) frames)).
Proof.
  unfold buildStsz. destruct frames as [|f rest] eqn:E; [discriminate|]. rewrite <- E.
  intros H; apply (inj Some) in H; subst x. apply header_leaf; [reflexivity|].
  rewrite !len_app, !len_writeUint32BE.
  rewrite (len_flat_map_const _ 4) by reflexivity. lia.
Qed.

Lemma buildStco_box frames mdat_start x :
  buildStco frames mdat_start = Some x ->
  x = serialize (Leaf "stco"
        (writeUint32BE 0 ++ writeUint32BE (len frames)
         ++ flat_map (fun f => writeUint32BE (mdat_start + offset f)) frames)).
Proof.
  unfold buildStco. destruct frames as [|f rest] eqn:E; [discriminate|]. rewrite <- E.
  destruct (stco_entries frames mdat_start) as [tl|] eqn:Et; [|discriminate].
  intros H; apply (inj Some) in H; subst x. apply stco_entries_values in Et as [-> _].
  apply header_leaf; [reflexivity|].
  rewrite !len_app, !len_writeUint32BE.
  rewrite (len_flat_map_const _ 4) by reflexivity. lia.
Qed.

Lemma buildStsc_box frames x :
  buildStsc frames = Some x ->
  x = serialize (Leaf "stsc"
        (writeUint32BE 0 ++ writeUint32BE 1
         ++ writeUint32BE 1 ++ writeUint32BE 1 ++ writeUint32BE 1)).
Proof.
  unfold buildStsc. destruct frames as [|f rest]; [discriminate|].
  intros H; apply (inj Some) in H; subst x. reflexivity.
Qed.

Lemma buildStsd_box codec w h asr ach sps pps x :
  buildStsd codec w h asr ach sps pps = Some x ->
  x = serialize (Leaf "stsd"
        (writeUint32BE 0 ++ writeUint32BE 1
         ++ (if String.eqb codec "avc1" then avc1_entry w h sps pps
             else mp4a_entry asr ach))).
Proof.
  unfold buildStsd. intros H; apply (inj Some) in H; subst x. apply header_leaf; [reflexivity|].
  rewrite !len_app, !len_writeUint32BE. lia.
Qed.

Lemma node_of_body type size body children :
  String.length type = 4%nat -> body = flat_map serialize children ->
  size = 8 + len body ->
  writeAtomHeader type size ++ body = serialize (Node type children).
Proof. intros Ht -> Hs. by apply header_node. Qed.

Lemma flat1 a : serialize a = flat_map serialize [a].
Proof. cbn [flat_map]. by rewrite app_nil_r. Qed.
Lemma flat2 a b : serialize a ++ serialize b = flat_map serialize [a; b].
Proof. cbn [flat_map]. by rewrite app_nil_r. Qed.
Lemma flat3 a b c :
  serialize a ++ serialize b ++ serialize c = flat_map serialize [a; b; c].
Proof. cbn [flat_map]. by rewrite app_nil_r. Qed.
Lemma flat5 a b c d e :
  serialize a ++ serialize b ++ serialize c ++ serialize d ++ serialize e
  = flat_map serialize [a; b; c; d; e].
Proof. cbn [flat_map]. by rewrite app_nil_r. Qed.
Lemma flat6 a b c d e f :
  serialize a ++ serialize b ++ serialize c ++ serialize d ++ serialize e ++ serialize f
  = flat_map serialize [a; b; c; d; e; f].
Proof. cbn [flat_map]. by rewrite app_nil_r. Qed.

Lemma buildTrak_tree
    (frames : list FrameInfo) (track timescale : Z) (codec : string)
    (w h asr ach : Z) (sps pps : bytes) (mdat_start : Z) (trak : bytes) :
  buildTrak frames track timescale codec w h asr ach sps pps mdat_start
  = Returned (Some trak) ->
  exists tkhd mdhd hdlr mh dref stsd stts stss stsz stco stsc,
    let video := String.eqb codec "avc1" in
    trak = serialize (trak_tree tkhd mdhd hdlr
             (if video then Leaf "vmhd" mh else Leaf "smhd" mh) dref
             ([Leaf "stsd" stsd; Leaf "stts" stts]
              ++ (if video then [Leaf "stss" stss] else [])
              ++ [Leaf "stsz" stsz; Leaf "stco" stco; Leaf "stsc" stsc]))
    /\ len tkhd = 84 /\ len mdhd = 24 /\ len hdlr = 60
    /\ len mh = (if video then 12 else 8) /\ len dref = 20
    /\ buildStsd codec w h asr ach sps pps = Some (serialize (Leaf "stsd" stsd))
    /\ buildStts frames (stts_default_duration codec timescale)
       = Some (serialize (Leaf "stts" stts))
    /\ (video = true -> buildStss frames = Some (serialize (Leaf "stss" stss)))
    /\ buildStsz frames = Some (serialize (Leaf "stsz" stsz))
    /\ buildStco frames mdat_start = Some (serialize (Leaf "stco" stco))
    /\ buildStsc frames = Some (serialize (Leaf "stsc" stsc)).
Proof.
  intros H. unfold buildTrak in H. cbv zeta in H.
  destruct (duration_ms frames timescale) as [tkhd_duration|]; [|discriminate].
  apply Returned_inj in H.
  destruct (buildStsd codec w h asr ach sps pps) as [stsd|] eqn:Esd;
    cbn [mbind option_bind] in H; [|discriminate].
  destruct (buildStts frames (stts_default_duration codec timescale)) as [stts|] eqn:Ets;
    cbn [mbind option_bind] in H; [|discriminate].
  destruct (buildStsz frames) as [stsz|] eqn:Esz.
  2: { destruct (String.eqb codec "avc1"); cbn [mbind option_bind] in H;
       [destruct (buildStss frames)|]; discriminate. }
  destruct (buildStco frames mdat_start) as [stco|] eqn:Eco.
  2: { destruct (String.eqb codec "avc1"); cbn [mbind option_bind] in H;
       [destruct (buildStss frames)|]; discriminate. }
  destruct (buildStsc frames) as [stsc|] eqn:Esc.
  2: { destruct (String.eqb codec "avc1"); cbn [mbind option_bind] in H;
       [destruct (buildStss frames)|]; discriminate. }
  apply buildStsd_box in Esd. apply buildStts_box in Ets. apply buildStsz_box in Esz.
  apply buildStco_box in Eco. apply buildStsc_box in Esc.
  rewrite (header_leaf "mdhd" 32) in H by reflexivity.
  rewrite (header_leaf "dref") in H by reflexivity.
  erewrite (node_of_body "dinf" _ _ [Leaf "dref" _]) in H;
    [|reflexivity|first [apply flat1|apply flat3|apply flat5|apply flat6]|reflexivity].
  destruct (String.eqb codec "avc1") eqn:Ev; cbn [andb] in H.
  - destruct (buildStss frames) as [stss|] eqn:Ess; [|discriminate].
    apply buildStss_box in Ess.
    cbn [mbind option_bind] in H. apply (inj Some) in H.
    rewrite (header_leaf "tkhd" 92) in H
      by (first [reflexivity | destruct ((0 <? w) && (0 <? h)); reflexivity]).
    rewrite (header_leaf "hdlr" 68) in H by reflexivity.
    rewrite (header_leaf "vmhd" 20) in H by reflexivity.
    subst stsd stts stss stsz stco stsc.
    erewrite (node_of_body "stbl" _ _ [_; _; _; _; _; _]) in H;
      [|reflexivity|first [apply flat1|apply flat3|apply flat5|apply flat6]|reflexivity].
    erewrite (node_of_body "minf" _ _ [_; _; _]) in H;
      [|reflexivity|first [apply flat1|apply flat3|apply flat5|apply flat6]|reflexivity].
    erewrite (node_of_body "mdia" _ _ [_; _; _]) in H;
      [|reflexivity|first [apply flat2|apply flat3]|rewrite !len_app; lia].
    erewrite (node_of_body "trak" _ _ [_; _]) in H;
      [|reflexivity|first [apply flat2|apply flat3]|rewrite !len_app; lia].
    do 11 eexists. cbv zeta.
    split; [symmetry; exact H|].
    split; [destruct ((0 <? w) && (0 <? h)); reflexivity|].
    repeat (split; [reflexivity|]). reflexivity.
  - cbn [mbind option_bind] in H. apply (inj Some) in H.
    rewrite (header_leaf "tkhd" 92) in H by reflexivity.
    rewrite (header_leaf "hdlr" 68) in H by reflexivity.
    rewrite (header_leaf "smhd" 16) in H by reflexivity.
    subst stsd stts stsz stco stsc.
    erewrite (node_of_body "stbl" _ _ [_; _; _; _; _]) in H;
      [|reflexivity|first [apply flat1|apply flat3|apply flat5|apply flat6]|reflexivity].
    erewrite (node_of_body "minf" _ _ [_; _; _]) in H;
      [|reflexivity|first [apply flat1|apply flat3|apply flat5|apply flat6]|reflexivity].
    erewrite (node_of_body "mdia" _ _ [_; _; _]) in H;
      [|reflexivity|first [apply flat2|apply flat3]|rewrite !len_app; lia].
    erewrite (node_of_body "trak" _ _ [_; _]) in H;
      [|reflexivity|first [apply flat2|apply flat3]|rewrite !len_app; lia].
    do 7 eexists. exists []. do 3 eexists. cbv zeta.
    split; [symmetry; exact H|].
    repeat (split; [reflexivity|]).
    split; [intros ?; discriminate|].
    repeat (split; [reflexivity|]). reflexivity.
Qed.

(** X5: a track is the serialization of a box tree: [trak] holds [tkhd] and
    [mdia]; [mdia] holds [mdhd], [hdlr] and [minf]; [minf] holds the media
    header, [dinf] (with [dref]) and [stbl]; [stbl] holds the sample tables
    in the order stsd, stts, stss (video only), stsz, stco, stsc.  Every
    size field is the length of its box (modulo 2^32). *)
Theorem buildTrak_is_box_tree
    (frames : list FrameInfo) (track timescale : Z) (codec : string)
    (w h asr ach : Z) (sps pps : bytes) (mdat_start : Z) (trak : bytes) :
  buildTrak frames track timescale codec w h asr ach sps pps mdat_start
  = Returned (Some trak) ->
  exists tkhd mdhd hdlr mh dref stsd stts stss stsz stco stsc,
    let video := String.eqb codec "avc1" in
    trak = serialize (trak_tree tkhd mdhd hdlr
             (if video then Leaf "vmhd" mh else Leaf "smhd" mh) dref
             ([Leaf "stsd" stsd; Leaf "stts" stts]
              ++ (if video then [Leaf "stss" stss] else [])
              ++ [Leaf "stsz" stsz; Leaf "stco" stco; Leaf "stsc" stsc]))
    /\ len tkhd = 84 /\ len mdhd = 24 /\ len hdlr = 60
    /\ len mh = (if video then 12 else 8) /\ len dref = 20
    /\ buildStsd codec w h asr ach sps pps = Some (serialize (Leaf "stsd" stsd))
    /\ buildStts frames (stts_default_duration codec timescale)
       = Some (serialize (Leaf "stts" stts))
    /\ (video = true -> buildStss frames = Some (serialize (Leaf "stss" stss)))
    /\ buildStsz frames = Some (serialize (Leaf "stsz" stsz))
    /\ buildStco frames mdat_start = Some (serialize (Leaf "stco" stco))
    /\ buildStsc frames = Some (serialize (Leaf "stsc" stsc)).
Proof. apply buildTrak_tree. Qed.

Lemma buildTrak_is_box_tree_witness :
  let frames := [mkFrame 0 1024 0 0 1 0 (zeros 10); mkFrame 1024 512 1000 1000 0 0 (zeros 10)] in
  exists tkhd mdhd hdlr mh dref stsd stts stss stsz stco stsc,
    buildTrak frames 1 30000 "avc1" 640 480 0 0 [] [] 40
    = Returned (Some (serialize (trak_tree tkhd mdhd hdlr (Leaf "vmhd" mh) dref
                   [Leaf "stsd" stsd; Leaf "stts" stts; Leaf "stss" stss;
                    Leaf "stsz" stsz; Leaf "stco" stco; Leaf "stsc" stsc]))).
Proof.
  intros frames.
  destruct (buildTrak frames 1 30000 "avc1" 640 480 0 0 [] [] 40) as [[trak|]|] eqn:E;
    [|vm_compute in E; discriminate..].
  destruct (buildTrak_is_box_tree frames 1 30000 "avc1" 640 480 0 0 [] [] 40 trak E)
    as (tkhd & mdhd & hdlr & mh & dref & stsd & stts & stss & stsz & stco & stsc & H & _).
  exists tkhd, mdhd, hdlr, mh, dref, stsd, stts, stss, stsz, stco, stsc.
  cbv zeta in H. change (String.eqb "avc1" "avc1") with true in H. cbv iota in H.
  by rewrite H.
Defined.

Lemma writeAtomHeader_u32 type size :
  writeAtomHeader type (u32 size) = writeAtomHeader type size.
Proof. unfold writeAtomHeader. by rewrite writeUint32BE_u32. Qed.

Lemma buildTrak_some_tree frames track timescale codec w h asr ach sps pps mdat_start trak :
  buildTrak frames track timescale codec w h asr ach sps pps mdat_start
  = Returned (Some trak) ->
  exists t, is_trak_tree t /\ trak = serialize t.
Proof.
  intros H. apply buildTrak_tree in H.
  destruct H as (tkhd & mdhd & hdlr & mh & dref & stsd & stts & stss & stsz & stco & stsc
                 & H & _).
  eexists. split; [|exact H]. unfold is_trak_tree. by do 6 eexists.
Qed.

Lemma buildMoov_tree video audio vts ats asr ach w h sps pps mdat_start moov :
  buildMoov video audio vts ats asr ach w h sps pps mdat_start = Returned (Some moov) ->
  exists mvhd vtrak atrak,
    moov = serialize (Node "moov" ([Leaf "mvhd" mvhd] ++ vtrak ++ atrak))
    /\ len mvhd = 100
    /\ match video with
       | [] => vtrak = []
       | _ => exists t, vtrak = [t] /\ is_trak_tree t
                /\ buildTrak video 1 vts "avc1" w h 0 0 sps pps mdat_start
                   = Returned (Some (serialize t))
       end
    /\ match audio with
       | [] => atrak = []
       | _ => exists t, atrak = [t] /\ is_trak_tree t
                /\ buildTrak audio 2 ats "mp4a" 0 0 asr ach [] [] mdat_start
                   = Returned (Some (serialize t))
       end.
Proof.
  intros H. unfold buildMoov in H.
  destruct (match video with [] => Returned 0 | _ => duration_ms video vts end)
    as [video_duration|]; [|discriminate].
  unfold buildMvhd in H. cbv iota in H.
  rewrite (header_leaf "mvhd" 108) in H by reflexivity.
  set (mv := Leaf "mvhd" _) in H.
  assert (Hv : exists vtrak vb,
             match video with
             | [] => Returned (Some [])
             | _ => buildTrak video 1 vts "avc1" w h 0 0 sps pps mdat_start
             end = Returned (Some vb)
             /\ vb = flat_map serialize vtrak
             /\ match video with
                | [] => vtrak = []
                | _ => exists t, vtrak = [t] /\ is_trak_tree t
                         /\ buildTrak video 1 vts "avc1" w h 0 0 sps pps mdat_start
                            = Returned (Some (serialize t))
                end).
  { destruct video as [|v0 vs]; [by exists [], []|].
    destruct (buildTrak (v0 :: vs) 1 vts "avc1" w h 0 0 sps pps mdat_start)
      as [[vb|]|] eqn:E; [|discriminate..].
    destruct (buildTrak_some_tree _ _ _ _ _ _ _ _ _ _ _ _ E) as (t & Ht & ->).
    exists [t], (serialize t). split; [reflexivity|]. split; [apply flat1|].
    exists t. done. }
  destruct Hv as (vtrak & vb & Ev & -> & Hv). rewrite Ev in H.
  assert (Ha : exists atrak ab,
             match audio with
             | [] => Returned (Some [])
             | _ => buildTrak audio 2 ats "mp4a" 0 0 asr ach [] [] mdat_start
             end = Returned (Some ab)
             /\ ab = flat_map serialize atrak
             /\ match audio with
                | [] => atrak = []
                | _ => exists t, atrak = [t] /\ is_trak_tree t
                         /\ buildTrak audio 2 ats "mp4a" 0 0 asr ach [] [] mdat_start
                            = Returned (Some (serialize t))
                end).
  { destruct audio as [|a0 als]; [by exists [], []|].
    destruct (buildTrak (a0 :: als) 2 ats "mp4a" 0 0 asr ach [] [] mdat_start)
      as [[ab|]|] eqn:E; [|discriminate..].
    destruct (buildTrak_some_tree _ _ _ _ _ _ _ _ _ _ _ _ E) as (t & Ht & ->).
    exists [t], (serialize t). split; [reflexivity|]. split; [apply flat1|].
    exists t. done. }
  destruct Ha as (atrak & ab & Ea & -> & Ha). rewrite Ea in H.
  cbv zeta in H. apply Returned_inj, (inj Some) in H.
  rewrite writeAtomHeader_u32 in H.
  erewrite (node_of_body "moov" _ _ ([mv] ++ vtrak ++ atrak)) in H;
    [|reflexivity
     |rewrite !flat_map_app; cbn [flat_map]; rewrite app_nil_r; reflexivity
     |rewrite !len_app; lia].
  eexists _, vtrak, atrak. split; [symmetry; exact H|].
  split; [reflexivity|]. split; assumption.
Qed.

(** X6: the movie box is the serialization of a box tree: [moov] holds
    [mvhd] (100 bytes of payload), then the video track if there are video
    samples, then the audio track if there are audio samples, and nothing
    else; each track is the tree [buildTrak] gives. *)
Theorem buildMoov_is_box_tree
    (video audio : list FrameInfo) (vts ats asr ach w h : Z) (sps pps : bytes)
    (mdat_start : Z) (moov : bytes) :
  buildMoov video audio vts ats asr ach w h sps pps mdat_start = Returned (Some moov) ->
  exists mvhd vtrak atrak,
    moov = serialize (Node "moov" ([Leaf "mvhd" mvhd] ++ vtrak ++ atrak))
    /\ len mvhd = 100
    /\ match video with
       | [] => vtrak = []
       | _ => exists t, vtrak = [t] /\ is_trak_tree t
                /\ buildTrak video 1 vts "avc1" w h 0 0 sps pps mdat_start
                   = Returned (Some (serialize t))
       end
    /\ match audio with
       | [] => atrak = []
       | _ => exists t, atrak = [t] /\ is_trak_tree t
                /\ buildTrak audio 2 ats "mp4a" 0 0 asr ach [] [] mdat_start
                   = Returned (Some (serialize t))
       end.
Proof. apply buildMoov_tree. Qed.

Lemma buildMoov_is_box_tree_witness :
  let audio := [mkFrame 0 200 0 0 1 1 (zeros 10); mkFrame 200 200 1024 1024 1 1 (zeros 10)] in
  exists mvhd t,
    buildMoov [] audio 30000 48000 48000 2 640 480 [] [] 40
    = Returned (Some (serialize (Node "moov" [Leaf "mvhd" mvhd; t])))
    /\ is_trak_tree t.
Proof.
  intros audio.
  destruct (buildMoov [] audio 30000 48000 48000 2 640 480 [] [] 40) as [[moov|]|] eqn:E;
    [|vm_compute in E; discriminate..].
  destruct (buildMoov_is_box_tree [] audio 30000 48000 48000 2 640 480 [] [] 40 moov E)
    as (mvhd & vtrak & atrak & H & _ & Hv & Ha).
  cbv iota in Hv. subst vtrak. destruct Ha as (t & -> & Ht & _).
  exists mvhd, t. split; [by rewrite H|exact Ht].
Defined.

(** ** Object representations *)

Lemma le_value_le_bytes n x : le_value (le_bytes n x) = x mod 2 ^ (8 * Z.of_nat n).
Proof.
  revert x. induction n as [|n IH]; intros x; cbn [le_bytes le_value].
  - change (2 ^ (8 * Z.of_nat 0)) with 1. by rewrite Z.mod_1_r.
  - rewrite IH, land_ff, Z.shiftr_div_pow2 by lia. change (2 ^ 8) with 256.
    replace (2 ^ (8 * Z.of_nat (S n))) with (256 * 2 ^ (8 * Z.of_nat n)).
    + rewrite Z.rem_mul_r; [reflexivity|lia|]. apply Z.pow_pos_nonneg; lia.
    + replace (8 * Z.of_nat (S n)) with (8 + 8 * Z.of_nat n) by lia.
      rewrite Z.pow_add_r by lia. reflexivity.
Qed.

Lemma i64_signed x : - 2 ^ 63 <= x < 2 ^ 63 -> i64 (x mod 2 ^ 64) = x.
Proof.
  intros Hx. unfold i64.
  rewrite Zplus_mod_idemp_l. rewrite Z.mod_small; lia.
Qed.

Lemma length_encodeFrame f : length (encodeFrame f) = 40%nat.
Proof. unfold encodeFrame. by rewrite !length_app, !length_resize. Qed.

Lemma length_encodeConfig c : length (encodeConfig c) = 32%nat.
Proof. unfold encodeConfig. by rewrite !length_app, length_resize. Qed.

Lemma list_of_length_2 {A} (l : list A) :
  length l = 2%nat -> exists a b, l = [a; b].
Proof. destruct l as [|a [|b [|? ?]]]; try discriminate. by exists a, b. Qed.

Lemma list_of_length_4 {A} (l : list A) :
  length l = 4%nat -> exists a b c d, l = [a; b; c; d].
Proof.
  destruct l as [|a [|b [|c [|d [|? ?]]]]]; try discriminate. by exists a, b, c, d.
Qed.

Lemma list_of_length_6 {A} (l : list A) :
  length l = 6%nat -> exists a b c d e g, l = [a; b; c; d; e; g].
Proof.
  destruct l as [|a [|b [|c [|d [|e [|g [|? ?]]]]]]]; try discriminate.
  by exists a, b, c, d, e, g.
Qed.

(** The members of a journal record, read at their offsets in the 40 bytes
    of its object representation. *)
Lemma field_encodeFrame f rest :
  field (encodeFrame f ++ rest) 0 8 = offset f mod 2 ^ 64
  /\ field (encodeFrame f ++ rest) 8 4 = size f mod 2 ^ 32
  /\ field (encodeFrame f ++ rest) 16 8 = pts f mod 2 ^ 64
  /\ field (encodeFrame f ++ rest) 24 8 = dts f mod 2 ^ 64
  /\ field (encodeFrame f ++ rest) 32 1 = u8 (is_keyframe f)
  /\ field (encodeFrame f ++ rest) 33 1 = u8 (track_id f)
  /\ take 4 (drop 12 (encodeFrame f ++ rest)) = resize 4 0 (padding f)
  /\ take 6 (drop 34 (encodeFrame f ++ rest)) = resize 6 0 (drop 4 (padding f)).
Proof.
  destruct f as [o s p d k t pd]. unfold encodeFrame, field.
  cbn [offset size pts dts is_keyframe track_id padding].
  destruct (list_of_length_4 (resize 4 0 pd) (length_resize _ _ _)) as (a1 & a2 & a3 & a4 & ->).
  destruct (list_of_length_6 (resize 6 0 (drop 4 pd)) (length_resize _ _ _))
    as (b1 & b2 & b3 & b4 & b5 & b6 & ->).
  set (e := (_ ++ _) ++ rest).
  change (take 8 (drop 0 e)) with (le_bytes 8 o).
  change (take 4 (drop 8 e)) with (le_bytes 4 s).
  change (take 8 (drop 16 e)) with (le_bytes 8 p).
  change (take 8 (drop 24 e)) with (le_bytes 8 d).
  change (take 1 (drop 32 e)) with [u8 k].
  change (take 1 (drop 33 e)) with [u8 t].
  change (take 4 (drop 12 e)) with [a1; a2; a3; a4].
  change (take 6 (drop 34 e)) with [b1; b2; b3; b4; b5; b6].
  rewrite !le_value_le_bytes. cbn [le_value].
  change (2 ^ (8 * Z.of_nat 8)) with (2 ^ 64). change (2 ^ (8 * Z.of_nat 4)) with (2 ^ 32).
  repeat split; lia.
Qed.

Lemma padding_resized (pd : bytes) :
  len pd = 10 -> resize 4 0 pd ++ resize 6 0 (drop 4 pd) = pd.
Proof.
  unfold len. intros H.
  do 10 (destruct pd as [|? pd]; [cbn [length] in H; lia|]).
  destruct pd; [reflexivity|cbn [length] in H; lia].
Qed.

Lemma decodeFrame_encodeFrame f : frame_ok f -> decodeFrame (encodeFrame f) = f.
Proof.
  intros (Ho & Hs & Hp & Hd & Hk & Ht & Hpad).
  destruct (field_encodeFrame f []) as (E1 & E2 & E3 & E4 & E5 & E6 & E7 & E8).
  rewrite app_nil_r in *. unfold decodeFrame.
  rewrite E1, E2, E3, E4, E5, E6, E7, E8, padding_resized by assumption.
  rewrite !i64_signed by assumption.
  rewrite (Z.mod_small (offset f)), (Z.mod_small (size f)) by assumption.
  unfold u8. rewrite (Z.mod_small (is_keyframe f)), (Z.mod_small (track_id f)) by assumption.
  by destruct f.
Qed.

Lemma decodeConfig_encodeConfig c : config_ok c -> decodeConfig (encodeConfig c) = c.
Proof.
  destruct c as [vt at_ sr ch fi fc vw vh pd]. unfold config_ok.
  cbn [video_timescale audio_timescale audio_sample_rate audio_channels flush_interval_ms
       flush_frame_count video_width video_height config_padding].
  intros (H1 & H2 & H3 & H4 & H5 & H6 & H7 & H8 & H9).
  destruct (list_of_length_2 pd) as (p1 & p2 & ->); [unfold len in H9; lia|].
  unfold decodeConfig, field.
  set (e := encodeConfig _).
  change (take 4 (drop 0 e)) with (le_bytes 4 vt).
  change (take 4 (drop 4 e)) with (le_bytes 4 at_).
  change (take 4 (drop 8 e)) with (le_bytes 4 sr).
  change (take 2 (drop 12 e)) with (le_bytes 2 ch).
  change (take 4 (drop 16 e)) with (le_bytes 4 fi).
  change (take 4 (drop 20 e)) with (le_bytes 4 fc).
  change (take 4 (drop 24 e)) with (le_bytes 4 vw).
  change (take 4 (drop 28 e)) with (le_bytes 4 vh).
  change (take 2 (drop 14 e)) with [p1; p2].
  rewrite !le_value_le_bytes.
  change (2 ^ (8 * Z.of_nat 4)) with (2 ^ 32). change (2 ^ (8 * Z.of_nat 2)) with (2 ^ 16).
  rewrite !Z.mod_small by assumption. reflexivity.
Qed.

Lemma take_encodeFrame f rest : take 40 (encodeFrame f ++ rest) = encodeFrame f.
Proof. rewrite take_app_length'; [done|by rewrite length_encodeFrame]. Qed.

Lemma drop_encodeFrame f rest : drop 40 (encodeFrame f ++ rest) = rest.
Proof. rewrite drop_app_length'; [done|by rewrite length_encodeFrame]. Qed.

(** The record loop on a journal that may end in a torn record. *)
Lemma parse_frames_records journal : forall fuel tail video audio,
  Forall frame_ok journal -> len tail < 40 -> (length journal < fuel)%nat ->
  parse_frames fuel (flat_map encodeFrame journal ++ tail) video audio
  = (video ++ List.filter is_video journal, audio ++ List.filter is_audio journal).
Proof.
  induction journal as [|f journal IH]; intros fuel tail video audio Hok Htail Hfuel.
  - destruct fuel as [|fuel]; [cbn in Hfuel; lia|].
    cbn [flat_map app parse_frames List.filter]. rewrite !app_nil_r.
    assert (Hlen : (len (take 40 tail) =? sizeof_FrameInfo) = false).
    { apply Z.eqb_neq. unfold len in *. rewrite length_take. unfold sizeof_FrameInfo. lia. }
    by rewrite Hlen.
  - destruct fuel as [|fuel]; [cbn in Hfuel; lia|].
    inversion Hok as [|? ? Hf Hrest]; subst.
    cbn [flat_map parse_frames]. rewrite <- app_assoc.
    rewrite take_encodeFrame, drop_encodeFrame.
    rewrite len_encodeFrame. change (40 =? sizeof_FrameInfo) with true. cbv iota.
    rewrite decodeFrame_encodeFrame by assumption.
    cbn [List.filter]. unfold is_video at 1, is_audio at 1.
    cbn [length] in Hfuel.
    destruct (Z.eqb_spec (track_id f) 0) as [E0|E0].
    + rewrite IH by (assumption || lia).
      assert (E1 : (track_id f =? 1) = false) by (apply Z.eqb_neq; lia).
      rewrite E1, <- app_assoc. reflexivity.
    + destruct (Z.eqb_spec (track_id f) 1) as [E1|E1].
      * rewrite IH by (assumption || lia). by rewrite <- app_assoc.
      * by rewrite IH by (assumption || lia).
Qed.

Lemma length_flat_map_encodeFrame journal :
  length (flat_map encodeFrame journal) = (40 * length journal)%nat.
Proof.
  induction journal as [|f l IH]; [reflexivity|].
  cbn [flat_map]. rewrite length_app, IH, length_encodeFrame.
  cbn [length]. lia.
Qed.

Lemma parse_journal_whole_records cfg journal tail :
  Forall frame_ok journal -> len tail < 40 ->
  parse_journal (journal_bytes cfg journal ++ tail)
  = Some (decodeConfig (encodeConfig cfg),
          List.filter is_video journal, List.filter is_audio journal).
Proof.
  intros Hj Ht. unfold parse_journal, journal_bytes.
  rewrite <- !app_assoc.
  set (body := flat_map encodeFrame journal ++ tail).
  change (take 4 (le_bytes 4 MAGIC ++ encodeConfig cfg ++ body)) with (le_bytes 4 MAGIC).
  change (drop 4 (le_bytes 4 MAGIC ++ encodeConfig cfg ++ body))
    with (encodeConfig cfg ++ body).
  change (drop 36 (le_bytes 4 MAGIC ++ encodeConfig cfg ++ body))
    with (drop 32 (encodeConfig cfg ++ body)).
  rewrite (drop_app_length' (encodeConfig cfg)) by (by rewrite length_encodeConfig).
  rewrite (take_app_length' (encodeConfig cfg)) by (by rewrite length_encodeConfig).
  change (len (le_bytes 4 MAGIC) =? sizeof_uint32) with true.
  change (le_value (le_bytes 4 MAGIC) =? MAGIC) with true.
  rewrite len_encodeConfig. change (32 =? sizeof_RecorderConfig) with true.
  cbn [negb]. cbv iota.
  subst body. rewrite parse_frames_records; [reflexivity|assumption..|].
  rewrite !length_app, length_flat_map_encodeFrame. lia.
Qed.

Lemma parse_journal_records cfg journal tail :
  config_ok cfg -> Forall frame_ok journal -> len tail < 40 ->
  parse_journal (journal_bytes cfg journal ++ tail)
  = Some (cfg, List.filter is_video journal, List.filter is_audio journal).
Proof.
  intros Hc Hj Ht. rewrite parse_journal_whole_records by assumption.
  by rewrite decodeConfig_encodeConfig.
Qed.

(** ** Looking for the parameter sets in a sample *)

Lemma scanned_refl sample sps pps :
  param_set_ok 7 sps -> param_set_ok 8 pps -> scanned sample sps pps sps pps.
Proof. intros H7 H8. unfold scanned. tauto. Qed.

Lemma scanned_trans sample s0 p0 s1 p1 s2 p2 :
  scanned sample s0 p0 s1 p1 -> scanned sample s1 p1 s2 p2 -> scanned sample s0 p0 s2 p2.
Proof.
  intros (A1 & A2 & A3 & A4 & A5 & A6) (B1 & B2 & B3 & B4 & B5 & B6).
  unfold scanned. split; [done|]. split; [done|].
  split. { intros H. rewrite <- (A3 H). apply B3. by rewrite (A3 H). }
  split. { intros H. rewrite <- (A4 H). apply B4. by rewrite (A4 H). }
  split.
  - destruct B5 as [->|B5]; [exact A5|by right].
  - destruct B6 as [->|B6]; [exact A6|by right].
Qed.

Lemma nonempty_nil_iff b : nonempty b = false <-> b = [].
Proof.
  unfold nonempty. rewrite negb_false_iff, Z.eqb_eq. apply len_nil_iff.
Qed.

Lemma handleNal_scanned sample from count sps pps :
  param_set_ok 7 sps -> param_set_ok 8 pps ->
  scanned sample sps pps (fst (handleNal (slice sample from count) sps pps))
                         (snd (handleNal (slice sample from count) sps pps)).
Proof.
  intros H7 H8. unfold handleNal. cbv zeta.
  set (nal := slice sample from count).
  destruct (Z.eqb_spec (len nal) 0); [by apply scanned_refl|].
  destruct (Z.ltb_spec 256 (len nal)); [by apply scanned_refl|].
  pose proof (len_nonneg nal).
  destruct (Z.eqb_spec (Z.land (byte_at nal 0) 31) 7) as [E7|E7]; cbn [andb].
  - destruct (nonempty sps) eqn:Es; cbn [negb fst snd].
    + destruct (Z.eqb_spec (Z.land (byte_at nal 0) 31) 8) as [E8|E8]; [lia|].
      by apply scanned_refl.
    + apply nonempty_nil_iff in Es. subst sps.
      unfold scanned. split; [right; split; [lia|done]|]. split; [done|].
      split; [done|]. split; [done|]. split; [right; by exists from, count|by left].
  - destruct (Z.eqb_spec (Z.land (byte_at nal 0) 31) 8) as [E8|E8]; cbn [andb];
      [|by apply scanned_refl].
    destruct (nonempty pps) eqn:Ep; cbn [negb fst snd]; [by apply scanned_refl|].
    apply nonempty_nil_iff in Ep. subst pps.
    unfold scanned. split; [done|]. split; [right; split; [lia|done]|].
    split; [done|]. split; [done|]. split; [by left|right; by exists from, count].
Qed.

Lemma annexb_scan_scanned sample fuel : forall pos start sps pps,
  param_set_ok 7 sps -> param_set_ok 8 pps ->
  let '(found, sps', pps') := annexb_scan fuel sample pos start sps pps in
  scanned sample sps pps sps' pps' /\ found = nonempty sps' && nonempty pps'.
Proof.
  assert (Hfinish : forall start sps pps,
            param_set_ok 7 sps -> param_set_ok 8 pps ->
            let '(found, sps', pps') :=
              (let '(sps0, pps0) :=
                 if start <? len sample
                 then handleNal (slice sample start (len sample - start)) sps pps
                 else (sps, pps) in
               (nonempty sps0 && nonempty pps0, sps0, pps0)) in
            scanned sample sps pps sps' pps' /\ found = nonempty sps' && nonempty pps').
  { intros start sps pps H7 H8. destruct (start <? len sample).
    - pose proof (handleNal_scanned sample start (len sample - start) sps pps H7 H8) as H.
      destruct (handleNal _ sps pps) as [s p]. done.
    - split; [by apply scanned_refl|done]. }
  induction fuel as [|fuel IH]; intros pos start sps pps H7 H8; cbn [annexb_scan].
  - by apply Hfinish.
  - destruct (pos + 3 <? len sample); cbn [andb]; [|by apply Hfinish].
    match goal with
    | |- context [if 0 <? ?sl then _ else _] => destruct (0 <? sl); [set (start_len := sl)|]
    end; [|by apply IH].
    destruct (start <? pos) eqn:Esp; cbn [andb].
    + pose proof (handleNal_scanned sample start (pos - start) sps pps H7 H8) as H.
      destruct (handleNal _ sps pps) as [s p]. cbn [fst snd] in H.
      destruct (nonempty s && nonempty p) eqn:Eb; [done|].
      pose proof H as (A7 & A8 & _).
      specialize (IH (pos + start_len) (pos + start_len) s p A7 A8).
      destruct (annexb_scan fuel sample _ _ s p) as [[found s'] p'].
      destruct IH as [IH1 IH2]. split; [|exact IH2].
      eapply scanned_trans; [exact H|exact IH1].
    + by apply IH.
Qed.

Lemma length_prefixed_scan_scanned sample fuel : forall pos sps pps,
  param_set_ok 7 sps -> param_set_ok 8 pps ->
  let '(found, sps', pps') := length_prefixed_scan fuel sample pos sps pps in
  scanned sample sps pps sps' pps' /\ found = nonempty sps' && nonempty pps'.
Proof.
  induction fuel as [|fuel IH]; intros pos sps pps H7 H8; cbn [length_prefixed_scan].
  - split; [by apply scanned_refl|done].
  - destruct (pos + 4 <=? len sample); [|split; [by apply scanned_refl|done]].
    cbv zeta.
    match goal with |- context [if ?b then _ else _] => destruct b end;
      [split; [by apply scanned_refl|done]|].
    set (n := readBE32 _).
    pose proof (handleNal_scanned sample (pos + 4) n sps pps H7 H8) as H.
    destruct (handleNal _ sps pps) as [s p]. cbn [fst snd] in H.
    destruct (nonempty s && nonempty p) eqn:Eb; [done|].
    pose proof H as (A7 & A8 & _).
    specialize (IH (pos + 4 + n) s p A7 A8).
    destruct (length_prefixed_scan fuel sample _ s p) as [[found s'] p'].
    destruct IH as [IH1 IH2]. split; [|exact IH2].
    eapply scanned_trans; [exact H|exact IH1].
Qed.

Lemma extract_scanned sample sps pps :
  param_set_ok 7 sps -> param_set_ok 8 pps ->
  let '(found, sps', pps') := extractH264ConfigFromSample sample sps pps in
  scanned sample sps pps sps' pps'
  /\ found = (4 <=? len sample) && nonempty sps' && nonempty pps'.
Proof.
  intros H7 H8. unfold extractH264ConfigFromSample.
  destruct (Z.ltb_spec (len sample) 4) as [Hl|Hl].
  - split; [by apply scanned_refl|].
    destruct (Z.leb_spec 4 (len sample)); [lia|reflexivity].
  - cbv zeta. destruct (Z.leb_spec 4 (len sample)) as [_|]; [|lia]. cbn [andb].
    match goal with |- context [if ?b then _ else _] => destruct b end.
    + pose proof (annexb_scan_scanned sample (length sample) 0 0 sps pps H7 H8) as H.
      destruct (annexb_scan _ sample 0 0 sps pps) as [[found s] p]. exact H.
    + pose proof (length_prefixed_scan_scanned sample (length sample) 0 sps pps H7 H8) as H.
      destruct (length_prefixed_scan _ sample 0 sps pps) as [[found s] p]. exact H.
Qed.

(** X7: what the scan of a sample can return.  Given no parameter sets or
    well-formed ones, [extractH264ConfigFromSample] leaves a set it was
    given untouched; a set it finds is a stretch of the sample of 1 to 256
    bytes whose NAL type is 7 (SPS) or 8 (PPS); and it returns true exactly
    when the sample has at least 4 bytes and both sets are there at the
    end. *)
Theorem extractH264ConfigFromSample_is_sound (sample sps pps : bytes) :
  param_set_ok 7 sps -> param_set_ok 8 pps ->
  let '(found, sps', pps') := extractH264ConfigFromSample sample sps pps in
  param_set_ok 7 sps' /\ param_set_ok 8 pps'
  /\ (sps <> [] -> sps' = sps) /\ (pps <> [] -> pps' = pps)
  /\ (sps' = sps \/ exists from count, sps' = slice sample from count)
  /\ (pps' = pps \/ exists from count, pps' = slice sample from count)
  /\ found = (4 <=? len sample) && nonempty sps' && nonempty pps'.
Proof.
  intros H7 H8. pose proof (extract_scanned sample sps pps H7 H8) as H.
  destruct (extractH264ConfigFromSample sample sps pps) as [[found s] p].
  destruct H as [(A1 & A2 & A3 & A4 & A5 & A6) A7]. done.
Qed.

Lemma extractH264ConfigFromSample_is_sound_witness :
  let sample := [0; 0; 0; 1; 0x67; 0x42; 0; 0; 0; 1; 0x68; 0xCE; 0; 0; 0; 1; 0x65; 0x88] in
  extractH264ConfigFromSample sample [] [] = (true, [0x67; 0x42], [0x68; 0xCE])
  /\ param_set_ok 7 [0x67; 0x42] /\ param_set_ok 8 [0x68; 0xCE].
Proof.
  intros sample.
  pose proof (extractH264ConfigFromSample_is_sound sample [] []
                (or_introl eq_refl) (or_introl eq_refl)) as H.
  assert (E : extractH264ConfigFromSample sample [] [] = (true, [0x67; 0x42], [0x68; 0xCE]))
    by (vm_compute; reflexivity).
  rewrite E in H. destruct H as (H1 & H2 & _). done.
Defined.

(** ** Sample sizes and sync samples *)

(** X8: the sample size table.  For a track with samples [stsz] is a box of
    20 + 4 n bytes (taken to be less than 2^32) whose size field is its
    length; it declares variable sizes (sample size 0) and [n] samples, and
    its [i]-th entry is the size of the [i]-th sample, in order. *)
Theorem buildStsz_lists_the_sample_sizes (frames : list FrameInfo) (x : bytes) :
  buildStsz frames = Some x -> 20 + 4 * len frames < 2 ^ 32 ->
  len x = 20 + 4 * len frames
  /\ readBE32 x = len x
  /\ take 4 (drop 4 x) = chars "stsz"
  /\ readBE32 (drop 12 x) = 0
  /\ readBE32 (drop 16 x) = len frames
  /\ forall i f, frames !! i = Some f -> readBE32 (drop (20 + 4 * i) x) = u32 (size f).
Proof.
  intros H Hn. apply buildStsz_box in H. subst x. pose proof (len_nonneg frames) as H0.
  set (entries := flat_map (fun f => writeUint32BE (size f)) frames).
  assert (Hle : len entries = 4 * len frames)
    by (apply len_flat_map_const; reflexivity).
  assert (Hlen : len (serialize (Leaf "stsz" (writeUint32BE 0 ++ writeUint32BE 0
                        ++ writeUint32BE (len frames) ++ entries))) = 20 + 4 * len frames).
  { cbn [serialize]. rewrite !len_app, !len_writeUint32BE, Hle.
    change (len (chars "stsz")) with 4. lia. }
  split; [exact Hlen|]. split.
  { rewrite Hlen. cbn [serialize]. rewrite readBE32_app4 by reflexivity.
    rewrite readBE32_writeUint32BE_u32.
    rewrite !len_app, !len_writeUint32BE, Hle.
    replace (8 + (4 + (4 + (4 + 4 * len frames)))) with (20 + 4 * len frames) by lia.
    apply u32_id. lia. }
  split; [reflexivity|]. split; [reflexivity|]. split.
  { change (drop 16 (serialize _)) with (writeUint32BE (len frames) ++ entries).
    rewrite readBE32_app4 by reflexivity. rewrite readBE32_writeUint32BE_u32.
    apply u32_id. lia. }
  intros i f Hf. rewrite <- drop_drop.
  change (drop 20 (serialize _)) with entries.
  subst entries. rewrite (drop_flat_map_words size frames i f Hf).
  rewrite readBE32_app4 by reflexivity. apply readBE32_writeUint32BE_u32.
Qed.

Lemma buildStsz_lists_the_sample_sizes_witness :
  let frames := [mkFrame 0 1024 0 0 1 0 (zeros 10); mkFrame 1024 512 1000 1000 0 0 (zeros 10)] in
  let x := default [] (buildStsz frames) in
  len x = 28 /\ readBE32 x = 28 /\ readBE32 (drop 16 x) = 2
  /\ readBE32 (drop 20 x) = 1024 /\ readBE32 (drop 24 x) = 512.
Proof.
  intros frames x.
  destruct (buildStsz_lists_the_sample_sizes frames x eq_refl) as (H1 & H2 & _ & _ & H5 & H6).
  - vm_compute. reflexivity.
  - split; [exact H1|]. split; [rewrite H2; exact H1|]. split; [exact H5|].
    split; [exact (H6 0%nat _ eq_refl)|exact (H6 1%nat _ eq_refl)].
Defined.

Lemma keyframe_indices_spec frames : forall i,
  0 <= i -> i + len frames < 2 ^ 32 ->
  (forall k, In k (keyframe_indices frames i)
             <-> i < k <= i + len frames
                 /\ is_keyframe (at_index frames (Z.to_nat (k - i - 1))) <> 0)
  /\ Forall (fun k => i < k) (keyframe_indices frames i)
  /\ StronglySorted Z.lt (keyframe_indices frames i).
Proof.
  induction frames as [|f frames IH]; intros i Hi Hlen.
  - cbn [keyframe_indices]. split; [|split; constructor].
    intros k. change (len []) with 0. split; [intros []|lia].
  - assert (Hl : len (f :: frames) = 1 + len frames) by (unfold len; cbn [length]; lia).
    pose proof (len_nonneg frames) as H0.
    destruct (IH (i + 1)) as (Hin & Hlow & Hsort); [lia|lia|].
    assert (Htail : forall k, In k (keyframe_indices frames (i + 1))
              <-> i + 1 < k <= i + len (f :: frames)
                  /\ is_keyframe (at_index (f :: frames) (Z.to_nat (k - i - 1))) <> 0).
    { intros k. rewrite Hin, Hl. split; intros [Hr Hk]; (split; [lia|]).
      - replace (Z.to_nat (k - i - 1)) with (S (Z.to_nat (k - (i + 1) - 1))) by lia.
        exact Hk.
      - replace (Z.to_nat (k - i - 1)) with (S (Z.to_nat (k - (i + 1) - 1))) in Hk by lia.
        exact Hk. }
    assert (Hlow' : Forall (fun k => i < k) (keyframe_indices frames (i + 1)))
      by (eapply Forall_impl; [exact Hlow|]; cbn; intros; lia).
    cbn [keyframe_indices]. rewrite (u32_id (i + 1)) by lia.
    destruct (Z.eqb_spec (is_keyframe f) 0) as [E|E]; cbn [negb].
    + split; [|split; assumption].
      intros k. rewrite Htail. split; intros [Hr Hk]; (split; [|exact Hk]); [lia|].
      destruct (Z.eq_dec k (i + 1)) as [->|]; [|lia].
      replace (Z.to_nat (i + 1 - i - 1)) with 0%nat in Hk by lia. contradiction.
    + split; [|split].
      * intros k. cbn [In]. rewrite Htail. split.
        -- intros [<-|[Hr Hk]]; [|split; [lia|exact Hk]].
           split; [lia|]. replace (Z.to_nat (i + 1 - i - 1)) with 0%nat by lia. exact E.
        -- intros [Hr Hk]. destruct (Z.eq_dec k (i + 1)) as [->|]; [by left|].
           right. split; [lia|exact Hk].
      * constructor; [lia|exact Hlow'].
      * constructor; [exact Hsort|exact Hlow].
Qed.

(** X9: the sync sample table.  [buildStss] never fails; for a track of
    fewer than 2^32 samples its entries are the 1-based positions of the
    samples flagged as key frames, in increasing order; a track without a
    key frame gets a table with no entry. *)
Theorem buildStss_lists_the_key_frames (frames : list FrameInfo) :
  len frames < 2 ^ 32 ->
  let entries := keyframe_indices frames 0 in
  buildStss frames
  = Some (serialize (Leaf "stss" (writeUint32BE 0 ++ writeUint32BE (len entries)
                                  ++ flat_map writeUint32BE entries)))
  /\ (forall k, In k entries
                <-> 1 <= k <= len frames
                    /\ is_keyframe (at_index frames (Z.to_nat (k - 1))) <> 0)
  /\ StronglySorted Z.lt entries
  /\ (Forall (fun f => is_keyframe f = 0) frames -> entries = []).
Proof.
  intros Hn. cbv zeta.
  destruct (keyframe_indices_spec frames 0) as (Hin & _ & Hsort); [lia|lia|].
  split; [|split; [|split]].
  - destruct (buildStss frames) as [x|] eqn:E; [|discriminate].
    by rewrite (buildStss_box frames x E).
  - intros k. rewrite Hin. replace (k - 0 - 1) with (k - 1) by lia.
    split; intros [Hr Hk]; (split; [lia|exact Hk]).
  - exact Hsort.
  - intros Hall. destruct (keyframe_indices frames 0) as [|k l] eqn:E; [reflexivity|].
    exfalso. assert (Hk : In k (k :: l)) by (by left).
    apply Hin in Hk as [Hr Hk]. apply Hk.
    rewrite List.Forall_forall in Hall. apply Hall. unfold at_index.
    apply nth_In. unfold len in Hr. lia.
Qed.

Lemma buildStss_lists_the_key_frames_witness :
  let frames := [mkFrame 0 9 0 0 1 0 (zeros 10); mkFrame 9 5 1000 1000 0 0 (zeros 10);
                 mkFrame 14 7 2000 2000 1 0 (zeros 10)] in
  buildStss frames
  = Some (serialize (Leaf "stss" (writeUint32BE 0 ++ writeUint32BE 2
                                  ++ writeUint32BE 1 ++ writeUint32BE 3))).
Proof.
  intros frames.
  destruct (buildStss_lists_the_key_frames frames) as (H & _).
  - vm_compute. reflexivity.
  - exact H.
Defined.

(** ** Sample entries *)

Lemma flat_map_writeUint8 p : Forall (fun b => 0 <= b < 256) p -> flat_map writeUint8 p = p.
Proof.
  induction 1 as [|b p Hb _ IH]; [reflexivity|].
  cbn [flat_map writeUint8 app]. rewrite IH. unfold u8. by rewrite Z.mod_small by lia.
Qed.

Lemma byte_at_drop n p i : 0 <= i -> byte_at (drop n p) i = byte_at p (Z.of_nat n + i).
Proof.
  intros Hi. unfold byte_at. rewrite !nth_lookup, lookup_drop.
  by replace (Z.to_nat (Z.of_nat n + i)) with (n + Z.to_nat i)%nat by lia.
Qed.

Lemma byte_at_app_r p q i :
  0 <= i -> byte_at (p ++ q) (len p + i) = byte_at q i.
Proof.
  intros Hi. unfold byte_at, len. rewrite !nth_lookup.
  replace (Z.to_nat (Z.of_nat (length p) + i)) with (length p + Z.to_nat i)%nat by lia.
  by rewrite lookup_app_r, Nat.add_sub' by lia.
Qed.

Lemma be16_at_writeUint16BE n rest :
  0 <= n < 65536 -> be16_at (writeUint16BE n ++ rest) 0 = n.
Proof.
  intros Hn.
  change (be16_at (writeUint16BE n ++ rest) 0)
    with (Z.land (Z.shiftr (u16 n) 8) 0xFF * 256 + Z.land (u16 n) 0xFF).
  unfold u16. change (2 ^ 16) with 65536. rewrite (Z.mod_small n) by lia.
  rewrite !land_ff, Z.shiftr_div_pow2 by lia. change (2 ^ 8) with 256.
  assert (0 <= n / 256 < 256)
    by (split; [apply Z.div_pos|apply Z.div_lt_upper_bound]; lia).
  rewrite (Z.mod_small (n / 256)) by lia.
  pose proof (Z.div_mod n 256 ltac:(lia)). lia.
Qed.

Lemma strip_start_code_app sc p :
  In sc start_codes -> 0 < len p -> byte_at p 0 <> 0 -> strip_start_code (sc ++ p) = p.
Proof.
  intros Hsc Hp H0. destruct p as [|b p]; [by vm_compute in Hp|].
  change (byte_at (b :: p) 0) with b in H0. apply Z.eqb_neq in H0.
  unfold start_codes in Hsc. cbn [In] in Hsc.
  destruct Hsc as [<-|[<-|[<-|[]]]]; unfold strip_start_code.
  - change (byte_at ([] ++ b :: p) 0) with b. rewrite H0, !andb_false_r. reflexivity.
  - change (byte_at ([0; 0; 1] ++ b :: p) 2) with 1.
    change (byte_at ([0; 0; 1] ++ b :: p) 0) with 0.
    change (byte_at ([0; 0; 1] ++ b :: p) 1) with 0.
    change (1 =? 0) with false. rewrite !andb_false_r. cbn [andb].
    replace (3 <=? len ([0; 0; 1] ++ b :: p)) with true; [reflexivity|].
    symmetry. apply Z.leb_le. unfold len. cbn [app length]. lia.
  - change (byte_at ([0; 0; 0; 1] ++ b :: p) 0) with 0.
    change (byte_at ([0; 0; 0; 1] ++ b :: p) 1) with 0.
    change (byte_at ([0; 0; 0; 1] ++ b :: p) 2) with 0.
    change (byte_at ([0; 0; 0; 1] ++ b :: p) 3) with 1.
    replace (4 <=? len ([0; 0; 0; 1] ++ b :: p)) with true; [reflexivity|].
    symmetry. apply Z.leb_le. unfold len. cbn [app length]. lia.
Qed.

(** What follows the first hundred bytes of an [avc1] entry. *)
Lemma avc1_entry_tail w h sps pps :
  0 < len sps -> 0 < len pps ->
  drop 100 (avc1_entry w h sps pps)
  = writeUint16BE (len (strip_start_code sps)) ++ flat_map writeUint8 (strip_start_code sps)
    ++ writeUint8 0x01
    ++ writeUint16BE (len (strip_start_code pps)) ++ flat_map writeUint8 (strip_start_code pps).
Proof.
  intros Hs Hp. unfold avc1_entry.
  apply Z.ltb_lt in Hs, Hp. rewrite Hs, Hp. cbv zeta.
  destruct (4 <=? len (strip_start_code sps)); reflexivity.
Qed.

Lemma avc1_entry_profile w h sps pps :
  0 < len sps -> 0 < len pps -> 4 <= len (strip_start_code sps) ->
  take 10 (drop 90 (avc1_entry w h sps pps))
  = chars "avcC" ++ [1; u8 (byte_at (strip_start_code sps) 1);
                     u8 (byte_at (strip_start_code sps) 2);
                     u8 (byte_at (strip_start_code sps) 3); 0xFF; 0xE1].
Proof.
  intros Hs Hp H4. unfold avc1_entry.
  apply Z.ltb_lt in Hs, Hp. rewrite Hs, Hp. cbv zeta.
  apply Z.leb_le in H4. rewrite H4. reflexivity.
Qed.

Lemma be16_at_drop n p i : 0 <= i -> be16_at (drop n p) i = be16_at p (Z.of_nat n + i).
Proof.
  intros Hi. unfold be16_at. rewrite !byte_at_drop by lia. by rewrite Z.add_assoc.
Qed.

Lemma be16_at_app_r p q i : 0 <= i -> be16_at (p ++ q) (len p + i) = be16_at q i.
Proof.
  intros Hi. unfold be16_at. rewrite <- Z.add_assoc. by rewrite !byte_at_app_r by lia.
Qed.

(** The parameter sets read back from an entry with the given tail. *)
Lemma avcC_sets_of_tail entry sps pps :
  0 <= len sps < 65536 -> 0 <= len pps < 65536 ->
  drop 100 entry
  = writeUint16BE (len sps) ++ sps ++ writeUint8 0x01 ++ writeUint16BE (len pps) ++ pps ->
  avcC_sps entry = sps /\ avcC_pps entry = pps.
Proof.
  intros Hs Hp Htail.
  assert (Hn : be16_at entry 100 = len sps).
  { replace (be16_at entry 100) with (be16_at (drop 100 entry) 0)
      by (by rewrite be16_at_drop).
    rewrite Htail. by apply be16_at_writeUint16BE. }
  unfold avcC_sps, avcC_pps. cbv zeta. rewrite Hn. split.
  - change 102%nat with (100 + 2)%nat. rewrite <- drop_drop, Htail.
    change (drop 2 (writeUint16BE (len sps) ++ ?x)) with x.
    apply take_app_length'. unfold len. lia.
  - replace (be16_at entry (103 + len sps))
      with (be16_at (drop 100 entry) (3 + len sps))
      by (rewrite be16_at_drop by (unfold len; lia); f_equal; lia).
    replace (drop (Z.to_nat (105 + len sps)) entry)
      with (drop 2 (drop (length sps + 3) (drop 100 entry)))
      by (rewrite !drop_drop; f_equal; unfold len; lia).
    rewrite Htail.
    replace (writeUint16BE (len sps) ++ sps ++ writeUint8 1 ++ writeUint16BE (len pps) ++ pps)
      with ((writeUint16BE (len sps) ++ sps ++ writeUint8 1)
            ++ writeUint16BE (len pps) ++ pps) by (by rewrite <- !app_assoc).
    assert (Hl : len (writeUint16BE (len sps) ++ sps ++ writeUint8 1) = 3 + len sps).
    { unfold len. rewrite !length_app. cbn [length writeUint16BE writeUint8]. lia. }
    rewrite <- Hl at 1. replace (len (writeUint16BE (len sps) ++ sps ++ writeUint8 1))
      with (len (writeUint16BE (len sps) ++ sps ++ writeUint8 1) + 0) by lia.
    rewrite be16_at_app_r by lia. rewrite be16_at_writeUint16BE by lia.
    rewrite (drop_app_length' (writeUint16BE (len sps) ++ sps ++ writeUint8 1))
      by (rewrite !length_app; cbn [length writeUint16BE writeUint8]; lia).
    change (drop 2 (writeUint16BE (len pps) ++ pps)) with pps.
    rewrite take_ge; [reflexivity|unfold len; lia].
Qed.

(** X10: the parameter sets handed to [setH264Config] are what a player finds
    in the [avcC] box.  Given with or without an Annex-B start code, they
    are stored by [setH264Config] without touching the disk, and the [avc1]
    sample entry built from the stored sets carries exactly the SPS and the
    PPS without their start codes, each behind its 16-bit length; the
    profile, compatibility and level bytes of the box are bytes 1 to 3 of
    the SPS. *)
Theorem avcC_carries_the_parameter_sets
    (w h : Z) (sc1 sc2 sps pps : bytes) (m : Machine) :
  In sc1 start_codes -> In sc2 start_codes ->
  Forall (fun b => 0 <= b < 256) sps -> Forall (fun b => 0 <= b < 256) pps ->
  0 < len sps < 65536 -> 0 < len pps < 65536 ->
  byte_at sps 0 <> 0 -> byte_at pps 0 <> 0 ->
  exists m', setH264Config (sc1 ++ sps) (sc2 ++ pps) m = (Some tt, m')
    /\ disk m' = disk m
    /\ let entry := avc1_entry w h (h264_sps_ (rec m')) (h264_pps_ (rec m')) in
       avcC_sps entry = sps /\ avcC_pps entry = pps
       /\ (4 <= len sps ->
           take 10 (drop 90 entry)
           = chars "avcC" ++ [1; byte_at sps 1; byte_at sps 2; byte_at sps 3; 0xFF; 0xE1]).
Proof.
  intros Hsc1 Hsc2 Hbs Hbp Hs Hp Hs0 Hp0.
  assert (Hl1 : 0 < len (sc1 ++ sps)) by (unfold len in *; rewrite length_app; lia).
  assert (Hl2 : 0 < len (sc2 ++ pps)) by (unfold len in *; rewrite length_app; lia).
  exists (mkMachine (set_h264 (sc1 ++ sps) (sc2 ++ pps) (rec m)) (disk m)).
  split; [|split; [reflexivity|]].
  - unfold setH264Config.
    replace (len (sc1 ++ sps) =? 0) with false by (symmetry; apply Z.eqb_neq; lia).
    replace (len (sc2 ++ pps) =? 0) with false by (symmetry; apply Z.eqb_neq; lia).
    destruct m. reflexivity.
  - cbn [rec h264_sps_ h264_pps_ set_h264]. cbv zeta.
    pose proof (avc1_entry_tail w h _ _ Hl1 Hl2) as Htail.
    pose proof (avc1_entry_profile w h _ _ Hl1 Hl2) as Hprof.
    rewrite (strip_start_code_app sc1 sps) in Htail, Hprof by (assumption || lia).
    rewrite (strip_start_code_app sc2 pps) in Htail by (assumption || lia).
    rewrite !flat_map_writeUint8 in Htail by assumption.
    destruct (avcC_sets_of_tail _ sps pps ltac:(lia) ltac:(lia) Htail) as [H1 H2].
    split; [exact H1|]. split; [exact H2|].
    intros H4. rewrite (Hprof H4).
    assert (Hb : forall i, u8 (byte_at sps i) = byte_at sps i).
    { intros i. unfold u8, byte_at. apply Z.mod_small.
      destruct (nth_in_or_default (Z.to_nat i) sps 0) as [Hin| ->]; [|lia].
      exact (proj1 (List.Forall_forall _ sps) Hbs _ Hin). }
    by rewrite !Hb.
Qed.

Lemma avcC_carries_the_parameter_sets_witness :
  exists m', setH264Config [0; 0; 0; 1; 0x67; 0x42; 0xC0; 0x1E; 0x8C]
               [0; 0; 1; 0x68; 0xCE; 0x3C; 0x80] (fresh empty_disk)
             = (Some tt, m')
    /\ avcC_sps (avc1_entry 640 480 (h264_sps_ (rec m')) (h264_pps_ (rec m')))
       = [0x67; 0x42; 0xC0; 0x1E; 0x8C].
Proof.
  destruct (avcC_carries_the_parameter_sets 640 480 [0; 0; 0; 1] [0; 0; 1]
              [0x67; 0x42; 0xC0; 0x1E; 0x8C] [0x68; 0xCE; 0x3C; 0x80] (fresh empty_disk))
    as (m' & Hrun & _ & Hsps & _).
  - unfold start_codes. cbn [In]. auto.
  - unfold start_codes. cbn [In]. auto.
  - repeat constructor; lia.
  - repeat constructor; lia.
  - vm_compute. split; reflexivity.
  - vm_compute. split; reflexivity.
  - vm_compute. discriminate.
  - vm_compute. discriminate.
  - exists m'. split; [exact Hrun|exact Hsps].
Defined.

Lemma below_16 (P : Z -> bool) :
  forallb P (map Z.of_nat (seq 0 16)) = true -> forall b, 0 <= b < 16 -> P b = true.
Proof.
  intros H b Hb. rewrite forallb_forall in H. apply H.
  apply in_map_iff. exists (Z.to_nat b). split; [lia|]. apply in_seq. lia.
Qed.

(** The two bytes of an AudioSpecificConfig, as [mp4a_entry] packs them. *)
Lemma asc_fields i c :
  0 <= i < 16 -> 0 <= c < 16 ->
  let asc_bits :=
    Z.lor (Z.lor (u16 (Z.shiftl (Z.land 2 0x1F) 11)) (u16 (Z.shiftl (Z.land i 0x0F) 7)))
          (u16 (Z.shiftl c 3)) in
  let asc := u8 (Z.land (Z.shiftr asc_bits 8) 0xFF) * 256 + u8 (Z.land asc_bits 0xFF) in
  asc / 2048 = 2 /\ (asc / 128) mod 16 = i /\ (asc / 8) mod 16 = c /\ asc mod 8 = 0.
Proof.
  intros Hi Hc. cbv zeta.
  pose (Q := fun i c : Z =>
    let asc_bits :=
      Z.lor (Z.lor (u16 (Z.shiftl (Z.land 2 0x1F) 11)) (u16 (Z.shiftl (Z.land i 0x0F) 7)))
            (u16 (Z.shiftl c 3)) in
    let asc := u8 (Z.land (Z.shiftr asc_bits 8) 0xFF) * 256 + u8 (Z.land asc_bits 0xFF) in
    (asc / 2048 =? 2) && ((asc / 128) mod 16 =? i) && ((asc / 8) mod 16 =? c)
    && (asc mod 8 =? 0)).
  assert (H : Q i c = true).
  { apply (below_16 (fun c => Q i c)); [|exact Hc].
    apply (below_16 (fun i => forallb (fun c => Q i c) (map Z.of_nat (seq 0 16))));
      [vm_compute; reflexivity|exact Hi]. }
  unfold Q in H. cbv zeta in H. rewrite !andb_true_iff, !Z.eqb_eq in H. tauto.
Qed.

Lemma getSampleRateIndex_range rate : 0 <= getSampleRateIndex rate < 16.
Proof. unfold getSampleRateIndex. repeat (destruct (_ =? _); [lia|]). lia. Qed.

(** The [mp4a] sample entry, byte by byte: every length field is fixed. *)
Lemma mp4a_entry_shape rate ch :
  let channel_count := if 0 <? ch then ch else 2 in
  let sample_rate := if 0 <? rate then rate else 48000 in
  let asc_bits :=
    Z.lor (Z.lor (u16 (Z.shiftl (Z.land 2 0x1F) 11))
                 (u16 (Z.shiftl (Z.land (getSampleRateIndex sample_rate) 0x0F) 7)))
          (u16 (Z.shiftl (Z.land channel_count 0x0F) 3)) in
  mp4a_entry rate ch
  = [0; 0; 0; 75] ++ chars "mp4a" ++ zeros 6 ++ writeUint16BE 1 ++ zeros 8
    ++ writeUint16BE channel_count ++ [0; 16; 0; 0; 0; 0]
    ++ writeUint32BE (Z.shiftl sample_rate 16)
    ++ [0; 0; 0; 39] ++ chars "esds" ++ [0; 0; 0; 0]
    ++ [0x03; 25; 0; 2; 0]
    ++ [0x04; 17; 0x40; 0x15; 0; 0; 0; 0; 0; 0; 0; 0; 0; 0; 0]
    ++ [0x05; 2; u8 (Z.land (Z.shiftr asc_bits 8) 0xFF); u8 (Z.land asc_bits 0xFF)]
    ++ [0x06; 1; 0x02].
Proof. reflexivity. Qed.

(** X11: the [mp4a] sample entry describes the configured audio.  The entry
    is always 75 bytes long and says so in its size field; the two bytes
    of its AudioSpecificConfig hold object type 2 (AAC LC), the frequency
    index of the sample rate and the channel count modulo 16, with no
    extension bits; the 16-bit channel field and the 16.16 sample rate
    field hold the configured values as long as these are below 65536.  A
    sample rate or a channel count that is not positive is replaced by
    48000 and by 2. *)
Theorem mp4a_entry_describes_the_audio (rate ch : Z) :
  let entry := mp4a_entry rate ch in
  let sample_rate := if 0 <? rate then rate else 48000 in
  let channel_count := if 0 <? ch then ch else 2 in
  let asc := audio_specific_config entry in
  len entry = 75 /\ readBE32 entry = 75
  /\ asc / 2048 = 2
  /\ (asc / 128) mod 16 = getSampleRateIndex sample_rate
  /\ (asc / 8) mod 16 = channel_count mod 16
  /\ asc mod 8 = 0
  /\ (channel_count < 65536 -> be16_at entry 24 = channel_count)
  /\ (sample_rate < 65536 -> readBE32 (drop 32 entry) = sample_rate * 65536).
Proof.
  cbv zeta. rewrite mp4a_entry_shape. cbv zeta.
  set (sample_rate := if 0 <? rate then rate else 48000).
  set (channel_count := if 0 <? ch then ch else 2).
  assert (Hsr : 0 < sample_rate) by (unfold sample_rate; destruct (Z.ltb_spec 0 rate); lia).
  assert (Hcc : 0 < channel_count)
    by (unfold channel_count; destruct (Z.ltb_spec 0 ch); lia).
  pose proof (getSampleRateIndex_range sample_rate) as Hi.
  assert (Hc : Z.land channel_count 0x0F = channel_count mod 16)
    by (change 0x0F with (Z.ones 4); by rewrite Z.land_ones by lia).
  assert (Hcr : 0 <= channel_count mod 16 < 16) by (apply Z.mod_pos_bound; lia).
  rewrite Hc.
  pose proof (asc_fields (getSampleRateIndex sample_rate) (channel_count mod 16) Hi Hcr) as Ha.
  cbv zeta in Ha.
  split; [reflexivity|]. split; [reflexivity|].
  split; [apply Ha|]. split; [apply Ha|]. split; [apply Ha|]. split; [apply Ha|].
  split.
  - intros Hlt.
    change (be16_at _ 24) with (be16_at (writeUint16BE channel_count ++ []) 0).
    apply be16_at_writeUint16BE. lia.
  - intros Hlt.
    change (drop 32 _) with (writeUint32BE (Z.shiftl sample_rate 16)
      ++ [0; 0; 0; 39] ++ chars "esds" ++ [0; 0; 0; 0] ++ [0x03; 25; 0; 2; 0]
      ++ [0x04; 17; 0x40; 0x15; 0; 0; 0; 0; 0; 0; 0; 0; 0; 0; 0]
      ++ [0x05; 2;
          u8 (Z.land (Z.shiftr
            (Z.lor (Z.lor (u16 (Z.shiftl (Z.land 2 0x1F) 11))
               (u16 (Z.shiftl (Z.land (getSampleRateIndex sample_rate) 0x0F) 7)))
               (u16 (Z.shiftl (channel_count mod 16) 3))) 8) 0xFF);
          u8 (Z.land
            (Z.lor (Z.lor (u16 (Z.shiftl (Z.land 2 0x1F) 11))
               (u16 (Z.shiftl (Z.land (getSampleRateIndex sample_rate) 0x0F) 7)))
               (u16 (Z.shiftl (channel_count mod 16) 3))) 0xFF)]
      ++ [0x06; 1; 0x02]).
    rewrite readBE32_app4 by reflexivity.
    rewrite readBE32_writeUint32BE_u32, Z.shiftl_mul_pow2 by lia.
    change (2 ^ 16) with 65536. apply u32_id. lia.
Qed.

(** ** One write call in an open session *)

Section Sessions.

#[local] Arguments ftyp : simpl never.
#[local] Arguments mdat_header : simpl never.
#[local] Arguments encodeConfig : simpl never.
#[local] Arguments encodeFrame : simpl never.
#[local] Arguments journal_bytes : simpl never.
#[local] Arguments write_at : simpl never.
#[local] Arguments len : simpl never.
#[local] Arguments u64 : simpl never.
#[local] Arguments u32 : simpl never.
#[local] Arguments le_bytes : simpl never.
#[local] Arguments size_bytes : simpl never.
#[local] Arguments buildMoov : simpl never.
#[local] Arguments Z.add : simpl never.
#[local] Arguments Z.quot : simpl never.
#[local] Arguments Z.leb : simpl never.
#[local] Arguments Z.eqb : simpl never.

Lemma len_journal_bytes cfg journal f :
  journal_bytes cfg (journal ++ [f]) = journal_bytes cfg journal ++ encodeFrame f.
Proof.
  unfold journal_bytes. rewrite flat_map_app. cbn [flat_map].
  rewrite app_nil_r, !app_assoc. reflexivity.
Qed.

Lemma wrote_nofault data : wrote [] data = (len data, []).
Proof. destruct data; reflexivity. Qed.

Lemma wrote_all_or_less flts data :
  fst (wrote flts data) = len data \/ (fst (wrote flts data) =? len data) = false.
Proof.
  destruct data as [|b data]; [left; reflexivity|].
  unfold wrote. destruct (fst (pop flts)) as [k|]; [right|left; reflexivity].
  cbn [fst]. apply short_write. unfold len. cbn [length]. lia.
Qed.

(** A write through a handle that stands at the end of its file. *)
Lemma file_write_end f data fs flts c :
  fs !! f_path f = Some c -> f_append f = false -> f_pos f = len c ->
  file_write f data (mkWorld fs flts)
  = (Some (fst (wrote flts data),
           mkFile (f_path f) (len c + fst (wrote flts data)) false),
     mkWorld (<[f_path f := c ++ take (Z.to_nat (fst (wrote flts data))) data]> fs)
             (snd (wrote flts data))).
Proof.
  intros Hc Ha Hp. destruct data as [|b data].
  - rewrite file_write_nil. cbn [wrote fst snd take]. rewrite app_nil_r, Z.add_0_r.
    rewrite insert_id by done. destruct f; cbn in *; subst; reflexivity.
  - rewrite (file_write_run _ _ _ _ c) by done. cbv zeta. rewrite Ha, Hp.
    rewrite write_at_end. reflexivity.
Qed.

Lemma writeFrameToMdat_run r fs flts data p c :
  mp4_file_ r = Some (mkFile p (len c) false) -> fs !! p = Some c ->
  writeFrameToMdat data (mkMachine r (mkWorld fs flts))
  = (if fst (wrote flts data) =? len data then Some tt else None,
     mkMachine (set_mp4_file (Some (mkFile p (len c + fst (wrote flts data)) false)) r)
       (mkWorld (<[p := c ++ take (Z.to_nat (fst (wrote flts data))) data]> fs)
                (snd (wrote flts data)))).
Proof.
  intros Hf Hc. unfold writeFrameToMdat. rewrite bind_this. cbn [rec]. rewrite Hf.
  rewrite run_io. cbn [disk rec].
  rewrite (file_write_end _ _ _ _ c) by done. cbn [f_path].
  rewrite bind_assign. cbn [rec disk].
  destruct (fst (wrote flts data) =? len data); reflexivity.
Qed.

Lemma logFrameToIndex_run r fs flts frame p c :
  idx_file_ r = Some (mkFile p (len c) false) -> fs !! p = Some c ->
  logFrameToIndex frame (mkMachine r (mkWorld fs flts))
  = let n := fst (wrote flts (encodeFrame frame)) in
    let r1 := set_idx_file (Some (mkFile p (len c + n) false)) r in
    (if n =? sizeof_FrameInfo then Some tt else None,
     mkMachine
       (if n =? sizeof_FrameInfo
        then if track_id frame =? 0
             then set_video_frames (video_frames_ r1 ++ [frame]) r1
             else if track_id frame =? 1
                  then set_audio_frames (audio_frames_ r1 ++ [frame]) r1
                  else r1
        else r1)
       (mkWorld (<[p := c ++ take (Z.to_nat n) (encodeFrame frame)]> fs)
                (snd (wrote flts (encodeFrame frame))))).
Proof.
  intros Hf Hc. unfold logFrameToIndex. rewrite bind_this. cbn [rec]. rewrite Hf.
  rewrite run_io. cbn [disk rec].
  rewrite (file_write_end _ _ _ _ c) by done. cbn [f_path].
  rewrite bind_assign. cbn [rec disk]. cbv zeta.
  destruct (fst (wrote flts (encodeFrame frame)) =? sizeof_FrameInfo);
    [|reflexivity].
  rewrite bind_guard_true.
  destruct (track_id frame =? 0); [reflexivity|].
  destruct (track_id frame =? 1); reflexivity.
Qed.

Lemma recorder_eta r :
  set_frames_since_flush (frames_since_flush_ r) (set_last_flush_time (last_flush_time_ r) r)
  = r.
Proof. destruct r; reflexivity. Qed.

Lemma pop_nil_l : pop [] = (None, []).
Proof. reflexivity. Qed.

(** A flush touches no file; of the recorder it changes the flush
    bookkeeping only; and with no fault pending it succeeds. *)
Lemma flushIfNeeded_effect now m :
  exists t n flts',
    snd (flushIfNeeded now m)
    = mkMachine (set_frames_since_flush n (set_last_flush_time t (rec m)))
                (mkWorld (files (disk m)) flts')
    /\ (faults (disk m) = [] ->
        flts' = []
        /\ (is_Some (mp4_file_ (rec m)) -> is_Some (idx_file_ (rec m)) ->
            fst (flushIfNeeded now m) = Some tt)).
Proof.
  destruct m as [r [fs flts]]. unfold flushIfNeeded. rewrite bind_this. cbn [rec disk files faults].
  match goal with |- context [if ?c then _ else _] => destruct c end.
  2:{ exists (last_flush_time_ r), (frames_since_flush_ r), flts.
      rewrite recorder_eta. split; [reflexivity|]. intros ->. done. }
  destruct (mp4_file_ r) as [f|], (idx_file_ r) as [g|].
  2,3,4: exists (last_flush_time_ r), (frames_since_flush_ r), flts;
         rewrite recorder_eta; split; [reflexivity|]; intros ->; split; [done|];
         intros [? ?] [? ?]; discriminate.
  rewrite run_io. cbn [disk rec]. rewrite file_flush_run.
  destruct flts as [|[k|] flts]; cbn [pop fst snd].
  2:{ rewrite bind_guard_false. exists (last_flush_time_ r), (frames_since_flush_ r), flts.
      rewrite recorder_eta. split; [reflexivity|]. discriminate. }
  - rewrite bind_guard_true.
    repeat (rewrite run_io; cbn [disk rec];
            first [rewrite file_flush_run | rewrite file_sync_run];
            cbn [pop fst snd]; rewrite bind_guard_true).
    rewrite !bind_assign. cbn [rec disk].
    exists now, 0, []. split; [reflexivity|]. done.
  - rewrite bind_guard_true.
    rewrite run_io. cbn [disk rec]. rewrite file_flush_run.
    destruct flts as [|[k|] flts]; cbn [pop fst snd].
    2:{ rewrite bind_guard_false. exists (last_flush_time_ r), (frames_since_flush_ r), flts.
        rewrite recorder_eta. split; [reflexivity|]. discriminate. }
    + rewrite bind_guard_true.
      repeat (rewrite run_io; cbn [disk rec];
              first [rewrite file_flush_run | rewrite file_sync_run];
              cbn [pop fst snd]; rewrite bind_guard_true).
      rewrite !bind_assign. cbn [rec disk].
      exists now, 0, []. split; [reflexivity|]. discriminate.
    + rewrite bind_guard_true.
      rewrite run_io. cbn [disk rec]. rewrite file_sync_run.
      destruct flts as [|[k|] flts]; cbn [pop fst snd].
      2:{ rewrite bind_guard_false.
          exists (last_flush_time_ r), (frames_since_flush_ r), flts.
          rewrite recorder_eta. split; [reflexivity|]. discriminate. }
      * rewrite bind_guard_true.
        rewrite run_io. cbn [disk rec]. rewrite file_sync_run. cbn [pop fst snd].
        rewrite bind_guard_true, !bind_assign. cbn [rec disk].
        exists now, 0, []. split; [reflexivity|]. discriminate.
      * rewrite bind_guard_true.
        rewrite run_io. cbn [disk rec]. rewrite file_sync_run.
        destruct flts as [|[k|] flts]; cbn [pop fst snd].
        2:{ rewrite bind_guard_false.
            exists (last_flush_time_ r), (frames_since_flush_ r), flts.
            rewrite recorder_eta. split; [reflexivity|]. discriminate. }
        -- rewrite bind_guard_true, !bind_assign. cbn [rec disk].
           exists now, 0, []. split; [reflexivity|]. discriminate.
        -- rewrite bind_guard_true, !bind_assign. cbn [rec disk].
           exists now, 0, flts. split; [reflexivity|]. discriminate.
Qed.

Lemma filter_app_one {A} (p : A -> bool) (l : list A) (x : A) :
  List.filter p (l ++ [x]) = List.filter p l ++ (if p x then [x] else []).
Proof. rewrite List.filter_app. cbn. destruct (p x); reflexivity. Qed.

Lemma count_frame_run sz m :
  count_frame sz m
  = (Some tt,
     mkMachine
       (set_frames_since_flush (u32 (frames_since_flush_ (rec m) + 1))
          (set_frame_count (u64 (frame_count_ (rec m) + 1))
             (set_mdat_size (u64 (mdat_size_ (rec m) + sz)) (rec m))))
       (disk m)).
Proof. destruct m as [r w]. destruct r. reflexivity. Qed.

Lemma journaling_flush_fields path cfg journal payload r w t n :
  journaling path cfg journal payload (mkMachine r w) ->
  journaling path cfg journal payload
    (mkMachine (set_frames_since_flush n (set_last_flush_time t r)) w).
Proof. intros []. constructor; cbn in *; assumption. Qed.

(** A session is a journaling session whose frame lists are the records of
    its journal, track by track. *)
Lemma session_journaling path cfg journal payload m :
  session path cfg journal payload m
  <-> journaling path cfg journal payload m
      /\ video_frames_ (rec m) = List.filter is_video journal
      /\ audio_frames_ (rec m) = List.filter is_audio journal.
Proof.
  split.
  - intros [H1 H2 H3 H4 H5 H6 H7 H8 H9 H10 H11 H12 H13]. by repeat split.
  - intros ([H1 H2 H3 H4 H5 H6 H7 H8 H9 H10 H11] & H12 & H13). by constructor.
Qed.

(** The stretch both writers share: sample, record, counters, flush. *)
Lemma journal_stretch path cfg journal payload data frame now r fs flts :
  journaling path cfg journal payload (mkMachine r (mkWorld fs flts)) ->
  let op := writeFrameToMdat data ≫= fun _ =>
            logFrameToIndex frame ≫= fun _ =>
            count_frame (len data) ≫= fun _ => flushIfNeeded now in
  (forall m', op (mkMachine r (mkWorld fs flts)) = (Some tt, m') ->
     journaling path cfg (journal ++ [frame]) (payload ++ data) m'
     /\ listed frame r (rec m'))
  /\ (flts = [] ->
      exists m', op (mkMachine r (mkWorld fs flts)) = (Some tt, m') /\ faults (disk m') = []).
Proof.
  intros Hs op. subst op.
  assert (Hs' := Hs). destruct Hs' as [Hrec Hn1 Hn2 Hn3 Hcfg Hms Hmp4 Hmp4f Hidx Hidxf Hmz].
  cbn [rec disk files] in *.
  rewrite bind_run.
  rewrite (writeFrameToMdat_run _ _ _ _ path (ftyp ++ mdat_header ++ payload)) by assumption.
  destruct (wrote_all_or_less flts data) as [En|En].
  2:{ rewrite En. split; [discriminate|]. intros ->. rewrite wrote_nofault in En.
      cbn [fst] in En. rewrite Z.eqb_refl in En. discriminate. }
  rewrite En, Z.eqb_refl, take_len.
  set (fs1 := <[path := (ftyp ++ mdat_header ++ payload) ++ data]> fs).
  set (r1 := set_mp4_file _ r).
  rewrite bind_run.
  assert (Hidx1 : fs1 !! idx_name path = Some (journal_bytes cfg journal)).
  { subst fs1. rewrite lookup_insert_ne by apply path_ne_idx. assumption. }
  rewrite (logFrameToIndex_run _ _ _ _ (idx_name path) (journal_bytes cfg journal))
    by (subst r1; cbn; assumption).
  cbv zeta.
  assert (Hsz : sizeof_FrameInfo = len (encodeFrame frame)) by (by rewrite len_encodeFrame).
  rewrite Hsz.
  destruct (wrote_all_or_less (snd (wrote flts data)) (encodeFrame frame)) as [Em|Em].
  2:{ rewrite Em.
      split; [discriminate|]. intros ->. rewrite wrote_nofault in Em. cbn [snd] in Em.
      rewrite wrote_nofault in Em. cbn [fst] in Em. rewrite Z.eqb_refl in Em. discriminate. }
  rewrite Em, Z.eqb_refl, take_len.
  set (fs2 := <[idx_name path := journal_bytes cfg journal ++ encodeFrame frame]> fs1).
  set (flts2 := snd (wrote (snd (wrote flts data)) (encodeFrame frame))).
  set (r2 := if track_id frame =? 0 then _ else _).
  rewrite bind_run, count_frame_run. cbn [rec disk].
  set (r3 := set_frames_since_flush _ _).
  destruct (flushIfNeeded_effect now (mkMachine r3 (mkWorld fs2 flts2)))
    as (t & n & flts' & Hsnd & Hok).
  cbn [rec disk files faults] in Hsnd, Hok.
  assert (Hl : listed frame r r2).
  { subst r2 r1. unfold listed, is_video, is_audio.
    destruct (Z.eqb_spec (track_id frame) 0) as [E0|E0].
    - rewrite E0. change (0 =? 1) with false. cbn. by rewrite app_nil_r.
    - destruct (track_id frame =? 1); cbn; by rewrite ?app_nil_r. }
  assert (Hsess : journaling path cfg (journal ++ [frame]) (payload ++ data)
            (mkMachine (set_frames_since_flush n (set_last_flush_time t r3))
                       (mkWorld fs2 flts'))).
  { apply journaling_flush_fields.
    assert (Hrest : mp4_file_ r2 = mp4_file_ r1 /\ idx_file_ r2
              = Some (mkFile (idx_name path)
                        (len (journal_bytes cfg journal) + len (encodeFrame frame)) false)
              /\ recording_ r2 = true /\ mp4_filename_ r2 = path
              /\ idx_filename_ r2 = idx_name path /\ lock_filename_ r2 = lock_name path
              /\ config_ r2 = cfg /\ mdat_start_ r2 = 40 /\ mdat_size_ r2 = u64 (len payload)).
    { subst r2 r1. destruct (track_id frame =? 0); [|destruct (track_id frame =? 1)];
        cbn; repeat split; assumption. }
    destruct Hrest as (H1 & H2 & H3 & H4 & H5 & H6 & H7 & H8 & H9).
    constructor; subst r3; cbn [rec disk files set_frames_since_flush set_frame_count
      set_mdat_size recording_ mp4_filename_ idx_filename_ lock_filename_ config_
      mdat_start_ mp4_file_ idx_file_ mdat_size_ video_frames_ audio_frames_]; try assumption.
    - subst fs2 fs1. rewrite lookup_insert_ne by (apply not_eq_sym, path_ne_idx).
      rewrite lookup_insert_eq. by rewrite <- !app_assoc.
    - rewrite H1. subst r1. cbn. by rewrite <- !len_app, <- !app_assoc.
    - subst fs2. rewrite lookup_insert_eq. by rewrite len_journal_bytes.
    - rewrite H2, len_journal_bytes, len_app. reflexivity.
    - rewrite H9, len_app. unfold u64. by rewrite Zplus_mod_idemp_l. }
  assert (Hl3 : listed frame r (set_frames_since_flush n (set_last_flush_time t r3))).
  { subst r3. destruct Hl as [Hl1 Hl2]. split; cbn; assumption. }
  split.
  - intros m' Hrun.
    destruct (flushIfNeeded now (mkMachine r3 (mkWorld fs2 flts2))) as [res mf].
    cbn [snd] in Hsnd. injection Hrun as _ <-. subst mf. split; [exact Hsess|exact Hl3].
  - intros ->. subst flts2. rewrite !wrote_nofault in *. cbn [snd] in *.
    destruct (Hok eq_refl) as [-> Hres].
    destruct (flushIfNeeded now (mkMachine r3 (mkWorld fs2 []))) as [res mf].
    cbn [fst snd] in *. subst mf.
    assert (Hh : is_Some (mp4_file_ r3) /\ is_Some (idx_file_ r3)).
    { destruct Hsess. cbn in *. eauto. }
    rewrite Hres by apply Hh. eexists. split; reflexivity.
Qed.

(** A write call that returns true appends its sample to the payload and
    its record to the journal and to the frame list of its track. *)
Lemma journal_call_step path cfg journal payload c m :
  journaling path cfg journal payload m ->
  (forall m', run_call c m = (Some tt, m') ->
     journaling path cfg (journal ++ [record_of c (u64 (len payload))])
                (payload ++ call_data c) m'
     /\ listed (record_of c (u64 (len payload))) (rec m) (rec m'))
  /\ (faults (disk m) = [] ->
      exists m', run_call c m = (Some tt, m') /\ faults (disk m') = []).
Proof.
  intros Hs. destruct m as [r [fs flts]]. assert (Hs' := Hs).
  destruct Hs' as [Hrec Hn1 Hn2 Hn3 Hcfg Hms Hmp4 Hmp4f Hidx Hidxf Hmz].
  cbn [rec disk files faults] in *.
  destruct c as [data pts key now stack|data pts now stack];
    cbn [run_call record_of call_data].
  - unfold writeVideoFrame. rewrite bind_this. cbn [rec].
    rewrite Hrec, bind_guard_true, Hmz. cbv zeta.
    apply (journal_stretch path cfg journal payload data); exact Hs.
  - unfold writeAudioFrame. rewrite bind_this. cbn [rec].
    rewrite Hrec, bind_guard_true. cbv zeta.
    pose proof (journal_stretch path cfg journal payload data
                  (mkFrame (u64 (len payload)) (len data) pts pts 1 1 stack) now r fs flts Hs)
      as Hw.
    cbv zeta in Hw. rewrite bind_run in Hw. rewrite bind_run.
    rewrite (writeFrameToMdat_run _ _ _ _ path (ftyp ++ mdat_header ++ payload)) in *
      by assumption.
    destruct (fst (wrote flts data) =? len data); [|exact Hw].
    rewrite bind_this. cbn [rec mdat_size_ set_mp4_file]. rewrite Hmz. exact Hw.
Qed.

Lemma listed_filter journal frame r r' :
  listed frame r r' ->
  video_frames_ r = List.filter is_video journal ->
  audio_frames_ r = List.filter is_audio journal ->
  video_frames_ r' = List.filter is_video (journal ++ [frame])
  /\ audio_frames_ r' = List.filter is_audio (journal ++ [frame]).
Proof. intros [-> ->] -> ->. by rewrite !filter_app_one. Qed.

(** The same step, for a recorder whose frame lists are those of the journal. *)
Lemma write_call_step path cfg journal payload c m :
  session path cfg journal payload m ->
  (forall m', run_call c m = (Some tt, m') ->
     session path cfg (journal ++ [record_of c (u64 (len payload))])
             (payload ++ call_data c) m')
  /\ (faults (disk m) = [] ->
      exists m', run_call c m = (Some tt, m') /\ faults (disk m') = []).
Proof.
  intros Hs. apply session_journaling in Hs as (Hj & Hv & Ha).
  destruct (journal_call_step path cfg journal payload c m Hj) as [Hstep Hrun].
  split; [|exact Hrun].
  intros m' Hm. destruct (Hstep m' Hm) as [Hj' Hl].
  apply session_journaling. split; [exact Hj'|]. by apply (listed_filter journal _ (rec m)).
Qed.

(** ** Starting a session *)

Ltac step_in H :=
  first
    [ rewrite bind_this in H; cbn [rec] in H
    | rewrite bind_assign in H; cbn [rec disk] in H
    | rewrite bind_guard_true in H
    | rewrite bind_guard_false in H
    | rewrite bind_ret in H
    | rewrite run_io in H; cbn [rec disk] in H ].

Ltac pop_case H :=
  match type of H with
  | context [fst (pop ?f)] => destruct (fst (pop f)) as [?k|] eqn:?Hpop
  end.

Ltac failed_branch Hres :=
  split;
  [ intros ? Hrun; rewrite Hres in Hrun; discriminate
  | intros ->;
    repeat first [ rewrite wrote_nofault in * | progress cbn [pop fst snd] in * ];
    rewrite ?Z.eqb_refl in *; cbn in *; discriminate ].

Lemma createFiles_run path r fs flts :
  idx_filename_ r = idx_name path -> lock_filename_ r = lock_name path ->
  let m := mkMachine r (mkWorld fs flts) in
  let done_rec l :=
    set_lock_file l
      (set_idx_file (Some (mkFile (idx_name path) 36 false))
         (set_mdat_size 0 (set_mdat_start 40
            (set_mp4_file (Some (mkFile path 40 false)) r)))) in
  let done_fs lockc :=
    <[lock_name path := lockc]>
      (<[idx_name path := le_bytes 4 MAGIC ++ encodeConfig (config_ r)]>
         (<[path := ftyp ++ mdat_header]> fs)) in
  (forall m', createFiles path m = (Some tt, m') ->
     exists l lockc flts', m' = mkMachine (done_rec l) (mkWorld (done_fs lockc) flts'))
  /\ (flts = [] ->
      createFiles path m
      = (Some tt, mkMachine (done_rec (Some (mkFile (lock_name path) 9 false)))
                            (mkWorld (done_fs (chars "RECORDING")) []))).
Proof.
  intros Hi Hl m done_rec done_fs. subst m done_rec done_fs.
  destruct r as [n1 n2 n3 f1 f2 f3 cfg0 rc fc ms mz vf af sp pp lt fsf].
  cbn [idx_filename_ lock_filename_ config_] in *. subst.
  match goal with
  | |- context [createFiles path ?m] => remember (createFiles path m) as res eqn:Hres
  end.
  unfold createFiles in Hres.
  step_in Hres. rewrite fs_open_run in Hres. cbv zeta in Hres.
  pop_case Hres; [step_in Hres; failed_branch Hres|].
  do 2 step_in Hres.
  rewrite (file_write_end _ _ _ _ []) in Hres by (rewrite ?lookup_insert_eq; done).
  cbn [f_path] in Hres. rewrite insert_insert_eq in Hres. do 1 step_in Hres.
  destruct (wrote_all_or_less (snd (pop flts)) ftyp) as [E1|E1]; rewrite E1 in Hres.
  2:{ step_in Hres. failed_branch Hres. }
  rewrite Z.eqb_refl, take_len in Hres. step_in Hres.
  step_in Hres.
  rewrite (file_write_end _ _ _ _ ([] ++ ftyp)) in Hres by (rewrite ?lookup_insert_eq; done).
  cbn [f_path] in Hres. rewrite insert_insert_eq in Hres. step_in Hres.
  destruct (wrote_all_or_less (snd (wrote (snd (pop flts)) ftyp)) mdat_header) as [E2|E2];
    rewrite E2 in Hres.
  2:{ step_in Hres. failed_branch Hres. }
  rewrite Z.eqb_refl, take_len in Hres. step_in Hres.
  unfold file_tell in Hres. cbn [f_pos] in Hres.
  change (len ([] ++ ftyp) + len mdat_header) with 40 in Hres.
  change (negb (40 <? 0)) with true in Hres. change (u64 40) with 40 in Hres.
  do 4 step_in Hres.
  cbn [idx_filename_ lock_filename_ config_ set_mdat_size set_mdat_start set_mp4_file] in Hres.
  step_in Hres. rewrite fs_open_run in Hres. cbv zeta in Hres.
  pop_case Hres; [step_in Hres; failed_branch Hres|].
  do 2 step_in Hres.
  rewrite (file_write_end _ _ _ _ []) in Hres by (rewrite ?lookup_insert_eq; done).
  cbn [f_path] in Hres. rewrite insert_insert_eq in Hres. step_in Hres.
  change sizeof_uint32 with (len (le_bytes 4 MAGIC)) in Hres.
  match type of Hres with context [wrote ?f (le_bytes 4 MAGIC)] =>
    destruct (wrote_all_or_less f (le_bytes 4 MAGIC)) as [E3|E3]; rewrite E3 in Hres end.
  2:{ step_in Hres. failed_branch Hres. }
  rewrite Z.eqb_refl, take_len in Hres. do 2 step_in Hres.
  cbn [config_ set_idx_file] in Hres.
  rewrite (file_write_end _ _ _ _ ([] ++ le_bytes 4 MAGIC)) in Hres
    by (rewrite ?lookup_insert_eq; done).
  cbn [f_path] in Hres. rewrite insert_insert_eq in Hres. step_in Hres.
  assert (Hcs : sizeof_RecorderConfig = len (encodeConfig cfg0))
    by (by rewrite len_encodeConfig).
  rewrite Hcs in Hres. clear Hcs.
  match type of Hres with context [wrote ?f (encodeConfig ?c)] =>
    destruct (wrote_all_or_less f (encodeConfig c)) as [E4|E4]; rewrite E4 in Hres end.
  2:{ step_in Hres. failed_branch Hres. }
  rewrite Z.eqb_refl, take_len in Hres. do 2 step_in Hres.
  rewrite file_flush_run in Hres. step_in Hres.
  cbn [lock_filename_ set_idx_file] in Hres.
  rewrite fs_open_run in Hres. cbv zeta in Hres.
  pop_case Hres; [step_in Hres; failed_branch Hres|].
  do 2 step_in Hres.
  rewrite (file_write_end _ _ _ _ []) in Hres by (rewrite ?lookup_insert_eq; done).
  cbn [f_path] in Hres. rewrite insert_insert_eq in Hres. do 2 step_in Hres.
  rewrite file_flush_run in Hres. unfold mret, op_ret in Hres.
  rewrite len_encodeConfig in Hres.
  split.
  - intros m' Hrun. rewrite Hres in Hrun. injection Hrun as <-.
    eexists _, _, _. reflexivity.
  - intros ->. rewrite Hres.
    repeat first [ rewrite wrote_nofault | progress cbn [pop fst snd] ].
    reflexivity.
Qed.


Lemma start_journal path cfg now r fs flts :
  recording_ r = false ->
  let m := mkMachine r (mkWorld fs flts) in
  (forall m', start path cfg now m = (Some tt, m') ->
     journaling path cfg [] [] m'
     /\ video_frames_ (rec m') = video_frames_ r
     /\ audio_frames_ (rec m') = audio_frames_ r
     /\ is_Some (files (disk m') !! lock_name path)
     /\ (forall p, p <> path -> p <> idx_name path -> p <> lock_name path ->
                   files (disk m') !! p = fs !! p))
  /\ (flts = [] ->
      exists m', start path cfg now m = (Some tt, m') /\ faults (disk m') = []).
Proof.
  intros Hrec m. subst m. unfold start.
  rewrite bind_this. cbn [rec]. rewrite Hrec. cbn [negb]. rewrite bind_guard_true.
  rewrite !bind_assign. cbn [rec disk]. rewrite bind_run.
  set (r0 := set_config cfg _).
  destruct (createFiles_run path r0 fs flts) as [Hinv Hfwd]; [reflexivity..|].
  cbv zeta in Hinv, Hfwd.
  split.
  - intros m' Hrun.
    destruct (createFiles path (mkMachine r0 (mkWorld fs flts))) as [[[]|] m1];
      [|discriminate].
    destruct (Hinv m1 eq_refl) as (l & lockc & flts' & ->).
    rewrite !bind_assign in Hrun. cbn [rec disk] in Hrun. injection Hrun as <-.
    cbn [rec disk files]. split; [|split; [|split; [|split]]].
    + subst r0. constructor; cbn; try done.
      * rewrite lookup_insert_ne by (apply not_eq_sym, path_ne_lock).
        rewrite lookup_insert_ne by (apply not_eq_sym, path_ne_idx).
        rewrite lookup_insert_eq. by rewrite app_nil_r.
      * rewrite lookup_insert_ne by (apply not_eq_sym, idx_ne_lock).
        rewrite lookup_insert_eq. unfold journal_bytes. cbn [flat_map].
        by rewrite app_nil_r.
      * unfold journal_bytes. cbn [flat_map]. rewrite !len_app, len_encodeConfig.
        reflexivity.
    + subst r0. by destruct r.
    + subst r0. by destruct r.
    + rewrite lookup_insert_eq. eauto.
    + intros p H1 H2 H3. rewrite !lookup_insert_ne by done. reflexivity.
  - intros Hf. rewrite (Hfwd Hf). rewrite !bind_assign. cbn [rec disk].
    eexists. split; reflexivity.
Qed.

Lemma start_run path cfg now r fs flts :
  recording_ r = false -> video_frames_ r = [] -> audio_frames_ r = [] ->
  let m := mkMachine r (mkWorld fs flts) in
  (forall m', start path cfg now m = (Some tt, m') ->
     session path cfg [] [] m'
     /\ is_Some (files (disk m') !! lock_name path)
     /\ (forall p, p <> path -> p <> idx_name path -> p <> lock_name path ->
                   files (disk m') !! p = fs !! p))
  /\ (flts = [] ->
      exists m', start path cfg now m = (Some tt, m') /\ faults (disk m') = []).
Proof.
  intros Hrec Hv Ha m. subst m.
  destruct (start_journal path cfg now r fs flts Hrec) as [Hinv Hfwd].
  cbv zeta in Hinv, Hfwd. split; [|exact Hfwd].
  intros m' Hrun. destruct (Hinv m' Hrun) as (Hj & Hv' & Ha' & Hl & Hp).
  split; [|split; assumption].
  apply session_journaling. split; [exact Hj|]. cbn [List.filter]. split; congruence.
Qed.

(** A run of successful calls keeps the journal and the payload in step
    with the calls, whatever the frame lists held at its start. *)
Lemma run_calls_journaling path cfg cs : forall journal payload m results m',
  journaling path cfg journal payload m ->
  run_calls cs m = (results, m') ->
  Forall (fun b => b = true) results ->
  journaling path cfg (journal ++ journal_from cs (len payload)) (payload ++ payload_of cs) m'.
Proof.
  induction cs as [|c cs IH]; intros journal payload m results m' Hs Hrun Hall.
  - cbn in Hrun. injection Hrun as <- <-. cbn. by rewrite !app_nil_r.
  - cbn [run_calls] in Hrun.
    destruct (run_call c m) as [res m1] eqn:Hc.
    destruct (run_calls cs m1) as [rs m2] eqn:Hcs.
    injection Hrun as <- <-. inversion Hall as [|? ? Hb Hrest]; subst.
    destruct res as [[]|]; [|apply bool_decide_eq_true in Hb; by destruct Hb].
    destruct (journal_call_step path cfg journal payload c m Hs) as [Hstep _].
    destruct (Hstep m1 Hc) as [Hj _].
    specialize (IH _ _ _ _ _ Hj Hcs Hrest).
    cbn [journal_from payload_of flat_map].
    rewrite len_app in IH. rewrite <- !app_assoc in IH. exact IH.
Qed.

(** A run of successful calls keeps the session open and extends journal
    and payload call by call. *)
Lemma run_calls_session path cfg cs : forall journal payload m results m',
  session path cfg journal payload m ->
  run_calls cs m = (results, m') ->
  Forall (fun b => b = true) results ->
  session path cfg (journal ++ journal_from cs (len payload)) (payload ++ payload_of cs) m'.
Proof.
  induction cs as [|c cs IH]; intros journal payload m results m' Hs Hrun Hall.
  - cbn in Hrun. injection Hrun as <- <-. cbn. by rewrite !app_nil_r.
  - cbn [run_calls] in Hrun.
    destruct (run_call c m) as [res m1] eqn:Hc.
    destruct (run_calls cs m1) as [rs m2] eqn:Hcs.
    injection Hrun as <- <-. inversion Hall as [|? ? Hb Hrest]; subst.
    destruct res as [[]|]; [|apply bool_decide_eq_true in Hb; by destruct Hb].
    destruct (write_call_step path cfg journal payload c m Hs) as [Hstep _].
    specialize (Hstep m1 Hc).
    specialize (IH _ _ _ _ _ Hstep Hcs Hrest).
    cbn [journal_from payload_of flat_map].
    rewrite len_app in IH. rewrite <- !app_assoc in IH. exact IH.
Qed.

(** ** Offsets in the journal *)

Lemma sum_sizes_payload cs : len (payload_of cs) = sum_sizes cs.
Proof.
  induction cs as [|c cs IH]; [reflexivity|].
  unfold payload_of in *. cbn [flat_map sum_sizes fold_right]. rewrite len_app, IH.
  reflexivity.
Qed.

Lemma sum_sizes_nonneg cs : 0 <= sum_sizes cs.
Proof. rewrite <- sum_sizes_payload. apply len_nonneg. Qed.

Lemma sum_sizes_cons c cs : sum_sizes (c :: cs) = len (call_data c) + sum_sizes cs.
Proof. reflexivity. Qed.

Lemma offset_record_of c w : offset (record_of c w) = w.
Proof. destruct c; reflexivity. Qed.

Lemma journal_from_at cs : forall written i c,
  cs !! i = Some c ->
  journal_from cs written !! i
  = Some (record_of c (u64 (written + sum_sizes (take i cs)))).
Proof.
  induction cs as [|c0 cs IH]; intros written i c H; [destruct i; discriminate|].
  destruct i as [|i]; cbn [journal_from].
  - injection H as ->. cbn [take sum_sizes fold_right]. by rewrite Z.add_0_r.
  - change ((c0 :: cs) !! S i) with (cs !! i) in H.
    change ((?x :: ?l) !! S i) with (l !! i).
    rewrite (IH _ _ _ H). cbn [take]. rewrite sum_sizes_cons. do 3 f_equal. lia.
Qed.

Lemma length_journal_from cs : forall written, length (journal_from cs written) = length cs.
Proof. induction cs as [|c cs IH]; intros w; cbn [journal_from length]; by rewrite ?IH. Qed.

Lemma sum_sizes_app l1 l2 : sum_sizes (l1 ++ l2) = sum_sizes l1 + sum_sizes l2.
Proof.
  induction l1 as [|c l1 IH]; [reflexivity|].
  cbn [app]. rewrite !sum_sizes_cons, IH. lia.
Qed.

Lemma sum_sizes_take_mono cs (i j : nat) :
  (i <= j)%nat ->
  0 <= sum_sizes (take i cs) <= sum_sizes (take j cs) /\ sum_sizes (take j cs) <= sum_sizes cs.
Proof.
  intros Hij. pose proof (sum_sizes_nonneg (take i cs)).
  assert (Hj : sum_sizes (take j cs) <= sum_sizes cs).
  { rewrite <- (take_drop j cs) at 2. rewrite sum_sizes_app.
    pose proof (sum_sizes_nonneg (drop j cs)). lia. }
  assert (Hi : sum_sizes (take i cs) <= sum_sizes (take j cs)).
  { replace (take i cs) with (take i (take j cs)) by (rewrite take_take; f_equal; lia).
    rewrite <- (take_drop i (take j cs)) at 2. rewrite sum_sizes_app.
    pose proof (sum_sizes_nonneg (drop i (take j cs))). lia. }
  lia.
Qed.

(** The [i]-th record of a journal file starts at byte 36 + 40 i. *)
Lemma drop_journal_record cfg journal tail : forall i f,
  journal !! i = Some f ->
  exists rest, drop (36 + 40 * i) (journal_bytes cfg journal ++ tail) = encodeFrame f ++ rest.
Proof.
  intros i f Hf. unfold journal_bytes. rewrite <- !app_assoc, <- drop_drop.
  change (drop 36 (le_bytes 4 MAGIC ++ ?x)) with (drop 32 x).
  rewrite drop_app_length' by (by rewrite length_encodeConfig).
  revert i f Hf. induction journal as [|g journal IH]; intros i f Hf;
    [destruct i; discriminate|].
  destruct i as [|i].
  - injection Hf as ->. cbn [flat_map]. rewrite <- app_assoc. eexists. reflexivity.
  - change ((g :: journal) !! S i) with (journal !! i) in Hf.
    cbn [flat_map]. rewrite <- app_assoc.
    replace (40 * S i)%nat with (40 + 40 * i)%nat by lia. rewrite <- drop_drop.
    rewrite drop_encodeFrame. by apply IH.
Qed.

Lemma field_drop c (a k n : nat) : field c (a + k) n = field (drop a c) k n.
Proof. unfold field. by rewrite drop_drop. Qed.

(** What a reader finds in the [i]-th record of a journal file. *)
Lemma journal_record_fields cfg journal tail i f :
  journal !! i = Some f ->
  let c := journal_bytes cfg journal ++ tail in
  journal_offset c i = offset f mod 2 ^ 64
  /\ journal_size c i = size f mod 2 ^ 32
  /\ journal_pts c i = i64 (pts f mod 2 ^ 64)
  /\ journal_dts c i = i64 (dts f mod 2 ^ 64)
  /\ journal_keyframe c i = u8 (is_keyframe f)
  /\ journal_track c i = u8 (track_id f).
Proof.
  intros Hf c. subst c.
  destruct (drop_journal_record cfg journal tail i f Hf) as [rest Hd].
  destruct (field_encodeFrame f rest) as (E1 & E2 & E3 & E4 & E5 & E6 & _).
  unfold journal_offset, journal_size, journal_pts, journal_dts, journal_keyframe,
    journal_track.
  set (c := journal_bytes cfg journal ++ tail) in *.
  replace (field c (36 + 40 * i) 8) with (field (drop (36 + 40 * i) c) 0 8)
    by (rewrite <- field_drop; f_equal; lia).
  rewrite !(field_drop c (36 + 40 * i)), Hd, E1, E2, E3, E4, E5, E6. done.
Qed.

Lemma len_journal cfg frames : len (journal_bytes cfg frames) = 36 + 40 * len frames.
Proof.
  unfold journal_bytes. rewrite !len_app, len_encodeConfig.
  change (len (le_bytes 4 MAGIC)) with 4.
  assert (H : len (flat_map encodeFrame frames) = 40 * len frames).
  { unfold len. rewrite length_flat_map_encodeFrame. lia. }
  rewrite H. lia.
Qed.

Lemma start_some_not_recording path cfg now m m' :
  start path cfg now m = (Some tt, m') -> recording_ (rec m) = false.
Proof.
  unfold start. rewrite bind_this. destruct (recording_ (rec m)); [|done].
  cbn [negb]. rewrite bind_guard_false. discriminate.
Qed.

Lemma track_record_of c w : track_id (record_of c w) = call_track c.
Proof. destruct c; reflexivity. Qed.

Lemma size_record_of c w : size (record_of c w) = len (call_data c).
Proof. destruct c; reflexivity. Qed.

(** The journal file after a run of successful calls in a session that
    [start] has just opened. *)
Lemma journal_after_calls m0 path cfg now cs m1 results m2 :
  start path cfg now m0 = (Some tt, m1) ->
  run_calls cs m1 = (results, m2) ->
  Forall (fun b => b = true) results ->
  journaling path cfg (journal_from cs 0) (payload_of cs) m2.
Proof.
  intros Hstart Hrun Hall.
  pose proof (start_some_not_recording _ _ _ _ _ Hstart) as Hrec.
  destruct m0 as [r [fs flts]]. cbn [rec] in Hrec.
  destruct (start_journal path cfg now r fs flts Hrec) as [Hinv _].
  destruct (Hinv m1 Hstart) as (Hs1 & _).
  pose proof (run_calls_journaling path cfg cs [] [] m1 results m2 Hs1 Hrun Hall) as Hs2.
  change (len []) with 0 in Hs2. exact Hs2.
Qed.

(** C6: after any run of successful [writeVideoFrame] / [writeAudioFrame]
    calls in one session (less than 2^64 bytes in all), the journal file
    holds, after its 36 bytes of header, one record of 40 bytes per call, in
    call order; the offset field of each record is the sum of the sizes of
    the samples written before it, its size and track fields are those of
    its call; and the offset fields never decrease in call order, across
    the tracks and within each track. *)
Theorem journal_offsets_monotone_running_sums
    (m0 : Machine) (path : string) (cfg : RecorderConfig) (now : Z)
    (cs : list Call) (m1 : Machine) (results : list bool) (m2 : Machine) :
  start path cfg now m0 = (Some tt, m1) ->
  run_calls cs m1 = (results, m2) ->
  Forall (fun b => b = true) results ->
  sum_sizes cs < 2 ^ 64 ->
  exists c,
    files (disk m2) !! idx_name path = Some c
    /\ len c = 36 + 40 * len cs
    /\ (forall i call, cs !! i = Some call ->
          journal_offset c i = sum_sizes (take i cs)
          /\ journal_size c i = u32 (len (call_data call))
          /\ journal_track c i = call_track call)
    /\ (forall i j, (i <= j < length cs)%nat -> journal_offset c i <= journal_offset c j)
    /\ (forall i j, (i <= j < length cs)%nat -> journal_track c i = journal_track c j ->
          journal_offset c i <= journal_offset c j).
Proof.
  intros Hstart Hrun Hall Hlt.
  pose proof (journal_after_calls _ _ _ _ _ _ _ _ Hstart Hrun Hall) as Hj.
  destruct Hj as [_ _ _ _ _ _ _ _ Hidx _ _].
  assert (Hoff : forall i call, cs !! i = Some call ->
            journal_offset (journal_bytes cfg (journal_from cs 0)) i
            = sum_sizes (take i cs)
            /\ journal_size (journal_bytes cfg (journal_from cs 0)) i
               = u32 (len (call_data call))
            /\ journal_track (journal_bytes cfg (journal_from cs 0)) i = call_track call).
  { intros i call Hc.
    pose proof (journal_from_at cs 0 i call Hc) as Hf.
    destruct (journal_record_fields cfg _ [] i _ Hf) as (E1 & E2 & _ & _ & _ & E6).
    rewrite app_nil_r in E1, E2, E6.
    rewrite E1, E2, E6, offset_record_of, size_record_of, track_record_of.
    pose proof (sum_sizes_take_mono cs i i (le_n i)) as Hle.
    rewrite Z.add_0_l. unfold u64. rewrite Z.mod_mod by lia.
    rewrite (Z.mod_small (sum_sizes (take i cs))) by lia.
    split; [reflexivity|]. split; [reflexivity|]. by destruct call. }
  assert (Hmono : forall i j, (i <= j < length cs)%nat ->
            journal_offset (journal_bytes cfg (journal_from cs 0)) i
            <= journal_offset (journal_bytes cfg (journal_from cs 0)) j).
  { intros i j Hij.
    destruct (lookup_lt_is_Some_2 cs i) as [ci Hci]; [lia|].
    destruct (lookup_lt_is_Some_2 cs j) as [cj Hcj]; [lia|].
    destruct (Hoff i ci Hci) as [-> _]. destruct (Hoff j cj Hcj) as [-> _].
    pose proof (sum_sizes_take_mono cs i j). lia. }
  exists (journal_bytes cfg (journal_from cs 0)).
  split; [exact Hidx|]. split.
  { rewrite len_journal. unfold len. by rewrite length_journal_from. }
  split; [exact Hoff|]. split; [exact Hmono|].
  intros i j Hij _. by apply Hmono.
Qed.

Lemma journal_offsets_monotone_running_sums_witness :
  let cs := [WriteVideo [1; 2; 3] 0 true 0 [193; 127; 0; 0; 9; 8; 7; 6; 5; 4];
             WriteAudio [4; 5] 0 0 (zeros 10);
             WriteVideo [6] 3000 false 0 (zeros 10)] in
  let m1 := after (start "out.mp4" default_config 0) (fresh empty_disk) in
  let m2 := snd (run_calls cs m1) in
  exists c,
    files (disk m2) !! idx_name "out.mp4" = Some c
    /\ len c = 156
    /\ journal_offset c 0 = 0 /\ journal_offset c 1 = 3 /\ journal_offset c 2 = 5.
Proof.
  intros cs m1 m2.
  destruct (journal_offsets_monotone_running_sums (fresh empty_disk) "out.mp4"
              default_config 0 cs m1 (fst (run_calls cs m1)) m2)
    as (c & Hc & Hlen & Hoff & _).
  - vm_compute. reflexivity.
  - apply surjective_pairing.
  - vm_compute. repeat constructor.
  - vm_compute. reflexivity.
  - exists c. split; [exact Hc|]. split; [exact Hlen|].
    split; [exact (proj1 (Hoff 0%nat _ eq_refl))|].
    split; [exact (proj1 (Hoff 1%nat _ eq_refl))|exact (proj1 (Hoff 2%nat _ eq_refl))].
Defined.

(** ** Empty buffers *)

Lemma wrote_range flts data : 0 <= fst (wrote flts data) <= len data.
Proof.
  pose proof (len_nonneg data). destruct data as [|b data]; [cbn [wrote fst]; lia|].
  unfold wrote. destruct (fst (pop flts)); cbn [fst]; lia.
Qed.

Lemma len_take_wrote flts data :
  len (take (Z.to_nat (fst (wrote flts data))) data) = fst (wrote flts data).
Proof.
  pose proof (wrote_range flts data). unfold len in *. rewrite length_take. lia.
Qed.

Lemma journaling_opened path cfg journal payload m :
  journaling path cfg journal payload m -> opened path m.
Proof.
  intros [Hrec Hn1 Hn2 Hn3 _ Hms Hmp4 Hmp4f Hidx Hidxf Hmz].
  constructor; try assumption; [eauto|eauto|]. rewrite Hmz. apply u64_range.
Qed.

(** The stretch both writers share, in any state of an open session and
    whatever the host refuses: the session stays open; and when the host
    refuses nothing, the sample and the record are appended and the call
    succeeds. *)
Lemma opened_stretch path data frame now r fs flts :
  opened path (mkMachine r (mkWorld fs flts)) ->
  let op := writeFrameToMdat data ≫= fun _ =>
            logFrameToIndex frame ≫= fun _ =>
            count_frame (len data) ≫= fun _ => flushIfNeeded now in
  opened path (snd (op (mkMachine r (mkWorld fs flts))))
  /\ (flts = [] -> forall pc ic,
        fs !! path = Some pc -> fs !! idx_name path = Some ic ->
        fst (op (mkMachine r (mkWorld fs flts))) = Some tt
        /\ faults (disk (snd (op (mkMachine r (mkWorld fs flts))))) = []
        /\ files (disk (snd (op (mkMachine r (mkWorld fs flts))))) !! path
           = Some (pc ++ data)
        /\ files (disk (snd (op (mkMachine r (mkWorld fs flts))))) !! idx_name path
           = Some (ic ++ encodeFrame frame)).
Proof.
  intros [Hrec Hn1 Hn2 Hn3 Hms (payload & Hpc & Hpf) (ic & Hic & Hif) Hmz] op. subst op.
  cbn [rec disk files] in *.
  set (pc := ftyp ++ mdat_header ++ payload) in *.
  rewrite bind_run, (writeFrameToMdat_run _ _ _ _ path pc) by assumption.
  set (fs1 := <[path := pc ++ take (Z.to_nat (fst (wrote flts data))) data]> fs).
  set (r1 := set_mp4_file _ r).
  assert (Hic1 : fs1 !! idx_name path = Some ic).
  { subst fs1. rewrite lookup_insert_ne by apply path_ne_idx. assumption. }
  assert (Hpc1 : pc ++ take (Z.to_nat (fst (wrote flts data))) data
                 = ftyp ++ mdat_header
                   ++ (payload ++ take (Z.to_nat (fst (wrote flts data))) data)).
  { subst pc. by rewrite <- !app_assoc. }
  assert (Ho1 : forall flts1, opened path (mkMachine r1 (mkWorld fs1 flts1))).
  { intros flts1. constructor; cbn [rec disk files]; subst r1; cbn; try assumption.
    - eexists. split; [subst fs1; rewrite lookup_insert_eq, Hpc1; reflexivity|].
      by rewrite <- Hpc1, len_app, len_take_wrote.
    - eauto. }
  destruct (fst (wrote flts data) =? len data) eqn:En.
  2:{ cbn [snd fst]. split; [apply Ho1|]. intros ->. rewrite wrote_nofault in En.
      cbn [fst] in En. rewrite Z.eqb_refl in En. discriminate. }
  apply Z.eqb_eq in En.
  rewrite bind_run.
  rewrite (logFrameToIndex_run _ _ _ _ (idx_name path) ic) by (subst r1; cbn; assumption).
  cbv zeta.
  set (w2 := fst (wrote (snd (wrote flts data)) (encodeFrame frame))).
  set (flts2 := snd (wrote (snd (wrote flts data)) (encodeFrame frame))).
  set (fs2 := <[idx_name path := ic ++ take (Z.to_nat w2) (encodeFrame frame)]> fs1).
  set (r2 := set_idx_file _ r1).
  assert (Hfields : forall rr,
            (rr = r2
             \/ rr = set_video_frames (video_frames_ r2 ++ [frame]) r2
             \/ rr = set_audio_frames (audio_frames_ r2 ++ [frame]) r2) ->
            recording_ rr = true
            /\ mp4_file_ rr = Some (mkFile path (len pc + fst (wrote flts data)) false)
            /\ idx_file_ rr = Some (mkFile (idx_name path) (len ic + w2) false)
            /\ mdat_size_ rr = mdat_size_ r
            /\ mp4_filename_ rr = path /\ idx_filename_ rr = idx_name path
            /\ lock_filename_ rr = lock_name path /\ mdat_start_ rr = 40).
  { intros rr [-> | [-> | ->]]; subst r2 r1; cbn; done. }
  assert (Hfs2 : fs2 !! path
                 = Some (pc ++ take (Z.to_nat (fst (wrote flts data))) data)
                 /\ fs2 !! idx_name path
                    = Some (ic ++ take (Z.to_nat w2) (encodeFrame frame))).
  { subst fs2 fs1. rewrite lookup_insert_ne by (apply not_eq_sym, path_ne_idx).
    by rewrite !lookup_insert_eq. }
  destruct Hfs2 as [Hp2 Hi2].
  assert (Ho2 : forall rr flts', recording_ rr = true ->
            mp4_file_ rr = Some (mkFile path (len pc + fst (wrote flts data)) false) ->
            idx_file_ rr = Some (mkFile (idx_name path) (len ic + w2) false) ->
            0 <= mdat_size_ rr < 2 ^ 64 ->
            mp4_filename_ rr = path -> idx_filename_ rr = idx_name path ->
            lock_filename_ rr = lock_name path -> mdat_start_ rr = 40 ->
            opened path (mkMachine rr (mkWorld fs2 flts'))).
  { intros rr flts' H1 H2 H3 H4 H5 H6 H7 H8.
    constructor; cbn [rec disk files]; try assumption.
    - eexists. split; [rewrite Hp2, Hpc1; reflexivity|].
      by rewrite H2, <- Hpc1, len_app, len_take_wrote.
    - eexists. split; [exact Hi2|]. subst w2. by rewrite H3, len_app, len_take_wrote. }
  destruct (w2 =? sizeof_FrameInfo) eqn:Em.
  2:{ cbn [snd fst]. split.
      - destruct (Hfields r2 (or_introl eq_refl)) as (H1 & H2 & H3 & H4 & H5 & H6 & H7 & H8).
        apply Ho2; try assumption; by rewrite H4.
      - intros ->. subst w2.
        repeat first [ rewrite wrote_nofault in Em | progress cbn [fst snd] in Em ].
        rewrite len_encodeFrame in Em. discriminate. }
  set (r2' := if track_id frame =? 0 then _ else _).
  assert (Hr2' : r2' = r2
                 \/ r2' = set_video_frames (video_frames_ r2 ++ [frame]) r2
                 \/ r2' = set_audio_frames (audio_frames_ r2 ++ [frame]) r2).
  { subst r2'. destruct (track_id frame =? 0); [by right; left|].
    destruct (track_id frame =? 1); [by right; right|by left]. }
  destruct (Hfields r2' Hr2') as (H1 & H2 & H3 & H4 & H5 & H6 & H7 & H8). clearbody r2'.
  rewrite bind_run, count_frame_run. cbn [rec disk].
  set (r3 := set_frames_since_flush _ _).
  destruct (flushIfNeeded_effect now (mkMachine r3 (mkWorld fs2 flts2)))
    as (t & n & flts' & Hsnd & Hok).
  cbn [rec disk files faults] in Hsnd, Hok.
  rewrite Hsnd. split.
  - apply Ho2; subst r3; cbn; try assumption. apply u64_range.
  - intros -> pc' ic' Hpc' Hic'.
    assert (pc' = pc) by congruence. assert (ic' = ic) by congruence. subst pc' ic'.
    subst flts2 w2.
    repeat first [ rewrite wrote_nofault in * | progress cbn [fst snd] in * ].
    destruct (Hok eq_refl) as [-> Hres]. cbn [disk files faults].
    split; [apply Hres; subst r3; cbn; [rewrite H2|rewrite H3]; eauto|].
    split; [reflexivity|]. rewrite Hp2, Hi2. by rewrite !take_len.
Qed.

Lemma opened_call path c m : opened path m -> opened path (after (run_call c) m).
Proof.
  intros Ho. assert (Ho' := Ho).
  destruct Ho' as [Hrec _ _ _ _ (payload & Hpc & Hpf) _ Hmz].
  destruct m as [r [fs flts]]. cbn [rec disk files] in *. unfold after.
  destruct c as [data pts key now stack|data pts now stack]; cbn [run_call].
  - unfold writeVideoFrame. rewrite bind_this. cbn [rec].
    rewrite Hrec, bind_guard_true. cbv zeta.
    apply (opened_stretch path data _ now r fs flts Ho).
  - unfold writeAudioFrame. rewrite bind_this. cbn [rec].
    rewrite Hrec, bind_guard_true. cbv zeta.
    pose proof (opened_stretch path data
                  (mkFrame (mdat_size_ r) (len data) pts pts 1 1 stack) now r fs flts Ho)
      as [Hw _].
    cbv zeta in Hw. rewrite bind_run in Hw. rewrite bind_run.
    rewrite (writeFrameToMdat_run _ _ _ _ path (ftyp ++ mdat_header ++ payload)) in *
      by assumption.
    destruct (fst (wrote flts data) =? len data); [|exact Hw].
    rewrite bind_this. cbn [rec mdat_size_ set_mp4_file]. exact Hw.
Qed.

Lemma opened_config path sps pps m :
  opened path m -> opened path (after (setH264Config sps pps) m).
Proof.
  intros [Hrec H1 H2 H3 H4 Hp Hi Hmz]. destruct m as [r w]. unfold after, setH264Config.
  destruct (negb ((len sps =? 0) || (len pps =? 0))).
  - rewrite bind_guard_true. constructor; cbn; assumption.
  - rewrite bind_guard_false. by constructor.
Qed.

(** Every state of an open session is open. *)
Lemma open_session_opened path m : open_session path m -> opened path m.
Proof.
  induction 1 as [m0 cfg now m Hstart|m c _ IH|m sps pps _ IH].
  - pose proof (start_some_not_recording _ _ _ _ _ Hstart) as Hrec.
    destruct m0 as [r [fs flts]]. cbn [rec] in Hrec.
    destruct (start_journal path cfg now r fs flts Hrec) as [Hinv _].
    destruct (Hinv m Hstart) as (Hj & _). by eapply journaling_opened.
  - by apply opened_call.
  - by apply opened_config.
Qed.

(** An empty buffer, handed over in a state of an open session. *)
Lemma empty_write_run path c m ic :
  opened path m -> faults (disk m) = [] -> call_data c = [] ->
  files (disk m) !! idx_name path = Some ic ->
  exists m', run_call c m = (Some tt, m')
    /\ files (disk m') !! path = files (disk m) !! path
    /\ files (disk m') !! idx_name path
       = Some (ic ++ encodeFrame (record_of c (mdat_size_ (rec m)))).
Proof.
  intros Ho Hf Hd Hic. assert (Ho' := Ho).
  destruct Ho' as [Hrec _ _ _ _ (payload & Hpc & Hpf) _ Hmz].
  set (pc := ftyp ++ mdat_header ++ payload) in *.
  destruct m as [r [fs flts]]. cbn [rec disk files faults] in *. subst flts.
  destruct c as [data pts key now stack|data pts now stack];
    cbn [run_call call_data record_of] in *; subst data.
  - unfold writeVideoFrame. rewrite bind_this. cbn [rec].
    rewrite Hrec, bind_guard_true. cbv zeta.
    destruct (opened_stretch path [] (mkFrame (mdat_size_ r) (len (@nil Z)) pts pts
                (if key then 1 else 0) 0 stack) now r fs [] Ho) as [_ Hw].
    cbv zeta in Hw. destruct (Hw eq_refl pc ic Hpc Hic) as (H1 & _ & H3 & H4).
    match goal with |- exists m', ?x = _ /\ _ => destruct x as [res m'] end.
    cbn [fst snd] in *. subst res. exists m'. split; [reflexivity|].
    rewrite H3, H4, Hpc, app_nil_r. done.
  - unfold writeAudioFrame. rewrite bind_this. cbn [rec].
    rewrite Hrec, bind_guard_true. cbv zeta.
    destruct (opened_stretch path [] (mkFrame (mdat_size_ r) (len (@nil Z)) pts pts 1 1 stack)
                now r fs [] Ho) as [_ Hw].
    cbv zeta in Hw. destruct (Hw eq_refl pc ic Hpc Hic) as (H1 & _ & H3 & H4).
    rewrite bind_run in H1, H3, H4. rewrite bind_run.
    rewrite (writeFrameToMdat_run _ _ _ _ path pc) in * by assumption.
    rewrite wrote_nofault in *. cbn [fst snd] in *.
    change (0 =? len (@nil Z)) with true in *. cbv iota in *.
    rewrite bind_this. cbn [rec mdat_size_ set_mp4_file].
    match goal with |- exists m', ?x = _ /\ _ => destruct x as [res m'] end.
    cbn [fst snd] in *. subst res. exists m'. split; [reflexivity|].
    rewrite H3, H4, Hpc, app_nil_r. done.
Qed.

(** C9, as the recorder has it: in every state of an open session (also
    after calls that failed), with no I/O fault pending, [writeVideoFrame]
    and [writeAudioFrame] accept an empty buffer: they return true, leave
    the MP4 file as it is, and append to the journal file a record of 40
    bytes whose offset field is the recorder's running payload size, whose
    size field is 0 and whose time stamps, key frame flag and track are
    those of the call.  As long as every write call of the session has
    succeeded, that running payload size is the length of the payload in
    the MP4 file. *)
Theorem empty_buffer_is_journaled
    (path : string) (m : Machine) (ts : Z) (key : bool) (now : Z)
    (stack : bytes) :
  open_session path m ->
  faults (disk m) = [] ->
  exists ic, files (disk m) !! idx_name path = Some ic
  /\ (exists m' record,
        writeVideoFrame [] ts key now stack m = (Some tt, m')
        /\ files (disk m') !! path = files (disk m) !! path
        /\ files (disk m') !! idx_name path = Some (ic ++ record)
        /\ len record = 40
        /\ field record 0 8 = mdat_size_ (rec m) /\ field record 8 4 = 0
        /\ field record 16 8 = ts mod 2 ^ 64 /\ field record 24 8 = ts mod 2 ^ 64
        /\ field record 32 1 = (if key then 1 else 0) /\ field record 33 1 = 0)
  /\ (exists m' record,
        writeAudioFrame [] ts now stack m = (Some tt, m')
        /\ files (disk m') !! path = files (disk m) !! path
        /\ files (disk m') !! idx_name path = Some (ic ++ record)
        /\ len record = 40
        /\ field record 0 8 = mdat_size_ (rec m) /\ field record 8 4 = 0
        /\ field record 16 8 = ts mod 2 ^ 64 /\ field record 24 8 = ts mod 2 ^ 64
        /\ field record 32 1 = 1 /\ field record 33 1 = 1)
  /\ (forall m0 cfg now0 cs m1 results,
        start path cfg now0 m0 = (Some tt, m1) ->
        run_calls cs m1 = (results, m) ->
        Forall (fun b => b = true) results ->
        files (disk m) !! path = Some (ftyp ++ mdat_header ++ payload_of cs)
        /\ mdat_size_ (rec m) = u64 (len (payload_of cs))).
Proof.
  intros Hopen Hf. apply open_session_opened in Hopen.
  assert (Ho := Hopen). destruct Ho as [_ _ _ _ _ _ (ic & Hic & _) Hmz].
  exists ic. split; [exact Hic|].
  assert (Hrecord : forall f, offset f = mdat_size_ (rec m) -> size f = 0 ->
            pts f = ts -> dts f = ts ->
            len (encodeFrame f) = 40
            /\ field (encodeFrame f) 0 8 = mdat_size_ (rec m)
            /\ field (encodeFrame f) 8 4 = 0
            /\ field (encodeFrame f) 16 8 = ts mod 2 ^ 64
            /\ field (encodeFrame f) 24 8 = ts mod 2 ^ 64
            /\ field (encodeFrame f) 32 1 = u8 (is_keyframe f)
            /\ field (encodeFrame f) 33 1 = u8 (track_id f)).
  { intros f H1 H2 H3 H4.
    destruct (field_encodeFrame f []) as (E1 & E2 & E3 & E4 & E5 & E6 & _).
    rewrite app_nil_r in *. rewrite E1, E2, E3, E4, E5, E6, H1, H2, H3, H4.
    rewrite Z.mod_small by assumption. split; [apply len_encodeFrame|]. done. }
  split; [|split].
  - destruct (empty_write_run path (WriteVideo [] ts key now stack) m ic
                Hopen Hf eq_refl Hic) as (m' & Hrun & Hp & Hi).
    exists m', (encodeFrame (record_of (WriteVideo [] ts key now stack)
                              (mdat_size_ (rec m)))).
    split; [exact Hrun|]. split; [exact Hp|]. split; [exact Hi|].
    destruct (Hrecord (record_of (WriteVideo [] ts key now stack)
                         (mdat_size_ (rec m)))) as (L & F1 & F2 & F3 & F4 & F5 & F6);
      [reflexivity..|].
    split; [exact L|]. split; [exact F1|]. split; [exact F2|]. split; [exact F3|].
    split; [exact F4|]. split; [|exact F6].
    rewrite F5. by destruct key.
  - destruct (empty_write_run path (WriteAudio [] ts now stack) m ic
                Hopen Hf eq_refl Hic) as (m' & Hrun & Hp & Hi).
    exists m', (encodeFrame (record_of (WriteAudio [] ts now stack) (mdat_size_ (rec m)))).
    split; [exact Hrun|]. split; [exact Hp|]. split; [exact Hi|].
    destruct (Hrecord (record_of (WriteAudio [] ts now stack) (mdat_size_ (rec m))))
      as (L & F1 & F2 & F3 & F4 & F5 & F6); [reflexivity..|].
    split; [exact L|]. split; [exact F1|]. split; [exact F2|]. split; [exact F3|].
    split; [exact F4|]. split; [exact F5|exact F6].
  - intros m0 cfg now0 cs m1 results Hstart Hrun Hall.
    destruct (journal_after_calls _ _ _ _ _ _ _ _ Hstart Hrun Hall)
      as [_ _ _ _ _ _ Hmp4 _ _ _ Hsz].
    split; assumption.
Qed.

Lemma empty_buffer_is_journaled_witness :
  let m := after (start "out.mp4" default_config 0) (fresh empty_disk) in
  let stack := [193; 127; 0; 0; 9; 8; 7; 6; 5; 4] in
  exists ic m' record,
    files (disk m) !! idx_name "out.mp4" = Some ic
    /\ writeVideoFrame [] 0 true 0 stack m = (Some tt, m')
    /\ files (disk m') !! idx_name "out.mp4" = Some (ic ++ record)
    /\ len record = 40 /\ field record 0 8 = 0 /\ field record 8 4 = 0.
Proof.
  intros m stack.
  assert (Hs : open_session "out.mp4" m).
  { apply (open_start "out.mp4" (fresh empty_disk) default_config 0).
    vm_compute. reflexivity. }
  assert (Hf : faults (disk m) = []) by (vm_compute; reflexivity).
  destruct (empty_buffer_is_journaled "out.mp4" m 0 true 0 stack Hs Hf)
    as (ic & Hic & (m' & record & Hrun & _ & Hidx & Hlen & H0 & H8 & _) & _).
  exists ic, m', record. repeat (split; [assumption|]). exact H8.
Defined.

(** On a freshly started session an empty buffer is not rejected: the call
    returns true and the journal grows by one record. *)
Lemma empty_buffer_not_rejected :
  let m := after (start "out.mp4" default_config 0) (fresh empty_disk) in
  returns (writeVideoFrame [] 0 true 0 (zeros 10)) m = true
  /\ returns (writeAudioFrame [] 0 0 (zeros 10)) m = true
  /\ len (contents (disk (after (writeVideoFrame [] 0 true 0 (zeros 10)) m)) "out.mp4.idx")
     = len (contents (disk m) "out.mp4.idx") + 40.
Proof. vm_compute. done. Qed.

(** ** A start that fails *)

Lemma wrote_unrefused rest data :
  data <> [] -> wrote (None :: rest) data = (len data, rest).
Proof. destruct data; [done|reflexivity]. Qed.

Lemma ftyp_nonempty : ftyp <> [].
Proof. discriminate. Qed.

Lemma mdat_header_nonempty : mdat_header <> [].
Proof. discriminate. Qed.

Lemma magic_nonempty : le_bytes 4 MAGIC <> [].
Proof. discriminate. Qed.

Lemma encodeConfig_nonempty c : encodeConfig c <> [].
Proof. discriminate. Qed.

(** The two headers go out, then the journal cannot be created. *)
Lemma createFiles_idx_refused path r fs k rest :
  idx_filename_ r = idx_name path ->
  createFiles path (mkMachine r (mkWorld fs (None :: None :: None :: Some k :: rest)))
  = (None,
     mkMachine (set_idx_file None
                  (set_mdat_size 0 (set_mdat_start 40
                     (set_mp4_file (Some (mkFile path 40 false)) r))))
               (mkWorld (<[path := ftyp ++ mdat_header]> fs) rest)).
Proof.
  intros Hi.
  destruct r as [n1 n2 n3 f1 f2 f3 cfg0 rc fc ms mz vf af sp pp lt fsf].
  cbn [idx_filename_] in Hi. subst.
  match goal with
  | |- ?lhs = _ => remember lhs as res eqn:Hres
  end.
  unfold createFiles in Hres.
  step_in Hres. rewrite fs_open_run in Hres. cbv zeta in Hres. cbn [pop fst snd] in Hres.
  do 2 step_in Hres.
  rewrite (file_write_end _ _ _ _ []) in Hres by (rewrite ?lookup_insert_eq; done).
  rewrite (wrote_unrefused _ _ ftyp_nonempty) in Hres. cbn [f_path fst snd] in Hres.
  rewrite insert_insert_eq, take_len, Z.eqb_refl in Hres. do 3 step_in Hres.
  rewrite (file_write_end _ _ _ _ ([] ++ ftyp)) in Hres by (rewrite ?lookup_insert_eq; done).
  rewrite (wrote_unrefused _ _ mdat_header_nonempty) in Hres. cbn [f_path fst snd] in Hres.
  rewrite insert_insert_eq, take_len, Z.eqb_refl in Hres. do 2 step_in Hres.
  unfold file_tell in Hres. cbn [f_pos] in Hres.
  change (len ([] ++ ftyp) + len mdat_header) with 40 in Hres.
  change (negb (40 <? 0)) with true in Hres. change (u64 40) with 40 in Hres.
  do 4 step_in Hres.
  cbn [idx_filename_ set_mdat_size set_mdat_start set_mp4_file] in Hres.
  step_in Hres. rewrite fs_open_run in Hres. cbv zeta in Hres. cbn [pop fst snd] in Hres.
  step_in Hres. rewrite Hres. reflexivity.
Qed.

(** Both files are set up, then the lock cannot be created. *)
Lemma createFiles_lock_refused path r fs f7 k rest :
  idx_filename_ r = idx_name path -> lock_filename_ r = lock_name path ->
  createFiles path
    (mkMachine r (mkWorld fs (None :: None :: None :: None :: None :: None :: f7
                              :: Some k :: rest)))
  = (None,
     mkMachine (set_lock_file None
                  (set_idx_file (Some (mkFile (idx_name path) 36 false))
                     (set_mdat_size 0 (set_mdat_start 40
                        (set_mp4_file (Some (mkFile path 40 false)) r)))))
               (mkWorld (<[idx_name path := le_bytes 4 MAGIC ++ encodeConfig (config_ r)]>
                           (<[path := ftyp ++ mdat_header]> fs)) rest)).
Proof.
  intros Hi Hl.
  destruct r as [n1 n2 n3 f1 f2 f3 cfg0 rc fc ms mz vf af sp pp lt fsf].
  cbn [idx_filename_ lock_filename_ config_] in *. subst.
  match goal with
  | |- ?lhs = _ => remember lhs as res eqn:Hres
  end.
  unfold createFiles in Hres.
  step_in Hres. rewrite fs_open_run in Hres. cbv zeta in Hres. cbn [pop fst snd] in Hres.
  do 2 step_in Hres.
  rewrite (file_write_end _ _ _ _ []) in Hres by (rewrite ?lookup_insert_eq; done).
  rewrite (wrote_unrefused _ _ ftyp_nonempty) in Hres. cbn [f_path fst snd] in Hres.
  rewrite insert_insert_eq, take_len, Z.eqb_refl in Hres. do 3 step_in Hres.
  rewrite (file_write_end _ _ _ _ ([] ++ ftyp)) in Hres by (rewrite ?lookup_insert_eq; done).
  rewrite (wrote_unrefused _ _ mdat_header_nonempty) in Hres. cbn [f_path fst snd] in Hres.
  rewrite insert_insert_eq, take_len, Z.eqb_refl in Hres. do 2 step_in Hres.
  unfold file_tell in Hres. cbn [f_pos] in Hres.
  change (len ([] ++ ftyp) + len mdat_header) with 40 in Hres.
  change (negb (40 <? 0)) with true in Hres. change (u64 40) with 40 in Hres.
  do 4 step_in Hres.
  cbn [idx_filename_ lock_filename_ config_ set_mdat_size set_mdat_start set_mp4_file] in Hres.
  step_in Hres. rewrite fs_open_run in Hres. cbv zeta in Hres. cbn [pop fst snd] in Hres.
  do 2 step_in Hres.
  rewrite (file_write_end _ _ _ _ []) in Hres by (rewrite ?lookup_insert_eq; done).
  rewrite (wrote_unrefused _ _ magic_nonempty) in Hres. cbn [f_path fst snd] in Hres.
  rewrite insert_insert_eq, take_len in Hres.
  change (len (le_bytes 4 MAGIC) =? sizeof_uint32) with true in Hres.
  do 3 step_in Hres. cbn [config_ set_idx_file] in Hres.
  rewrite (file_write_end _ _ _ _ ([] ++ le_bytes 4 MAGIC)) in Hres
    by (rewrite ?lookup_insert_eq; done).
  rewrite (wrote_unrefused _ _ (encodeConfig_nonempty cfg0)) in Hres.
  cbn [f_path fst snd] in Hres. rewrite insert_insert_eq, take_len in Hres.
  rewrite len_encodeConfig in Hres. change (32 =? sizeof_RecorderConfig) with true in Hres.
  do 3 step_in Hres.
  rewrite file_flush_run in Hres. cbn [pop fst snd] in Hres. step_in Hres.
  cbn [lock_filename_ set_idx_file] in Hres.
  rewrite fs_open_run in Hres. cbv zeta in Hres. cbn [pop fst snd] in Hres.
  step_in Hres. rewrite Hres. reflexivity.
Qed.

Lemma keeps_files_ret {A} (a : A) : keeps_files (mret a).
Proof. intros m p H. exact H. Qed.

Lemma keeps_files_fail {A} : keeps_files (@fail Machine A).
Proof. intros m p H. exact H. Qed.

Lemma keeps_files_guard b : keeps_files (guard b).
Proof. intros m p H. destruct b; exact H. Qed.

Lemma keeps_files_this : keeps_files this.
Proof. intros m p H. exact H. Qed.

Lemma keeps_files_assign f : keeps_files (assign f).
Proof. intros m p H. exact H. Qed.

Lemma keeps_files_bind {A B} (c : Op Machine A) (k : A -> Op Machine B) :
  keeps_files c -> (forall a, keeps_files (k a)) -> keeps_files (c ≫= k).
Proof.
  intros Hc Hk m p H. rewrite bind_run. specialize (Hc m p H).
  destruct (c m) as [[a|] m']; cbn in *; [|done]. by apply Hk.
Qed.

Lemma keeps_files_lift {A} (op : Op World A) : keeps_files_io op -> keeps_files (io op).
Proof.
  intros Hop m p H. unfold io. specialize (Hop (disk m) p H).
  destruct (op (disk m)) as [a w]. exact Hop.
Qed.

Lemma is_Some_insert (fs : gmap string bytes) p q c :
  is_Some (fs !! p) -> is_Some (<[q := c]> fs !! p).
Proof.
  intros H. destruct (decide (q = p)) as [->|Hne].
  - rewrite lookup_insert_eq. eauto.
  - by rewrite lookup_insert_ne.
Qed.

Lemma keeps_files_open path mode : keeps_files_io (fs_open path mode).
Proof.
  intros [fs flts] p H. rewrite fs_open_run. cbv zeta.
  destruct (fst (pop flts)); [exact H|].
  destruct mode; cbn; try (destruct (fs !! path)); cbn; try exact H;
    by apply is_Some_insert.
Qed.

Lemma keeps_files_write f data : keeps_files_io (file_write f data).
Proof.
  intros [fs flts] p H. destruct data as [|b data]; [exact H|].
  destruct (fs !! f_path f) as [c|] eqn:E.
  - rewrite (file_write_run _ _ _ _ c) by done. cbn. by apply is_Some_insert.
  - unfold file_write. change (len (b :: data) =? 0) with false.
    destruct flts as [|[k|] rest];
      unfold mbind, op_bind, get, put, mret, op_ret, next_fault; cbn; rewrite E; exact H.
Qed.

Lemma keeps_files_flush f : keeps_files_io (file_flush f).
Proof. intros [fs flts] p H. rewrite file_flush_run. exact H. Qed.

Ltac keeps_files :=
  repeat first
    [ assumption | progress cbv zeta
    | apply keeps_files_ret | apply keeps_files_fail | apply keeps_files_guard
    | apply keeps_files_this | apply keeps_files_assign
    | apply keeps_files_lift;
      first [apply keeps_files_open | apply keeps_files_write | apply keeps_files_flush]
    | apply keeps_files_bind; [|intros]
    | match goal with
      | |- keeps_files (match ?x with _ => _ end) => destruct x
      | |- keeps_files (if ?x then _ else _) => destruct x
      end ].

Lemma keeps_files_createFiles path : keeps_files (createFiles path).
Proof. unfold createFiles. keeps_files. Qed.

Lemma keeps_files_start path cfg now : keeps_files (start path cfg now).
Proof. pose proof (keeps_files_createFiles path). unfold start. keeps_files. Qed.

Lemma keeps_createFiles path : keeps_flag (createFiles path).
Proof. unfold createFiles. keeps. Qed.

(** The MP4 file cannot be created: nothing is touched. *)
Lemma createFiles_mp4_refused path r fs k rest :
  createFiles path (mkMachine r (mkWorld fs (Some k :: rest)))
  = (None, mkMachine (set_mp4_file None r) (mkWorld fs rest)).
Proof.
  unfold createFiles. rewrite run_io. cbn [disk rec]. rewrite fs_open_run. cbv zeta.
  cbn [pop fst snd]. rewrite bind_assign. reflexivity.
Qed.

(** A [start] that fails on a recorder that was not recording leaves it
    not recording. *)
Lemma failed_start_not_recording path cfg now m :
  recording_ (rec m) = false ->
  returns (start path cfg now) m = false ->
  isRecording (after (start path cfg now) m) = false.
Proof.
  intros Hrec. unfold returns, after, isRecording, start.
  rewrite bind_this, Hrec. cbn [negb]. rewrite bind_guard_true, !bind_assign.
  rewrite bind_run.
  match goal with |- context [createFiles path ?m0] =>
    pose proof (keeps_createFiles path m0) as K; destruct (createFiles path m0) as [[[]|] m1]
  end.
  - rewrite !bind_assign. discriminate.
  - intros _. cbn [snd] in *. rewrite K. cbn. exact Hrec.
Qed.

(** C8, as the recorder has it: a [start] that fails because an artifact
    cannot be created unlinks nothing and leaves the recorder not recording.
    Every file present before the call is still present after it.  When the
    MP4 file cannot be created the call returns false and no file is
    touched; when the journal [path.idx] cannot be created it returns false
    and the MP4 file it had created, with [ftyp] and the [mdat] header
    written to it, is left behind; when the lock [path.lock] cannot be
    created it returns false and both the MP4 file and the journal are left
    behind. *)
Theorem failed_start_leaves_created_files
    (path : string) (cfg : RecorderConfig) (now : Z) (r : Recorder)
    (fs : gmap string bytes) (k : Z) (rest : list (option Z)) :
  recording_ r = false ->
  (forall flts,
     let m := mkMachine r (mkWorld fs flts) in
     (forall p, is_Some (fs !! p) ->
                is_Some (files (disk (after (start path cfg now) m)) !! p))
     /\ (returns (start path cfg now) m = false ->
         isRecording (after (start path cfg now) m) = false))
  /\ (let m := mkMachine r (mkWorld fs (Some k :: rest)) in
      returns (start path cfg now) m = false
      /\ files (disk (after (start path cfg now) m)) = fs
      /\ isRecording (after (start path cfg now) m) = false)
  /\ (let m := mkMachine r (mkWorld fs (None :: None :: None :: Some k :: rest)) in
      returns (start path cfg now) m = false
      /\ files (disk (after (start path cfg now) m)) = <[path := ftyp ++ mdat_header]> fs
      /\ isRecording (after (start path cfg now) m) = false)
  /\ (forall f7,
      let m := mkMachine r (mkWorld fs (None :: None :: None :: None :: None :: None
                                        :: f7 :: Some k :: rest)) in
      returns (start path cfg now) m = false
      /\ files (disk (after (start path cfg now) m))
         = <[idx_name path := le_bytes 4 MAGIC ++ encodeConfig cfg]>
             (<[path := ftyp ++ mdat_header]> fs)
      /\ isRecording (after (start path cfg now) m) = false).
Proof.
  intros Hrec.
  assert (Hstart : forall flts,
            start path cfg now (mkMachine r (mkWorld fs flts))
            = (createFiles path ≫= fun _ =>
               assign (set_recording true) ≫= fun _ =>
               assign (set_frame_count 0) ≫= fun _ =>
               assign (set_last_flush_time now) ≫= fun _ =>
               assign (set_frames_since_flush 0))
                (mkMachine (set_config cfg
                              (set_filenames path (idx_name path) (lock_name path) r))
                           (mkWorld fs flts))).
  { intros flts. unfold start. rewrite bind_this. cbn [rec]. rewrite Hrec. cbn [negb].
    rewrite bind_guard_true, !bind_assign. reflexivity. }
  split; [|split; [|split]].
  - intros flts m. split.
    + intros p H. apply (keeps_files_start path cfg now m p H).
    + by apply failed_start_not_recording.
  - cbv zeta. unfold returns, after, isRecording.
    rewrite Hstart, bind_run, createFiles_mp4_refused. cbn. done.
  - cbv zeta. unfold returns, after, isRecording.
    rewrite Hstart, bind_run, createFiles_idx_refused by reflexivity. cbn. done.
  - intros f7. cbv zeta. unfold returns, after, isRecording.
    rewrite Hstart, bind_run, createFiles_lock_refused by reflexivity. cbn. done.
Qed.

Lemma failed_start_leaves_created_files_witness :
  let m := mkMachine new_recorder (mkWorld ∅ [None; None; None; Some 0]) in
  returns (start "out.mp4" default_config 0) m = false
  /\ files (disk (after (start "out.mp4" default_config 0) m)) !! "out.mp4"
     = Some (ftyp ++ mdat_header)
  /\ isRecording (after (start "out.mp4" default_config 0) m) = false.
Proof.
  intros m.
  destruct (failed_start_leaves_created_files "out.mp4" default_config 0 new_recorder
              ∅ 0 [] eq_refl) as (_ & _ & (H1 & H2 & H3) & _).
  split; [exact H1|]. split; [|exact H3]. fold m in H2. by rewrite H2.
Defined.

(** A start whose journal cannot be created leaves the MP4 file behind. *)
Lemma failed_start_leaves_partial_artifact :
  let m := mkMachine new_recorder (mkWorld ∅ [None; None; None; Some 0]) in
  returns (start "out.mp4" default_config 0) m = false
  /\ fs_exists (disk (after (start "out.mp4" default_config 0) m)) "out.mp4" = true.
Proof. vm_compute. done. Qed.

(** ** Finalizing: the pieces [stop] and [recover] share *)

Lemma buildMoov_no_frames vts ats asr ach w h sps pps mdat_start :
  buildMoov [] [] vts ats asr ach w h sps pps mdat_start = Returned (Some empty_moov).
Proof. reflexivity. Qed.

Lemma len_empty_moov : len empty_moov = 116.
Proof. reflexivity. Qed.

(** Appending the moov box to an existing file, no fault pending. *)
Lemma writeMoovToFile_nofault path moov fs c :
  fs !! path = Some c ->
  writeMoovToFile path moov (mkWorld fs [])
  = (Some tt, mkWorld (<[path := c ++ moov]> fs) []).
Proof.
  intros Hc. unfold writeMoovToFile.
  rewrite bind_run, fs_open_run. cbv zeta. cbn [pop fst snd]. rewrite Hc.
  rewrite bind_run, file_seek_run. cbv zeta. cbn [pop fst snd f_path]. rewrite Hc.
  cbn [default id f_append]. rewrite Z.add_0_r.
  assert (Hn : (len c <? 0) = false) by (apply Z.ltb_ge, len_nonneg). rewrite Hn.
  rewrite bind_guard_true.
  destruct moov as [|b moov].
  - rewrite bind_run, file_write_nil. rewrite bind_run, file_flush_run. cbn [pop fst snd].
    change (0 =? len []) with true. rewrite app_nil_r, insert_id by done. reflexivity.
  - rewrite bind_run. rewrite (file_write_run _ _ _ _ c) by done.
    cbv zeta. cbn [pop fst snd f_append f_path].
    rewrite bind_run, file_flush_run. cbn [pop fst snd].
    rewrite take_len, write_at_end, Z.eqb_refl. reflexivity.
Qed.

Lemma run_ret {S A} (a : A) (s : S) : (mret a : Op S A) s = (Some a, s).
Proof. reflexivity. Qed.

Lemma run_fail {S A} (s : S) : @fail S A s = (None, s).
Proof. reflexivity. Qed.

Lemma run_assign f m : assign f m = (Some tt, mkMachine (f (rec m)) (disk m)).
Proof. reflexivity. Qed.

Lemma run_this m : this m = (Some (rec m), m).
Proof. reflexivity. Qed.

Lemma run_guard_true {S} (s : S) : guard true s = (Some tt, s).
Proof. reflexivity. Qed.

Lemma run_guard_false {S} (s : S) : guard false s = (None, s).
Proof. reflexivity. Qed.

Ltac tidy :=
  cbv beta iota zeta;
  cbn [pop fst snd f_path f_append f_pos rec disk files faults default id negb orb andb].

Ltac run1 :=
  first
    [ rewrite bind_this | rewrite bind_assign | rewrite bind_guard_true
    | rewrite bind_guard_false | rewrite run_io | rewrite run_ret | rewrite run_fail
    | rewrite run_assign | rewrite run_this | rewrite run_guard_true
    | rewrite run_guard_false
    | rewrite file_flush_run | rewrite file_sync_run | rewrite file_seek_run
    | rewrite fs_open_run | rewrite fs_remove_run | rewrite fs_getFileSize_run
    | rewrite file_read_run | rewrite bind_run ];
  tidy.

(** [stop] right after [start], no fault pending: the size field becomes 8,
    the movie header is appended, both sidecars go. *)
Lemma stop_empty_session path cfg m :
  session path cfg [] [] m -> faults (disk m) = [] ->
  exists m', stop m = (Some tt, m')
    /\ files (disk m') !! path
       = Some (ftyp ++ size_bytes 8 ++ chars "mdat" ++ empty_moov)
    /\ files (disk m') !! idx_name path = None
    /\ files (disk m') !! lock_name path = None.
Proof.
  intros Hs Hf. destruct m as [r [fs flts]].
  destruct Hs as [Hrec Hn1 Hn2 Hn3 Hcfg Hms Hmp4 Hmp4f Hidx Hidxf Hmz Hvf Hva].
  cbn [rec disk files faults] in *.
  subst flts.
  destruct r as [n1 n2 n3 f1 f2 f3 cfg0 rc fc ms mz vf af sp pp lt fsf].
  cbn [mp4_filename_ idx_filename_ lock_filename_ mp4_file_ idx_file_ config_ recording_
       mdat_start_ mdat_size_ video_frames_ audio_frames_] in *.
  cbn [List.filter] in *. subst.
  unfold stop. run1. cbn [recording_ mp4_file_ mdat_size_ mdat_start_].
  repeat run1.
  change (i64 (u64 (40 - 8))) with 32. change (32 <? 0) with false. tidy.
  repeat run1. rewrite (file_write_run _ _ _ _ (ftyp ++ mdat_header ++ [])) by done. tidy.
  repeat run1.
  change (write_at (ftyp ++ mdat_header ++ []) 32
            (take (Z.to_nat (len (size_bytes (u32 (8 + u64 (len []))))))
                  (size_bytes (u32 (8 + u64 (len []))))))
    with (ftyp ++ size_bytes 8 ++ chars "mdat").
  set (c1 := ftyp ++ size_bytes 8 ++ chars "mdat").
  unfold buildAndWriteMoov. repeat run1.
  cbn [video_frames_ audio_frames_ config_ h264_sps_ h264_pps_ mdat_start_ mp4_filename_
       set_mp4_file set_recording].
  rewrite buildMoov_no_frames.
  unfold io at 1. tidy.
  rewrite (writeMoovToFile_nofault _ _ _ c1) by apply lookup_insert_eq.
  rewrite insert_insert_eq. tidy. repeat run1.
  unfold cleanupFiles. repeat run1.
  cbn [idx_filename_ lock_filename_ set_lock_file set_idx_file set_mp4_file set_recording].
  repeat run1.
  rewrite lookup_insert_ne by apply path_ne_idx. rewrite Hidx. tidy.
  repeat run1.
  rewrite lookup_delete_ne by apply idx_ne_lock.
  rewrite lookup_insert_ne by apply path_ne_lock.
  destruct (fs !! lock_name path) eqn:El; tidy.
  - run1. eexists. split; [reflexivity|]. tidy.
    rewrite lookup_delete_ne by (apply not_eq_sym, path_ne_lock).
    rewrite lookup_delete_ne by (apply not_eq_sym, path_ne_idx).
    rewrite lookup_insert_eq.
    rewrite lookup_delete_ne by apply not_eq_sym, idx_ne_lock.
    rewrite !lookup_delete_eq. subst c1. rewrite <- !app_assoc. done.
  - run1. eexists. split; [reflexivity|]. tidy.
    rewrite lookup_delete_ne by (apply not_eq_sym, path_ne_idx).
    rewrite lookup_insert_eq. rewrite lookup_delete_eq.
    rewrite lookup_delete_ne by apply idx_ne_lock.
    rewrite lookup_insert_ne by apply path_ne_lock.
    subst c1. rewrite <- !app_assoc. done.
Qed.

(** ** Reading the journal back *)

Lemma read_frames_parse fuel : forall pos video audio fs p c,
  fs !! p = Some c -> 0 <= pos ->
  exists f',
    read_frames fuel (mkFile p pos false) video audio (mkWorld fs [])
    = (Some (fst (parse_frames fuel (drop (Z.to_nat pos) c) video audio),
             snd (parse_frames fuel (drop (Z.to_nat pos) c) video audio), f'),
       mkWorld fs []).
Proof.
  induction fuel as [|fuel IH]; intros pos video audio fs p c Hc Hpos.
  - eexists. reflexivity.
  - cbn [read_frames parse_frames].
    rewrite bind_run, file_read_run. cbv zeta. cbn [f_path f_pos f_append].
    change (sizeof_FrameInfo =? 0) with false. cbv iota.
    unfold contents. cbn [files]. rewrite Hc. cbn [default id].
    change (Z.to_nat sizeof_FrameInfo) with 40%nat.
    set (raw := take 40 (drop (Z.to_nat pos) c)).
    destruct (len raw =? sizeof_FrameInfo) eqn:E.
    + apply Z.eqb_eq in E. rewrite E.
      assert (Hd : drop 40 (drop (Z.to_nat pos) c) = drop (Z.to_nat (pos + sizeof_FrameInfo)) c).
      { rewrite drop_drop. f_equal. change sizeof_FrameInfo with 40. lia. }
      rewrite Hd.
      assert (Hp : 0 <= pos + sizeof_FrameInfo) by (change sizeof_FrameInfo with 40; lia).
      destruct (track_id (decodeFrame raw) =? 0); [by apply IH|].
      destruct (track_id (decodeFrame raw) =? 1); by apply IH.
    + eexists. reflexivity.
Qed.

(** With no fault pending, reading the journal is parsing the journal file;
    the file system is left as it was. *)
Lemma recover_read_journal_nofault path fs :
  recover_read_journal path (mkWorld fs [])
  = (match fs !! idx_name path with
     | Some c => parse_journal c
     | None => None
     end, mkWorld fs []).
Proof.
  unfold recover_read_journal, IndexFile_open.
  rewrite !bind_run, fs_open_run. tidy.
  destruct (fs !! idx_name path) as [c|] eqn:Hc; tidy; [|reflexivity].
  rewrite !bind_run, file_seek_run. tidy. rewrite Hc. tidy.
  rewrite Z.add_0_r.
  assert (Hn : (len c <? 0) = false) by (apply Z.ltb_ge, len_nonneg). rewrite Hn. tidy.
  rewrite bind_guard_true, !bind_run, file_seek_run. tidy.
  change (0 <? 0) with false. tidy. rewrite run_ret. tidy.
  unfold IndexFile_readConfig. cbn [ix_file ix_frame_count].
  rewrite !bind_run, file_read_run. tidy.
  change (sizeof_uint32 =? 0) with false. tidy.
  unfold contents. cbn [files]. rewrite Hc. cbn [default id].
  change (Z.to_nat 0) with 0%nat. change (Z.to_nat sizeof_uint32) with 4%nat.
  rewrite drop_0. unfold parse_journal.
  destruct (len (take 4 c) =? sizeof_uint32) eqn:E1; tidy;
    [rewrite bind_guard_true | rewrite bind_guard_false; reflexivity].
  destruct (le_value (take 4 c) =? MAGIC) eqn:E2; tidy;
    [rewrite bind_guard_true | rewrite bind_guard_false; reflexivity].
  rewrite !bind_run, file_read_run. tidy.
  change (sizeof_RecorderConfig =? 0) with false. tidy.
  unfold contents. cbn [files]. rewrite Hc. cbn [default id].
  apply Z.eqb_eq in E1. rewrite E1.
  change (Z.to_nat (0 + sizeof_uint32)) with 4%nat.
  change (Z.to_nat sizeof_RecorderConfig) with 32%nat.
  destruct (len (take 32 (drop 4 c)) =? sizeof_RecorderConfig) eqn:E3; tidy;
    [rewrite bind_guard_true | rewrite bind_guard_false; reflexivity].
  rewrite run_ret. tidy.
  unfold IndexFile_readAllFrames. cbn [ix_file ix_frame_count].
  rewrite !bind_run, file_seek_run. tidy.
  change (header_size <? 0) with false. tidy.
  rewrite bind_run. change (get (mkWorld fs [])) with (Some (mkWorld fs []), mkWorld fs []).
  tidy. unfold contents. cbn [files]. rewrite Hc. cbn [default id].
  destruct (read_frames_parse (S (length c)) header_size [] [] fs (idx_name path) c Hc)
    as [f' Hrf]; [done|].
  rewrite bind_run, Hrf. tidy. rewrite !run_ret. tidy.
  change (Z.to_nat header_size) with 36%nat.
  destruct (parse_frames (S (length c)) (drop 36 c) [] []) as [v a]. reflexivity.
Qed.

(** ** Patching the mdat size *)

Lemma write_at_inside c pos d :
  0 <= pos -> pos + len d <= len c ->
  write_at c pos d = take (Z.to_nat pos) c ++ d ++ drop (Z.to_nat pos + length d) c.
Proof.
  unfold write_at, len. intros H0 H1.
  replace (Z.to_nat pos - length c)%nat with 0%nat by lia. reflexivity.
Qed.

Lemma write_at_length c pos d :
  0 <= pos -> pos + len d <= len c -> len (write_at c pos d) = len c.
Proof.
  intros H0 H1. rewrite write_at_inside by assumption. unfold len in *.
  rewrite !length_app, length_take, length_drop. lia.
Qed.

Lemma write_at_idem c pos d :
  0 <= pos -> pos + len d <= len c ->
  write_at (write_at c pos d) pos d = write_at c pos d.
Proof.
  intros H0 H1.
  rewrite (write_at_inside (write_at c pos d))
    by (rewrite ?write_at_length; assumption).
  rewrite (write_at_inside c) by assumption. unfold len in *.
  assert (Hl : Z.to_nat pos = length (take (Z.to_nat pos) c))
    by (rewrite length_take; lia).
  rewrite take_app_length' by exact Hl.
  rewrite (drop_app_add' _ _ _ (length d)) by exact Hl.
  rewrite drop_app_length' by reflexivity. reflexivity.
Qed.

Lemma len_size_bytes x : len (size_bytes x) = 4.
Proof. reflexivity. Qed.

Lemma len_patched c : 40 <= len c -> len (patched c) = len c.
Proof. intros H. unfold patched. apply write_at_length; rewrite ?len_size_bytes; lia. Qed.

(** Patching the size field twice is patching it once. *)
Lemma patched_idem c : 40 <= len c -> patched (patched c) = patched c.
Proof.
  intros H. unfold patched at 1. rewrite len_patched by assumption.
  apply write_at_idem; rewrite ?len_size_bytes; lia.
Qed.

Lemma recover_patch_mdat_nofault path fs :
  recover_patch_mdat path (mkWorld fs [])
  = match fs !! path with
    | None => (None, mkWorld fs [])
    | Some c =>
        if (len c <? 40) || (UINT32_MAX <? u64 (len c - 32)) then (None, mkWorld fs [])
        else (Some tt, mkWorld (<[path := patched c]> fs) [])
    end.
Proof.
  unfold recover_patch_mdat.
  rewrite !bind_run, fs_open_run. tidy.
  destruct (fs !! path) as [c|] eqn:Hc; tidy; [|reflexivity].
  rewrite !bind_run, fs_getFileSize_run. tidy. rewrite Hc. tidy.
  destruct (len c <? 40) eqn:E1; tidy;
    [rewrite bind_guard_false; reflexivity | rewrite bind_guard_true].
  rewrite !bind_run, file_seek_run. tidy. change (32 <? 0) with false. tidy.
  rewrite bind_guard_true.
  destruct (UINT32_MAX <? u64 (len c - 32)) eqn:E2; tidy;
    [rewrite bind_guard_false; reflexivity | rewrite bind_guard_true].
  rewrite !bind_run. rewrite (file_write_run _ _ _ _ c) by done. tidy.
  rewrite len_size_bytes. change (Z.to_nat 4) with 4%nat.
  change (4 =? 4) with true. rewrite bind_guard_true.
  rewrite !bind_run, file_flush_run. tidy. rewrite run_ret. reflexivity.
Qed.

(** ** Sessions without frames *)

(** [recover] on a journal without whole records, no fault pending: the
    size field is patched, the movie header is appended, both sidecars
    go. *)
Lemma recover_no_frames path cfg tail fs c :
  len tail < 40 ->
  fs !! idx_name path = Some (journal_bytes cfg [] ++ tail) ->
  fs !! path = Some c ->
  40 <= len c <= UINT32_MAX + 32 ->
  exists w', recover path (mkWorld fs []) = (Some tt, w')
    /\ files w' !! path = Some (patched c ++ empty_moov)
    /\ files w' !! idx_name path = None
    /\ files w' !! lock_name path = None.
Proof.
  intros Ht Hidx Hc Hlen. unfold recover.
  rewrite bind_run, recover_read_journal_nofault, Hidx.
  rewrite parse_journal_whole_records by (constructor || assumption). tidy.
  cbn [List.filter].
  rewrite bind_run, recover_patch_mdat_nofault, Hc.
  assert (E1 : (len c <? 40) = false) by (apply Z.ltb_ge; lia).
  assert (E2 : (UINT32_MAX <? u64 (len c - 32)) = false).
  { apply Z.ltb_ge. rewrite u64_small; unfold UINT32_MAX in *; lia. }
  rewrite E1, E2. tidy.
  rewrite bind_run. unfold recover_append_moov, extractH264ConfigFromMdat.
  rewrite !bind_run, fs_open_run. tidy. rewrite lookup_insert_eq. tidy.
  cbn [extract_from_frames]. rewrite run_ret. tidy.
  rewrite buildMoov_no_frames.
  rewrite (writeMoovToFile_nofault _ _ _ (patched c)) by apply lookup_insert_eq.
  rewrite insert_insert_eq. tidy.
  unfold recover_cleanup. rewrite !bind_run, fs_remove_run. tidy.
  rewrite lookup_insert_ne by apply path_ne_idx. rewrite Hidx. tidy.
  rewrite bind_run, fs_remove_run. tidy.
  rewrite lookup_delete_ne by apply idx_ne_lock.
  rewrite lookup_insert_ne by apply path_ne_lock.
  destruct (fs !! lock_name path) eqn:El; tidy; rewrite run_ret;
    eexists; (split; [reflexivity|]); tidy.
  - rewrite lookup_delete_ne by (apply not_eq_sym, path_ne_lock).
    rewrite lookup_delete_ne by (apply not_eq_sym, path_ne_idx).
    rewrite lookup_insert_eq.
    rewrite lookup_delete_ne by apply not_eq_sym, idx_ne_lock.
    rewrite !lookup_delete_eq. done.
  - rewrite lookup_delete_ne by (apply not_eq_sym, path_ne_idx).
    rewrite lookup_insert_eq. rewrite lookup_delete_eq.
    rewrite lookup_delete_ne by apply idx_ne_lock.
    rewrite lookup_insert_ne by apply path_ne_lock. done.
Qed.

(** ** Recovery, run again *)

(** C1, as far as it holds: with no I/O fault pending, when a run of
    [recover (path)] dies after step 4 (the mdat size field is patched) and
    before step 7 appends the moov box, running [recover (path)] again ends
    exactly as one uninterrupted run does: same return value, same files,
    the MP4 file included.  The journal is untouched and patching the size
    field again changes nothing. *)
Theorem recover_again_after_patch (w : World) (path : string) :
  faults w = [] ->
  recover path (crashed_after_patch path w) = recover path w.
Proof.
  destruct w as [fs flts]. cbn [faults]. intros ->.
  unfold crashed_after_patch, after.
  rewrite bind_run, recover_read_journal_nofault.
  destruct (match fs !! idx_name path with
            | Some c => parse_journal c
            | None => None
            end) as [[[cfg v] a]|] eqn:Hparse; tidy; [|reflexivity].
  rewrite recover_patch_mdat_nofault.
  destruct (fs !! path) as [c|] eqn:Hc; tidy; [|reflexivity].
  destruct ((len c <? 40) || (UINT32_MAX <? u64 (len c - 32))) eqn:Econd; tidy;
    [reflexivity|].
  assert (Hlen : 40 <= len c).
  { apply orb_false_elim in Econd as [E _]. by apply Z.ltb_ge in E. }
  unfold recover.
  rewrite !bind_run, !recover_read_journal_nofault.
  rewrite lookup_insert_ne by apply path_ne_idx. rewrite Hparse. tidy.
  rewrite !bind_run, !recover_patch_mdat_nofault.
  rewrite lookup_insert_eq, Hc, len_patched, Econd by assumption. tidy.
  rewrite patched_idem, insert_insert_eq by assumption. reflexivity.
Qed.

Lemma recover_again_after_patch_witness :
  recover "out.mp4" (crashed_after_patch "out.mp4" interrupted_session)
  = recover "out.mp4" interrupted_session.
Proof. apply recover_again_after_patch. vm_compute. reflexivity. Defined.

(** Once the moov box is appended and the sidecars are still there, a second
    run does not reproduce the file of a single run: it stores a larger mdat
    size and appends a second moov box. *)
Lemma recover_again_after_moov_differs :
  let single := after (recover "out.mp4") interrupted_session in
  let again := after (recover "out.mp4")
                     (crashed_after_moov "out.mp4" interrupted_session) in
  returns (recover "out.mp4") (crashed_after_moov "out.mp4" interrupted_session) = true
  /\ files again !! "out.mp4" <> files single !! "out.mp4"
  /\ len (contents again "out.mp4") = len (contents single "out.mp4") + 642
  /\ readBE32 (drop 32 (contents single "out.mp4")) = 13
  /\ readBE32 (drop 32 (contents again "out.mp4")) = 655.
Proof. vm_compute. repeat split; try reflexivity. discriminate. Qed.

(** ** Where the journal says the samples are *)

Lemma payload_of_app cs1 cs2 : payload_of (cs1 ++ cs2) = payload_of cs1 ++ payload_of cs2.
Proof. unfold payload_of. apply flat_map_app. Qed.

Lemma sum_sizes_take_le cs i : 0 <= sum_sizes (take i cs) <= sum_sizes cs.
Proof.
  split; [apply sum_sizes_nonneg|].
  rewrite <- (take_drop i cs) at 2.
  generalize (take i cs) as l1, (drop i cs) as l2.
  induction l1 as [|c l1 IH]; intros l2; cbn [app].
  - apply sum_sizes_nonneg.
  - rewrite !sum_sizes_cons. specialize (IH l2). lia.
Qed.

Lemma slice_middle (a b c : bytes) :
  slice (a ++ b ++ c) (len a) (len b) = b.
Proof.
  unfold slice, len. rewrite !Nat2Z.id.
  rewrite drop_app_length. apply take_app_length.
Qed.

(** X12: the journal file locates the samples.  After a run of successful
    calls the MP4 file is the two headers followed by the samples in call
    order, and the record the journal file holds for a call gives the place
    of its sample: its size field is the length of the sample (modulo 2^32),
    and the bytes of that length at file offset [mdat_start] plus its
    offset field (the value [stco] gets) are the bytes the call handed
    over. *)
Theorem journal_records_locate_samples
    (m0 : Machine) (path : string) (cfg : RecorderConfig) (now : Z)
    (cs : list Call) (m1 : Machine) (results : list bool) (m2 : Machine) :
  start path cfg now m0 = (Some tt, m1) ->
  run_calls cs m1 = (results, m2) ->
  Forall (fun b => b = true) results ->
  sum_sizes cs < 2 ^ 64 ->
  exists mp4 idx,
    files (disk m2) !! path = Some mp4
    /\ files (disk m2) !! idx_name path = Some idx
    /\ mp4 = ftyp ++ mdat_header ++ payload_of cs
    /\ forall i c, cs !! i = Some c ->
         journal_size idx i = u32 (len (call_data c))
         /\ slice mp4 (mdat_start_ (rec m2) + journal_offset idx i) (len (call_data c))
            = call_data c.
Proof.
  intros Hstart Hrun Hall Hlt.
  destruct (journal_after_calls _ _ _ _ _ _ _ _ Hstart Hrun Hall)
    as [_ _ _ _ _ Hms Hmp4 _ Hidx _ _].
  exists (ftyp ++ mdat_header ++ payload_of cs), (journal_bytes cfg (journal_from cs 0)).
  split; [exact Hmp4|]. split; [exact Hidx|]. split; [reflexivity|].
  intros i c Hc.
  pose proof (journal_from_at cs 0 i c Hc) as Hf.
  destruct (journal_record_fields cfg _ [] i _ Hf) as (E1 & E2 & _).
  rewrite app_nil_r in E1, E2. rewrite E1, E2, size_record_of, offset_record_of.
  split; [reflexivity|].
  rewrite Hms.
  pose proof (sum_sizes_take_le cs i) as Hle.
  rewrite Z.add_0_l. unfold u64. rewrite Z.mod_mod by lia.
  rewrite (Z.mod_small (sum_sizes (take i cs))) by lia.
  rewrite <- (take_drop_middle cs i c Hc) at 1.
  rewrite payload_of_app. unfold payload_of at 2. cbn [flat_map].
  fold (payload_of (drop (S i) cs)).
  rewrite <- sum_sizes_payload.
  replace (40 + len (payload_of (take i cs)))
    with (len (ftyp ++ mdat_header ++ payload_of (take i cs)))
    by (rewrite !len_app, len_ftyp, len_mdat_header; lia).
  rewrite <- (slice_middle (ftyp ++ mdat_header ++ payload_of (take i cs)) (call_data c)
               (payload_of (drop (S i) cs))) at 3.
  by rewrite <- !app_assoc.
Qed.

Lemma journal_records_locate_samples_witness :
  let cs := [WriteVideo [1; 2; 3] 0 true 0 (zeros 10);
             WriteAudio [4; 5] 0 0 [193; 127; 0; 0; 9; 8; 7; 6; 5; 4];
             WriteVideo [6] 3000 false 0 (zeros 10)] in
  let m1 := after (start "out.mp4" default_config 0) (fresh empty_disk) in
  let m2 := snd (run_calls cs m1) in
  exists idx,
    files (disk m2) !! "out.mp4"%string = Some (ftyp ++ mdat_header ++ [1; 2; 3; 4; 5; 6])
    /\ files (disk m2) !! idx_name "out.mp4" = Some idx
    /\ journal_size idx 1 = 2
    /\ slice (ftyp ++ mdat_header ++ [1; 2; 3; 4; 5; 6]) (40 + journal_offset idx 1) 2
       = [4; 5].
Proof.
  intros cs m1 m2.
  destruct (journal_records_locate_samples (fresh empty_disk) "out.mp4"
              default_config 0 cs m1 (fst (run_calls cs m1)) m2)
    as (mp4 & idx & H1 & H2 & -> & H4).
  - vm_compute. reflexivity.
  - apply surjective_pairing.
  - vm_compute. repeat constructor.
  - vm_compute. reflexivity.
  - exists idx. split; [exact H1|]. split; [exact H2|].
    destruct (H4 1%nat _ eq_refl) as [Hs Hd]. split; [exact Hs|exact Hd].
Defined.

(** ** Reading a journal back *)

(** X13: the journal reader on a journal whose last record is torn.  The
    configuration and every whole record come back, split by track, in
    order; the cut-off bytes after the last whole record and the records of
    a track other than 0 and 1 are dropped; nothing on disk changes. *)
Theorem torn_journal_is_read_back
    (path : string) (cfg : RecorderConfig) (journal : list FrameInfo) (tail : bytes)
    (fs : gmap string bytes) :
  config_ok cfg -> Forall frame_ok journal -> len tail < 40 ->
  fs !! idx_name path = Some (journal_bytes cfg journal ++ tail) ->
  recover_read_journal path (mkWorld fs [])
  = (Some (cfg, List.filter is_video journal, List.filter is_audio journal),
     mkWorld fs []).
Proof.
  intros Hc Hj Ht Hidx.
  rewrite recover_read_journal_nofault, Hidx.
  by rewrite parse_journal_records.
Qed.

Lemma torn_journal_is_read_back_witness :
  let v := mkFrame 0 3 0 0 1 0 (zeros 10) in
  let a := mkFrame 3 2 0 0 1 1 (zeros 10) in
  let x := mkFrame 5 1 0 0 1 7 (zeros 10) in
  let fs := {[ idx_name "out.mp4" := journal_bytes default_config [v; a; x] ++ [1; 2; 3] ]} in
  recover_read_journal "out.mp4" (mkWorld fs []) = (Some (default_config, [v], [a]), mkWorld fs []).
Proof.
  intros v a x fs.
  apply (torn_journal_is_read_back "out.mp4" default_config [v; a; x] [1; 2; 3] fs).
  - unfold config_ok. cbn. repeat split; first [lia | reflexivity].
  - repeat constructor; cbn; first [lia | reflexivity].
  - reflexivity.
  - reflexivity.
Defined.

(** ** Operations that only read *)

Lemma same_files_ret {A} (a : A) : same_files (mret a).
Proof. intros w. reflexivity. Qed.

Lemma same_files_fail {A} : same_files (@fail World A).
Proof. intros w. reflexivity. Qed.

Lemma same_files_guard b : same_files (guard b).
Proof. destruct b; intros w; reflexivity. Qed.

Lemma same_files_get : same_files get.
Proof. intros w. reflexivity. Qed.

Lemma same_files_bind {A B} (c : Op World A) (k : A -> Op World B) :
  same_files c -> (forall a, same_files (k a)) -> same_files (c ≫= k).
Proof.
  intros Hc Hk w. rewrite bind_run. specialize (Hc w).
  destruct (c w) as [[a|] w']; cbn [snd] in *; [|exact Hc].
  rewrite Hk. exact Hc.
Qed.

Lemma same_files_open_read path mode :
  mode = Mode_rb \/ mode = Mode_rpb -> same_files (fs_open path mode).
Proof.
  intros Hm [fs flts]. rewrite fs_open_run. cbv zeta.
  destruct (fst (pop flts)); [reflexivity|].
  destruct Hm as [-> | ->]; destruct (fs !! path); reflexivity.
Qed.

Lemma same_files_seek f off origin : same_files (file_seek f off origin).
Proof. intros [fs flts]. rewrite file_seek_run. reflexivity. Qed.

Lemma same_files_read f n : same_files (file_read f n).
Proof. intros w. rewrite file_read_run. reflexivity. Qed.

Lemma same_files_getFileSize path : same_files (fs_getFileSize path).
Proof. intros [fs flts]. rewrite fs_getFileSize_run. reflexivity. Qed.

Ltac same_files :=
  repeat first
    [ assumption | progress cbv zeta | apply same_files_ret | apply same_files_fail
    | apply same_files_guard | apply same_files_get
    | apply same_files_seek | apply same_files_read | apply same_files_getFileSize
    | apply same_files_open_read; tauto
    | apply same_files_bind; [|intros]
    | match goal with
      | |- same_files (match ?x with _ => _ end) => destruct x
      | |- same_files (if ?x then _ else _) => destruct x
      end ].

Lemma same_files_read_frames fuel : forall f video audio,
  same_files (read_frames fuel f video audio).
Proof.
  induction fuel as [|fuel IH]; intros f video audio; cbn [read_frames]; same_files.
  all: apply IH.
Qed.

Lemma same_files_read_journal path : same_files (recover_read_journal path).
Proof.
  unfold recover_read_journal, IndexFile_open, IndexFile_readConfig,
    IndexFile_readAllFrames.
  same_files. all: try apply same_files_read_frames.
Qed.

(** ** Recovery that cannot start *)

Lemma read_journal_unusable path w :
  match files w !! idx_name path with
  | None => True
  | Some c => parse_journal c = None
  end ->
  fst (recover_read_journal path w) = None.
Proof.
  destruct w as [fs flts]. cbn [files]. intros Hbad.
  unfold recover_read_journal, IndexFile_open.
  rewrite !bind_run, fs_open_run. tidy.
  destruct (fst (pop flts)); tidy; [reflexivity|].
  destruct (fs !! idx_name path) as [c|] eqn:Hc; tidy; [|reflexivity].
  rewrite !bind_run, file_seek_run. tidy. rewrite Hc. tidy. rewrite Z.add_0_r.
  assert (Hn : (len c <? 0) = false) by (apply Z.ltb_ge, len_nonneg). rewrite Hn.
  destruct (fst (pop (snd (pop flts)))); tidy;
    [rewrite bind_guard_false; reflexivity | rewrite bind_guard_true].
  rewrite !bind_run, file_seek_run. tidy. change (0 <? 0) with false.
  unfold IndexFile_readConfig.
  destruct (fst (pop (snd (pop (snd (pop flts)))))); tidy; rewrite run_ret; tidy;
    cbn [ix_file ix_frame_count]; rewrite !bind_run, file_read_run; tidy;
    change (sizeof_uint32 =? 0) with false; tidy;
    unfold contents; cbn [files]; rewrite Hc; cbn [default id].
  - rewrite (drop_ge c (Z.to_nat (len c))) by (unfold len; lia). cbn [take].
    change (len [] =? sizeof_uint32) with false. rewrite bind_guard_false. reflexivity.
  - change (Z.to_nat 0) with 0%nat. change (Z.to_nat sizeof_uint32) with 4%nat.
    rewrite drop_0. unfold parse_journal in Hbad.
    destruct (len (take 4 c) =? sizeof_uint32) eqn:E1; cbn [negb] in Hbad;
      [rewrite bind_guard_true | rewrite bind_guard_false; reflexivity].
    destruct (le_value (take 4 c) =? MAGIC) eqn:E2; cbn [negb] in Hbad;
      [rewrite bind_guard_true | rewrite bind_guard_false; reflexivity].
    rewrite !bind_run, file_read_run. tidy.
    change (sizeof_RecorderConfig =? 0) with false. tidy.
    unfold contents. cbn [files]. rewrite Hc. cbn [default id].
    apply Z.eqb_eq in E1. rewrite E1.
    change (Z.to_nat (0 + sizeof_uint32)) with 4%nat.
    change (Z.to_nat sizeof_RecorderConfig) with 32%nat.
    destruct (len (take 32 (drop 4 c)) =? sizeof_RecorderConfig) eqn:E3; cbn [negb] in Hbad;
      [|rewrite bind_guard_false; reflexivity].
    destruct (parse_frames (S (length c)) (drop 36 c) [] []). discriminate.
Qed.

Lemma patch_mdat_unusable path w :
  match files w !! path with
  | None => True
  | Some c => len c < 40
  end ->
  fst (recover_patch_mdat path w) = None
  /\ files (snd (recover_patch_mdat path w)) = files w.
Proof.
  destruct w as [fs flts]. cbn [files]. intros Hbad.
  unfold recover_patch_mdat.
  rewrite !bind_run, fs_open_run. tidy.
  destruct (fst (pop flts)); tidy; [done|].
  destruct (fs !! path) as [c|] eqn:Hc; tidy; [|done].
  rewrite !bind_run, fs_getFileSize_run. tidy. rewrite Hc.
  destruct (fst (pop (snd (pop flts)))); tidy; [done|].
  assert (E : (len c <? 40) = true) by (apply Z.ltb_lt; exact Hbad).
  rewrite E. tidy. rewrite bind_guard_false. done.
Qed.

(** X14: [recover] on material it cannot use.  When the journal is missing,
    too short for its header or does not start with the magic number, or
    when the MP4 file is missing or shorter than its two headers, [recover]
    returns false and no file is created, changed or removed, whatever the
    I/O faults. *)
Theorem recover_fails_without_touching_files (path : string) (w : World) :
  match files w !! idx_name path with
  | None => True
  | Some c => parse_journal c = None
  end
  \/ match files w !! path with
     | None => True
     | Some c => len c < 40
     end ->
  fst (recover path w) = None /\ files (snd (recover path w)) = files w.
Proof.
  intros Hbad. unfold recover. rewrite bind_run.
  pose proof (same_files_read_journal path w) as Hsame.
  destruct Hbad as [Hj|Hm].
  - pose proof (read_journal_unusable path w Hj) as Hnone.
    destruct (recover_read_journal path w) as [[x|] w1]; [discriminate|].
    split; [reflexivity|exact Hsame].
  - destruct (recover_read_journal path w) as [[[[rc vf] af]|] w1]; cbn [snd] in *;
      [|split; [reflexivity|exact Hsame]].
    rewrite bind_run. rewrite <- Hsame in Hm.
    destruct (patch_mdat_unusable path w1 Hm) as [H1 H2].
    destruct (recover_patch_mdat path w1) as [[u|] w2]; cbn [fst snd] in *; [discriminate|].
    split; [reflexivity|congruence].
Qed.

Lemma recover_fails_without_touching_files_witness :
  let w := mkWorld {[ idx_name "out.mp4" := [0x52; 0x34; 0x50]; "out.mp4"%string := ftyp ]}
                   [None; Some 0] in
  fst (recover "out.mp4" w) = None /\ files (snd (recover "out.mp4" w)) = files w.
Proof.
  intros w. apply (recover_fails_without_touching_files "out.mp4" w).
  left. vm_compute. reflexivity.
Defined.

(** ** Finalizing a session with samples *)

Lemma patch_layout payload x :
  write_at (ftyp ++ mdat_header ++ payload) 32 (size_bytes x)
  = ftyp ++ size_bytes x ++ chars "mdat" ++ payload.
Proof.
  rewrite write_at_inside.
  - change (Z.to_nat 32) with (length ftyp). rewrite take_app_length.
    change (length ftyp + length (size_bytes x))%nat with (length ftyp + 4)%nat.
    rewrite drop_app_add'; [|reflexivity].
    change (drop 4 (mdat_header ++ payload)) with (chars "mdat" ++ payload). reflexivity.
  - lia.
  - rewrite !len_app, len_ftyp, len_mdat_header, len_size_bytes.
    pose proof (len_nonneg payload). lia.
Qed.

Lemma size_bytes_nonempty x : size_bytes x <> [].
Proof. unfold size_bytes. discriminate. Qed.


(** ** Recovering a session with samples *)

Lemma extract_from_frames_nofault mdat_start frames : forall file sps pps fs,
  exists r, extract_from_frames file mdat_start frames sps pps (mkWorld fs [])
            = (Some r, mkWorld fs []).
Proof.
  induction frames as [|frame rest IH]; intros file sps pps fs; cbn [extract_from_frames].
  - eexists. reflexivity.
  - destruct (size frame =? 0); [apply IH|].
    rewrite bind_run, file_seek_run. tidy.
    destruct (i64 (u64 (mdat_start + offset frame)) <? 0); tidy; [apply IH|].
    rewrite bind_run, file_read_run. tidy.
    match goal with |- context [negb ?b] => destruct b end; tidy; [|apply IH].
    destruct (extractH264ConfigFromSample _ sps pps) as [[found sps'] pps'].
    destruct found; [eexists; reflexivity | apply IH].
Qed.

Lemma extractH264ConfigFromMdat_nofault path mdat_start frames sps pps fs :
  exists r, extractH264ConfigFromMdat path mdat_start frames sps pps (mkWorld fs [])
            = (Some r, mkWorld fs []).
Proof.
  unfold extractH264ConfigFromMdat. rewrite bind_run, fs_open_run. tidy.
  destruct (fs !! path); tidy; [apply extract_from_frames_nofault|].
  eexists. reflexivity.
Qed.

(** [recover] on the files of an interrupted session, no fault pending. *)
Lemma recover_session path cfg journal tail payload fs :
  config_ok cfg -> Forall frame_ok journal -> len tail < 40 ->
  fs !! idx_name path = Some (journal_bytes cfg journal ++ tail) ->
  fs !! path = Some (ftyp ++ mdat_header ++ payload) ->
  8 + len payload <= UINT32_MAX ->
  let file1 := ftyp ++ size_bytes (8 + len payload) ++ chars "mdat" ++ payload in
  let fs1 := <[path := file1]> fs in
  let video := List.filter is_video journal in
  let audio := List.filter is_audio journal in
  exists found sps pps,
    extractH264ConfigFromMdat path 40 video [] [] (mkWorld fs1 [])
    = (Some (found, sps, pps), mkWorld fs1 [])
    /\ match buildMoov video audio
               (video_timescale cfg) (audio_timescale cfg) (audio_sample_rate cfg)
               (audio_channels cfg) (video_width cfg) (video_height cfg) sps pps 40 with
       | Returned (Some moov) =>
           recover path (mkWorld fs [])
           = (Some tt,
              mkWorld (delete (lock_name path)
                         (delete (idx_name path) (<[path := file1 ++ moov]> fs))) [])
       | _ => recover path (mkWorld fs []) = (None, mkWorld fs1 [])
       end.
Proof.
  intros Hc Hj Ht Hidx Hmp4 Hlen. cbv zeta.
  set (c := ftyp ++ mdat_header ++ payload) in *.
  assert (Hlc : len c = 40 + len payload)
    by (subst c; rewrite !len_app, len_ftyp, len_mdat_header; lia).
  pose proof (len_nonneg payload) as Hp.
  assert (Hpatched : patched c = ftyp ++ size_bytes (8 + len payload) ++ chars "mdat" ++ payload).
  { unfold patched. rewrite Hlc.
    replace (40 + len payload - 32) with (8 + len payload) by lia.
    rewrite u64_small by (unfold UINT32_MAX in Hlen; lia).
    rewrite u32_small by lia. subst c. apply patch_layout. }
  set (file1 := ftyp ++ size_bytes (8 + len payload) ++ chars "mdat" ++ payload) in *.
  destruct (extractH264ConfigFromMdat_nofault path 40 (List.filter is_video journal) [] []
              (<[path := file1]> fs)) as [[[found sps] pps] Hex].
  exists found, sps, pps. split; [exact Hex|].
  unfold recover.
  rewrite bind_run, recover_read_journal_nofault, Hidx, parse_journal_records by assumption.
  tidy.
  rewrite bind_run, recover_patch_mdat_nofault, Hmp4.
  assert (E1 : (len c <? 40) = false) by (apply Z.ltb_ge; lia).
  assert (E2 : (UINT32_MAX <? u64 (len c - 32)) = false).
  { apply Z.ltb_ge. rewrite u64_small; unfold UINT32_MAX in *; lia. }
  rewrite E1, E2. tidy. rewrite Hpatched.
  rewrite bind_run. unfold recover_append_moov.
  rewrite bind_run, Hex. tidy.
  destruct (buildMoov _ _ _ _ _ _ _ _ sps pps 40) as [[moov|]|]; [|reflexivity..].
  rewrite (writeMoovToFile_nofault _ _ _ file1) by apply lookup_insert_eq.
  rewrite insert_insert_eq. tidy.
  unfold recover_cleanup. rewrite !bind_run, fs_remove_run. tidy.
  rewrite lookup_insert_ne by apply path_ne_idx. rewrite Hidx. tidy.
  rewrite bind_run, fs_remove_run. tidy.
  rewrite lookup_delete_ne by apply idx_ne_lock.
  rewrite lookup_insert_ne by apply path_ne_lock.
  destruct (fs !! lock_name path) eqn:El; tidy; rewrite run_ret; [reflexivity|].
  rewrite (delete_id _ (lock_name path)); [reflexivity|].
  rewrite lookup_delete_ne by apply idx_ne_lock.
  by rewrite lookup_insert_ne by apply path_ne_lock.
Qed.

Lemma lookup_finalized (fs : gmap string bytes) path c :
  let fs' := delete (lock_name path) (delete (idx_name path) (<[path := c]> fs)) in
  fs' !! path = Some c
  /\ fs' !! idx_name path = None
  /\ fs' !! lock_name path = None
  /\ (forall p, p <> path -> p <> idx_name path -> p <> lock_name path -> fs' !! p = fs !! p).
Proof.
  cbv zeta. repeat split.
  - rewrite lookup_delete_ne by (apply not_eq_sym, path_ne_lock).
    rewrite lookup_delete_ne by (apply not_eq_sym, path_ne_idx).
    apply lookup_insert_eq.
  - rewrite lookup_delete_ne by (apply not_eq_sym, idx_ne_lock). apply lookup_delete_eq.
  - apply lookup_delete_eq.
  - intros p H1 H2 H3. rewrite !lookup_delete_ne by congruence.
    by rewrite lookup_insert_ne by congruence.
Qed.

Lemma no_sidecars_no_incomplete w path :
  files w !! idx_name path = None -> hasIncompleteRecording w path = false.
Proof.
  intros H. unfold hasIncompleteRecording, fs_exists. rewrite H. apply andb_false_r.
Qed.

(** [stop] in any state of an open session in which the recorder holds no
    frame, no fault pending. *)
Lemma stop_opened_no_frames path m :
  opened path m -> faults (disk m) = [] ->
  video_frames_ (rec m) = [] -> audio_frames_ (rec m) = [] ->
  exists payload r',
    files (disk m) !! path = Some (ftyp ++ mdat_header ++ payload)
    /\ stop m
       = (Some tt,
          mkMachine r'
            (mkWorld (delete (lock_name path)
                        (delete (idx_name path)
                           (<[path := (ftyp ++ size_bytes (u32 (8 + mdat_size_ (rec m)))
                                       ++ chars "mdat" ++ payload) ++ empty_moov]>
                              (files (disk m))))) [])).
Proof.
  intros Ho Hf Hv Ha. destruct m as [r [fs flts]].
  destruct Ho as [Hrec Hn1 Hn2 Hn3 Hms (payload & Hmp4 & Hmp4f) (ic & Hidx & Hidxf) Hmz].
  cbn [rec disk files faults] in *. subst flts.
  exists payload.
  destruct r as [n1 n2 n3 f1 f2 f3 cfg0 rc fc ms mz vf af sp pp lt fsf].
  cbn [mp4_filename_ idx_filename_ lock_filename_ mp4_file_ idx_file_ config_ recording_
       mdat_start_ mdat_size_ video_frames_ audio_frames_ h264_sps_ h264_pps_] in *.
  subst.
  unfold stop. run1. cbn [recording_ mp4_file_ mdat_size_ mdat_start_].
  repeat run1.
  change (i64 (u64 (40 - 8))) with 32. change (32 <? 0) with false. tidy.
  repeat run1.
  rewrite (file_write_run _ _ _ _ (ftyp ++ mdat_header ++ payload))
    by (assumption || apply size_bytes_nonempty). tidy.
  repeat run1.
  rewrite take_len, patch_layout.
  set (c1 := ftyp ++ size_bytes _ ++ chars "mdat" ++ payload).
  unfold buildAndWriteMoov. repeat run1.
  cbn [video_frames_ audio_frames_ config_ h264_sps_ h264_pps_ mdat_start_ mp4_filename_
       set_mp4_file set_recording].
  rewrite buildMoov_no_frames.
  unfold io at 1. tidy.
  rewrite (writeMoovToFile_nofault _ _ _ c1) by apply lookup_insert_eq.
  rewrite insert_insert_eq. tidy. repeat run1.
  unfold cleanupFiles. repeat run1.
  cbn [idx_filename_ lock_filename_ set_lock_file set_idx_file set_mp4_file set_recording].
  repeat run1.
  rewrite lookup_insert_ne by apply path_ne_idx. rewrite Hidx. tidy.
  repeat run1.
  rewrite lookup_delete_ne by apply idx_ne_lock.
  rewrite lookup_insert_ne by apply path_ne_lock.
  destruct (fs !! lock_name path) eqn:El; tidy; run1; eexists;
    (split; [exact Hmp4|]); [reflexivity|].
  rewrite (delete_id _ (lock_name path)); [reflexivity|].
  rewrite lookup_delete_ne by apply idx_ne_lock.
  by rewrite lookup_insert_ne by apply path_ne_lock.
Qed.

(** C2, as the code has it: with no I/O fault pending, a session without
    frame records is finalized like any other.  In every state of an open
    session in which the recorder holds no frame (no write call has got its
    record into the journal, and the recorder held no frames of an earlier
    session when it was started: [start] does not clear them), [stop]
    returns true; so does [stop] right after [start]; and so does [recover]
    on a journal that holds no whole record.  The MP4 file gets its mdat
    size and a moov box that holds the movie header alone, and both
    sidecars are unlinked. *)
Theorem session_without_frames_is_finalized (path : string) :
  (forall m,
     open_session path m -> faults (disk m) = [] ->
     video_frames_ (rec m) = [] -> audio_frames_ (rec m) = [] ->
     exists payload m',
       files (disk m) !! path = Some (ftyp ++ mdat_header ++ payload)
       /\ stop m = (Some tt, m')
       /\ files (disk m') !! path
          = Some (ftyp ++ size_bytes (u32 (8 + mdat_size_ (rec m))) ++ chars "mdat"
                  ++ payload ++ empty_moov)
       /\ files (disk m') !! idx_name path = None
       /\ files (disk m') !! lock_name path = None)
  /\ (forall m0 cfg now,
        recording_ (rec m0) = false -> faults (disk m0) = [] ->
        video_frames_ (rec m0) = [] -> audio_frames_ (rec m0) = [] ->
        exists m1 m2,
          start path cfg now m0 = (Some tt, m1)
          /\ stop m1 = (Some tt, m2)
          /\ files (disk m2) !! path
             = Some (ftyp ++ size_bytes 8 ++ chars "mdat" ++ empty_moov)
          /\ files (disk m2) !! idx_name path = None
          /\ files (disk m2) !! lock_name path = None)
  /\ (forall w cfg tail c,
        faults w = [] -> len tail < 40 ->
        files w !! idx_name path = Some (journal_bytes cfg [] ++ tail) ->
        files w !! path = Some c ->
        40 <= len c <= UINT32_MAX + 32 ->
        exists w',
          recover path w = (Some tt, w')
          /\ files w' !! path = Some (patched c ++ empty_moov)
          /\ files w' !! idx_name path = None
          /\ files w' !! lock_name path = None).
Proof.
  split; [|split].
  - intros m Hopen Hf Hv Ha. apply open_session_opened in Hopen.
    destruct (stop_opened_no_frames path m Hopen Hf Hv Ha) as (payload & r' & Hp & Hstop).
    exists payload. eexists. split; [exact Hp|]. split; [exact Hstop|]. cbn [disk files].
    destruct (lookup_finalized (files (disk m)) path
                ((ftyp ++ size_bytes (u32 (8 + mdat_size_ (rec m))) ++ chars "mdat"
                  ++ payload) ++ empty_moov)) as (H1 & H2 & H3 & _).
    split; [rewrite H1; by rewrite <- !app_assoc|]. split; assumption.
  - intros m0 cfg now Hrec Hf Hv Ha. destruct m0 as [r [fs flts]].
    cbn [rec disk faults] in *. subst flts.
    destruct (start_run path cfg now r fs []) as [Hinv Hfwd]; [assumption..|].
    destruct (Hfwd eq_refl) as (m1 & Hm1 & Hf1).
    destruct (Hinv m1 Hm1) as (Hs & _).
    destruct (stop_empty_session path cfg m1 Hs Hf1) as (m2 & Hstop & H1 & H2 & H3).
    exists m1, m2. done.
  - intros w cfg tail c Hf Ht Hidx Hc Hlen. destruct w as [fs flts].
    cbn in Hf, Hidx, Hc. subst flts.
    by apply (recover_no_frames path cfg tail fs c).
Qed.

Lemma session_without_frames_is_finalized_witness :
  exists m1 m2,
    start "out.mp4" default_config 0 (fresh empty_disk) = (Some tt, m1)
    /\ stop m1 = (Some tt, m2)
    /\ files (disk m2) !! idx_name "out.mp4" = None
    /\ files (disk m2) !! lock_name "out.mp4" = None.
Proof.
  destruct (session_without_frames_is_finalized "out.mp4") as (_ & H & _).
  destruct (H (fresh empty_disk) default_config 0 eq_refl eq_refl eq_refl eq_refl)
    as (m1 & m2 & H1 & H2 & _ & H4 & H5).
  exists m1, m2. repeat split; assumption.
Defined.

(** Start, then stop at once: [stop] does not fail, the sidecars are gone;
    and [recover] on the files as the session has written them does not
    fail either. *)
Lemma stop_without_frames_succeeds :
  let m1 := after (start "out.mp4" default_config 0) (fresh empty_disk) in
  returns stop m1 = true
  /\ hasIncompleteRecording (disk (after stop m1)) "out.mp4" = false
  /\ returns (recover "out.mp4") (disk m1) = true
  /\ hasIncompleteRecording (after (recover "out.mp4") (disk m1)) "out.mp4" = false.
Proof. vm_compute. done. Qed.



(** X16: [recover] on the files an interrupted session leaves (the journal
    possibly ending in a torn record), no fault pending.  The journal is
    read back, the parameter sets are looked up in the video samples, and
    when the moov box can be built the MP4 file becomes [ftyp], the [mdat]
    box with its size field set, and the moov box; both sidecars are
    unlinked and no other file is touched. *)
Theorem recover_finalizes_interrupted_session
    (path : string) (cfg : RecorderConfig) (journal : list FrameInfo) (tail payload : bytes)
    (fs : gmap string bytes) :
  config_ok cfg -> Forall frame_ok journal -> len tail < 40 ->
  fs !! idx_name path = Some (journal_bytes cfg journal ++ tail) ->
  fs !! path = Some (ftyp ++ mdat_header ++ payload) ->
  8 + len payload <= UINT32_MAX ->
  let file1 := ftyp ++ size_bytes (8 + len payload) ++ chars "mdat" ++ payload in
  let video := List.filter is_video journal in
  let audio := List.filter is_audio journal in
  exists found sps pps,
    fst (extractH264ConfigFromMdat path 40 video [] [] (mkWorld (<[path := file1]> fs) []))
    = Some (found, sps, pps)
    /\ forall moov,
         buildMoov video audio
           (video_timescale cfg) (audio_timescale cfg) (audio_sample_rate cfg)
           (audio_channels cfg) (video_width cfg) (video_height cfg) sps pps 40
         = Returned (Some moov) ->
         exists w', recover path (mkWorld fs []) = (Some tt, w')
           /\ files w' !! path = Some (file1 ++ moov)
           /\ files w' !! idx_name path = None
           /\ files w' !! lock_name path = None
           /\ hasIncompleteRecording w' path = false
           /\ (forall p, p <> path -> p <> idx_name path -> p <> lock_name path ->
                 files w' !! p = fs !! p).
Proof.
  intros Hc Hj Ht Hidx Hmp4 Hlen. cbv zeta.
  destruct (recover_session path cfg journal tail payload fs Hc Hj Ht Hidx Hmp4 Hlen)
    as (found & sps & pps & Hex & Hrec).
  exists found, sps, pps. split; [by rewrite Hex|].
  intros moov Hmoov. rewrite Hmoov in Hrec.
  eexists. split; [exact Hrec|]. cbn [files].
  destruct (lookup_finalized fs path
              ((ftyp ++ size_bytes (8 + len payload) ++ chars "mdat" ++ payload) ++ moov))
    as (H1 & H2 & H3 & H4).
  split; [exact H1|]. split; [exact H2|]. split; [exact H3|].
  split; [by apply no_sidecars_no_incomplete|exact H4].
Qed.

Lemma recover_finalizes_interrupted_session_witness :
  exists w' moov,
    recover "out.mp4" (mkWorld (files interrupted_session) []) = (Some tt, w')
    /\ files w' !! "out.mp4"%string
       = Some ((ftyp ++ [0; 0; 0; 13] ++ chars "mdat" ++ [0; 0; 0; 1; 0x65]) ++ moov)
    /\ hasIncompleteRecording w' "out.mp4" = false.
Proof.
  set (journal := [mkFrame 0 5 0 0 1 0 (zeros 10)]).
  destruct (recover_finalizes_interrupted_session "out.mp4" default_config journal []
              [0; 0; 0; 1; 0x65] (files interrupted_session))
    as (found & sps & pps & Hex & Hrec).
  - unfold config_ok. cbn. repeat split; first [lia | reflexivity].
  - repeat constructor; cbn; first [lia | reflexivity].
  - reflexivity.
  - vm_compute. reflexivity.
  - vm_compute. reflexivity.
  - vm_compute. discriminate.
  - vm_compute in Hex. injection Hex as <- <- <-.
    destruct (buildMoov (List.filter is_video journal) (List.filter is_audio journal)
                30000 48000 48000 2 640 480 [] [] 40) as [[moov|]|] eqn:Hmoov;
      [|vm_compute in Hmoov; discriminate..].
    destruct (Hrec moov Hmoov) as (w' & Hr & Hfile & _ & _ & Hinc & _).
    exists w', moov. split; [exact Hr|]. split; [exact Hfile|exact Hinc].
Defined.





(** ** A stop that fails *)

Lemma keeps_files_seek f off origin : keeps_files_io (file_seek f off origin).
Proof. intros [fs flts] p H. rewrite file_seek_run. exact H. Qed.

Lemma keeps_files_io_bind {A B} (c : Op World A) (k : A -> Op World B) :
  keeps_files_io c -> (forall a, keeps_files_io (k a)) -> keeps_files_io (c ≫= k).
Proof.
  intros Hc Hk w p H. rewrite bind_run. specialize (Hc w p H).
  destruct (c w) as [[a|] w']; cbn [snd] in *; [|exact Hc].
  by apply Hk.
Qed.

Lemma keeps_files_writeMoovToFile path moov : keeps_files_io (writeMoovToFile path moov).
Proof.
  unfold writeMoovToFile.
  apply keeps_files_io_bind; [apply keeps_files_open|]. intros [f|]; [|by intros w p H].
  apply keeps_files_io_bind; [apply keeps_files_seek|]. intros [ok f'].
  apply keeps_files_io_bind; [destruct ok; by intros w p H|]. intros _.
  apply keeps_files_io_bind; [apply keeps_files_write|]. intros [n f''].
  apply keeps_files_io_bind; [apply keeps_files_flush|]. intros _.
  match goal with |- context [guard ?b] => destruct b end; by intros w p H.
Qed.

Lemma keeps_files_buildAndWriteMoov : keeps_files buildAndWriteMoov.
Proof.
  unfold buildAndWriteMoov. apply keeps_files_bind; [apply keeps_files_this|]. intros r.
  cbv zeta. destruct (buildMoov _ _ _ _ _ _ _ _ _ _ _) as [[moov|]|];
    [|apply keeps_files_fail..].
  apply keeps_files_lift, keeps_files_writeMoovToFile.
Qed.

Lemma failed_bind {A B} (c : Op Machine A) (k : A -> Op Machine B) :
  keeps_files c -> (forall a, keeps_files_if_failed (k a)) ->
  keeps_files_if_failed (c ≫= k).
Proof.
  intros Hc Hk m p Hnone H. rewrite bind_run in *. specialize (Hc m p H).
  destruct (c m) as [[a|] m']; cbn [snd] in *; [|exact Hc].
  by apply Hk.
Qed.

Lemma cleanupFiles_succeeds m : exists m', cleanupFiles m = (Some tt, m').
Proof.
  destruct m as [r [fs flts]]. unfold cleanupFiles. repeat run1.
  destruct (fst (pop flts)), (fs !! idx_filename_ r); tidy; repeat run1;
    match goal with
    | |- context [match ?a with Some _ => _ | None => _ end] => destruct a
    end; tidy;
    try match goal with
    | |- context [match ?a with Some _ => _ | None => _ end] => destruct a
    end; tidy; rewrite ?run_ret; eauto.
Qed.

Lemma stop_keeps_files_if_failed : keeps_files_if_failed stop.
Proof.
  unfold stop.
  apply failed_bind; [apply keeps_files_this|]. intros r.
  apply failed_bind; [apply keeps_files_guard|]. intros _.
  apply failed_bind; [apply keeps_files_assign|]. intros _.
  apply failed_bind.
  { destruct (mp4_file_ r); keeps_files. }
  intros _. cbv zeta.
  apply failed_bind.
  { destruct (mp4_file_ r); keeps_files.
    apply keeps_files_lift, keeps_files_seek. }
  intros _.
  apply failed_bind; [apply keeps_files_buildAndWriteMoov|]. intros _.
  intros m p Hnone _. exfalso.
  rewrite !bind_assign in Hnone.
  match type of Hnone with
  | fst (cleanupFiles ?m0) = None => destruct (cleanupFiles_succeeds m0) as [m' Hm']
  end.
  rewrite Hm' in Hnone. discriminate.
Qed.

(** X18: a [stop] that returns false unlinks nothing.  Whatever the state of
    the recorder and whatever the I/O faults, every file present before the
    call is still present after it; in particular the sidecars of a session
    whose moov box could not be built or written stay, and the session
    still counts as incomplete. *)
Theorem failed_stop_removes_nothing (m : Machine) (path : string) :
  fst (stop m) = None ->
  (forall p, is_Some (files (disk m) !! p) -> is_Some (files (disk (snd (stop m))) !! p))
  /\ (hasIncompleteRecording (disk m) path = true ->
      hasIncompleteRecording (disk (snd (stop m))) path = true).
Proof.
  intros Hnone.
  assert (H : forall p, is_Some (files (disk m) !! p)
                        -> is_Some (files (disk (snd (stop m))) !! p))
    by (intros p; by apply stop_keeps_files_if_failed).
  split; [exact H|].
  unfold hasIncompleteRecording, fs_exists. rewrite !andb_true_iff.
  intros [Hl Hi].
  pose proof (H (lock_name path)) as Hl'. pose proof (H (idx_name path)) as Hi'.
  destruct (files (disk m) !! lock_name path); [|discriminate].
  destruct (files (disk m) !! idx_name path); [|discriminate].
  destruct Hl' as [? ->]; [eauto|]. destruct Hi' as [? ->]; [eauto|]. done.
Qed.

Lemma failed_stop_removes_nothing_witness :
  let m1 := after (start "out.mp4" default_config 0) (fresh empty_disk) in
  let m := mkMachine (rec m1) (mkWorld (files (disk m1)) [None; None; None; None; Some 0]) in
  fst (stop m) = None
  /\ hasIncompleteRecording (disk (snd (stop m))) "out.mp4" = true.
Proof.
  intros m1 m.
  assert (Hnone : fst (stop m) = None) by (vm_compute; reflexivity).
  split; [exact Hnone|].
  destruct (failed_stop_removes_nothing m "out.mp4" Hnone) as [_ H].
  apply H. vm_compute. reflexivity.
Defined.

(** ** What a call leaves of the recorder *)

Section Members.
Context {X : Type} (member : Recorder -> X).

Lemma kept_ret {A} (a : A) : keeps member (mret a).
Proof. intros m. reflexivity. Qed.

Lemma kept_fail {A} : keeps member (@fail Machine A).
Proof. intros m. reflexivity. Qed.

Lemma kept_guard b : keeps member (guard b).
Proof. destruct b; intros m; reflexivity. Qed.

Lemma kept_this : keeps member this.
Proof. intros m. reflexivity. Qed.

Lemma kept_io {A} (op : Op World A) : keeps member (io op).
Proof. intros m. unfold io. destruct (op (disk m)). reflexivity. Qed.

Lemma kept_assign f : (forall r, member (f r) = member r) -> keeps member (assign f).
Proof. intros H m. apply H. Qed.

Lemma kept_bind {A B} (c : Op Machine A) (k : A -> Op Machine B) :
  keeps member c -> (forall a, keeps member (k a)) -> keeps member (c ≫= k).
Proof.
  intros Hc Hk m. rewrite bind_run. specialize (Hc m).
  destruct (c m) as [[a|] m']; cbn [snd] in *; [|exact Hc].
  rewrite Hk. exact Hc.
Qed.

End Members.

Ltac kept :=
  repeat first
    [ assumption | progress cbv zeta | apply kept_ret | apply kept_fail
    | apply kept_guard | apply kept_this | apply kept_io
    | apply kept_assign; intros []; reflexivity
    | apply kept_bind; [|intros]
    | match goal with
      | |- keeps _ (match ?x with _ => _ end) => destruct x
      | |- keeps _ (if ?x then _ else _) => destruct x
      end ].

Lemma kept_frames_stop :
  keeps video_frames_ stop /\ keeps audio_frames_ stop
  /\ keeps h264_sps_ stop /\ keeps h264_pps_ stop.
Proof. unfold stop, buildAndWriteMoov, cleanupFiles. repeat split; kept. Qed.

Lemma kept_frames_start path cfg now :
  keeps video_frames_ (start path cfg now) /\ keeps audio_frames_ (start path cfg now)
  /\ keeps h264_sps_ (start path cfg now) /\ keeps h264_pps_ (start path cfg now).
Proof. unfold start, createFiles. repeat split; kept. Qed.

(** X19: neither [stop] nor [start] clears what the recorder holds in
    memory.  Whatever they return, the frame lists and the parameter sets
    of the recorder are after a [stop] followed by a [start] what they were
    before: a recorder object that is started again still holds the records
    of the session before (they are what its next [stop] hands to the moov
    builder, together with the new ones). *)
Theorem stop_and_start_keep_the_frame_lists
    (m : Machine) (path : string) (cfg : RecorderConfig) (now : Z) :
  let m1 := after stop m in
  let m2 := after (start path cfg now) m1 in
  video_frames_ (rec m1) = video_frames_ (rec m)
  /\ audio_frames_ (rec m1) = audio_frames_ (rec m)
  /\ video_frames_ (rec m2) = video_frames_ (rec m)
  /\ audio_frames_ (rec m2) = audio_frames_ (rec m)
  /\ h264_sps_ (rec m2) = h264_sps_ (rec m)
  /\ h264_pps_ (rec m2) = h264_pps_ (rec m).
Proof.
  cbv zeta. unfold after.
  destruct kept_frames_stop as (S1 & S2 & S3 & S4).
  destruct (kept_frames_start path cfg now) as (T1 & T2 & T3 & T4).
  rewrite T1, T2, T3, T4, S1, S2, S3, S4. done.
Qed.

(** ** The flush policy *)

Lemma flushIfNeeded_success now m m' :
  flushIfNeeded now m = (Some tt, m') ->
  if flush_due (rec m) now
  then rec m' = set_frames_since_flush 0 (set_last_flush_time now (rec m))
  else m' = m.
Proof.
  destruct m as [r [fs flts]]. unfold flushIfNeeded, flush_due. rewrite bind_this.
  cbn [rec]. cbv zeta.
  match goal with |- context [if ?c then _ else _] => destruct c end.
  2: { rewrite run_ret. by intros [= <-]. }
  destruct (mp4_file_ r) as [f|], (idx_file_ r) as [g|]; try (rewrite run_fail; discriminate).
  rewrite run_io. cbn [disk rec]. rewrite file_flush_run.
  destruct (fst (pop flts)); [rewrite bind_guard_false; discriminate|].
  rewrite bind_guard_true, run_io. cbn [disk rec]. rewrite file_flush_run.
  destruct (fst (pop (snd (pop flts)))); [rewrite bind_guard_false; discriminate|].
  rewrite bind_guard_true, run_io. cbn [disk rec]. rewrite file_sync_run.
  destruct (fst (pop (snd (pop (snd (pop flts)))))); [rewrite bind_guard_false; discriminate|].
  rewrite bind_guard_true, run_io. cbn [disk rec]. rewrite file_sync_run.
  destruct (fst (pop (snd (pop (snd (pop (snd (pop flts)))))))); 
    [rewrite bind_guard_false; discriminate|].
  rewrite bind_guard_true, !bind_assign, run_assign. cbn [rec disk].
  by intros [= <-].
Qed.

Lemma kept_writeFrameToMdat {X} (member : Recorder -> X) data :
  (forall f r, member (set_mp4_file f r) = member r) ->
  keeps member (writeFrameToMdat data).
Proof.
  intros H. unfold writeFrameToMdat. apply kept_bind; [apply kept_this|]. intros r.
  destruct (mp4_file_ r); [|apply kept_fail].
  apply kept_bind; [apply kept_io|]. intros [n f'].
  apply kept_bind; [apply kept_assign, H|]. intros _. apply kept_guard.
Qed.

Lemma kept_logFrameToIndex {X} (member : Recorder -> X) frame :
  (forall f r, member (set_idx_file f r) = member r) ->
  (forall l r, member (set_video_frames l r) = member r) ->
  (forall l r, member (set_audio_frames l r) = member r) ->
  keeps member (logFrameToIndex frame).
Proof.
  intros H1 H2 H3. unfold logFrameToIndex. apply kept_bind; [apply kept_this|]. intros r.
  destruct (idx_file_ r); [|apply kept_fail].
  apply kept_bind; [apply kept_io|]. intros [n f'].
  apply kept_bind; [apply kept_assign, H1|]. intros _.
  apply kept_bind; [apply kept_guard|]. intros _.
  destruct (track_id frame =? 0); [apply kept_assign; intros; apply H2|].
  destruct (track_id frame =? 1); [apply kept_assign; intros; apply H3|apply kept_ret].
Qed.

(** The state a call that got through its flush step found before it. *)
Lemma run_call_before_flush c m m' :
  run_call c m = (Some tt, m') ->
  exists m3,
    flushIfNeeded (call_now c) m3 = (Some tt, m')
    /\ config_ (rec m3) = config_ (rec m)
    /\ last_flush_time_ (rec m3) = last_flush_time_ (rec m)
    /\ frames_since_flush_ (rec m3) = u32 (frames_since_flush_ (rec m) + 1)
    /\ frame_count_ (rec m3) = u64 (frame_count_ (rec m) + 1).
Proof.
  assert (Hstretch : forall data frame now ma,
            (writeFrameToMdat data ≫= fun _ =>
             logFrameToIndex frame ≫= fun _ =>
             count_frame (len data) ≫= fun _ => flushIfNeeded now) ma = (Some tt, m') ->
            exists m3,
              flushIfNeeded now m3 = (Some tt, m')
              /\ config_ (rec m3) = config_ (rec ma)
              /\ last_flush_time_ (rec m3) = last_flush_time_ (rec ma)
              /\ frames_since_flush_ (rec m3) = u32 (frames_since_flush_ (rec ma) + 1)
              /\ frame_count_ (rec m3) = u64 (frame_count_ (rec ma) + 1)).
  { intros data frame now ma H. rewrite bind_run in H.
    pose proof (kept_writeFrameToMdat config_ data ltac:(by intros ? []) ma) as K1.
    pose proof (kept_writeFrameToMdat last_flush_time_ data ltac:(by intros ? []) ma) as K2.
    pose proof (kept_writeFrameToMdat frames_since_flush_ data ltac:(by intros ? []) ma) as K3.
    pose proof (kept_writeFrameToMdat frame_count_ data ltac:(by intros ? []) ma) as K4.
    destruct (writeFrameToMdat data ma) as [[u|] mb]; [|discriminate]. cbn [snd] in *.
    rewrite bind_run in H.
    pose proof (kept_logFrameToIndex config_ frame ltac:(by intros ? []) ltac:(by intros ? [])
                  ltac:(by intros ? []) mb) as L1.
    pose proof (kept_logFrameToIndex last_flush_time_ frame ltac:(by intros ? [])
                  ltac:(by intros ? []) ltac:(by intros ? []) mb) as L2.
    pose proof (kept_logFrameToIndex frames_since_flush_ frame ltac:(by intros ? [])
                  ltac:(by intros ? []) ltac:(by intros ? []) mb) as L3.
    pose proof (kept_logFrameToIndex frame_count_ frame ltac:(by intros ? [])
                  ltac:(by intros ? []) ltac:(by intros ? []) mb) as L4.
    destruct (logFrameToIndex frame mb) as [[u'|] mc]; [|discriminate]. cbn [snd] in *.
    rewrite bind_run, count_frame_run in H.
    eexists. split; [exact H|]. cbn [rec].
    destruct (rec mc) eqn:Er. cbn in *. repeat split; congruence. }
  destruct c as [data pts key now stack|data pts now stack]; cbn [run_call call_now];
    intros H.
  - unfold writeVideoFrame in H. rewrite bind_this in H.
    destruct (recording_ (rec m)); [|rewrite bind_guard_false in H; discriminate].
    rewrite bind_guard_true in H. cbv zeta in H. by apply Hstretch in H.
  - unfold writeAudioFrame in H. rewrite bind_this in H.
    destruct (recording_ (rec m)); [|rewrite bind_guard_false in H; discriminate].
    rewrite bind_guard_true in H. cbv zeta in H.
    rewrite bind_run in H.
    destruct (writeFrameToMdat data m) as [[u|] mb] eqn:E; [|discriminate].
    rewrite bind_this in H.
    apply (Hstretch data (mkFrame (mdat_size_ (rec mb)) (len data) pts pts 1 1 stack) now m).
    rewrite bind_run, E. exact H.
Qed.

(** X20: the flush bookkeeping of a write call that returns true.  The
    flush step is due when, the frame of the call counted in, at least
    [flush_frame_count] frames have been written since the last flush step
    that went through, or at least [flush_interval_ms] milliseconds have
    passed since it.  When it is due the count is back to 0 and the flush
    time is the time of the call; when it is not, the count is one more than
    before and the flush time is what it was. *)
Theorem flush_policy_resets_or_counts (c : Call) (m m' : Machine) :
  run_call c m = (Some tt, m') ->
  let count := u32 (frames_since_flush_ (rec m) + 1) in
  let elapsed_ms := u64 (Z.quot (call_now c - last_flush_time_ (rec m)) 1000000) in
  if (flush_interval_ms (config_ (rec m)) <=? elapsed_ms)
     || (flush_frame_count (config_ (rec m)) <=? count)
  then frames_since_flush_ (rec m') = 0 /\ last_flush_time_ (rec m') = call_now c
  else frames_since_flush_ (rec m') = count
       /\ count < flush_frame_count (config_ (rec m))
       /\ elapsed_ms < flush_interval_ms (config_ (rec m))
       /\ last_flush_time_ (rec m') = last_flush_time_ (rec m).
Proof.
  intros H. cbv zeta.
  destruct (run_call_before_flush c m m' H) as (m3 & Hf & H1 & H2 & H3 & _).
  apply flushIfNeeded_success in Hf. unfold flush_due in Hf.
  rewrite H1, H2, H3 in Hf.
  destruct (Z.leb_spec (flush_interval_ms (config_ (rec m)))
              (u64 (Z.quot (call_now c - last_flush_time_ (rec m)) 1000000))) as [Hi|Hi];
    cbn [orb] in *.
  - rewrite Hf. destruct (rec m3). done.
  - destruct (Z.leb_spec (flush_frame_count (config_ (rec m)))
                (u32 (frames_since_flush_ (rec m) + 1))) as [Hc|Hc].
    + rewrite Hf. destruct (rec m3). done.
    + subst m'. rewrite H2, H3. done.
Qed.

Lemma flush_policy_resets_or_counts_witness :
  let m := after (start "out.mp4" default_config 0) (fresh empty_disk) in
  let m' := after (writeVideoFrame [1; 2; 3] 0 true 1000000 (zeros 10)) m in
  frames_since_flush_ (rec m') = 1 /\ last_flush_time_ (rec m') = 0.
Proof.
  intros m m'.
  pose proof (flush_policy_resets_or_counts
                (WriteVideo [1; 2; 3] 0 true 1000000 (zeros 10)) m m') as H.
  cbv zeta in H.
  assert (E : (flush_interval_ms (config_ (rec m))
               <=? u64 (Z.quot (call_now (WriteVideo [1; 2; 3] 0 true 1000000 (zeros 10))
                                - last_flush_time_ (rec m)) 1000000))
              || (flush_frame_count (config_ (rec m))
                  <=? u32 (frames_since_flush_ (rec m) + 1)) = false)
    by (vm_compute; reflexivity).
  rewrite E in H. destruct H as (H1 & _ & _ & H4); [vm_compute; reflexivity|].
  split; [exact H1|exact H4].
Defined.

(** X21: [getFrameCount] counts the calls that returned true.  After a
    [start] it is 0, and every write call that returns true raises it by
    one (as a 64-bit value). *)
Theorem getFrameCount_counts_accepted_frames
    (m0 : Machine) (path : string) (cfg : RecorderConfig) (now : Z)
    (cs : list Call) (m1 : Machine) (results : list bool) (m2 : Machine) :
  start path cfg now m0 = (Some tt, m1) ->
  run_calls cs m1 = (results, m2) ->
  Forall (fun b => b = true) results ->
  getFrameCount m1 = 0 /\ getFrameCount m2 = u64 (len cs).
Proof.
  intros Hstart Hrun Hall.
  assert (H1 : getFrameCount m1 = 0).
  { unfold start in Hstart. rewrite bind_this in Hstart.
    destruct (negb (recording_ (rec m0)));
      [rewrite bind_guard_true in Hstart | rewrite bind_guard_false in Hstart; discriminate].
    rewrite !bind_assign in Hstart. rewrite bind_run in Hstart.
    destruct (createFiles path _) as [[u|] mc]; [|discriminate].
    rewrite !bind_assign, run_assign in Hstart. injection Hstart as <-.
    unfold getFrameCount. cbn [rec]. destruct (rec mc). reflexivity. }
  split; [exact H1|].
  assert (Hgen : forall cs m1 results m2,
            run_calls cs m1 = (results, m2) -> Forall (fun b => b = true) results ->
            0 <= getFrameCount m1 < 2 ^ 64 ->
            getFrameCount m2 = u64 (getFrameCount m1 + len cs)).
  { clear. induction cs as [|c cs IH]; intros m1 results m2 Hrun Hall Hrange.
    - injection Hrun as <- <-. change (len []) with 0. rewrite Z.add_0_r.
      symmetry. by apply u64_small.
    - cbn [run_calls] in Hrun.
      destruct (run_call c m1) as [[[]|] ma] eqn:Ec;
        destruct (run_calls cs ma) as [rs mb] eqn:Er;
        injection Hrun as <- <-; inversion Hall as [|? ? Hb Hrest]; subst;
        [|discriminate].
      destruct (run_call_before_flush c m1 ma Ec) as (m3 & Hf & _ & _ & _ & Hcount).
      assert (Hma : getFrameCount ma = u64 (getFrameCount m1 + 1)).
      { unfold getFrameCount. rewrite <- Hcount.
        apply flushIfNeeded_success in Hf.
        destruct (flush_due (rec m3) (call_now c)); [|by subst].
        rewrite Hf. by destruct (rec m3). }
      rewrite (IH ma rs mb Er Hrest) by (rewrite Hma; apply u64_range).
      rewrite Hma. unfold u64. rewrite Zplus_mod_idemp_l. f_equal.
      unfold len. cbn [length]. lia. }
  rewrite (Hgen cs m1 results m2 Hrun Hall) by (rewrite H1; lia).
  by rewrite H1.
Qed.

Lemma getFrameCount_counts_accepted_frames_witness :
  let cs := [WriteVideo [1; 2; 3] 0 true 0 (zeros 10); WriteAudio [4; 5] 0 0 (zeros 10)] in
  let m1 := after (start "out.mp4" default_config 0) (fresh empty_disk) in
  getFrameCount m1 = 0 /\ getFrameCount (snd (run_calls cs m1)) = 2.
Proof.
  intros cs m1.
  apply (getFrameCount_counts_accepted_frames (fresh empty_disk) "out.mp4" default_config 0
           cs m1 (fst (run_calls cs m1)) (snd (run_calls cs m1))).
  - vm_compute. reflexivity.
  - apply surjective_pairing.
  - vm_compute. repeat constructor.
Defined.

(** ** Calls outside a session, and writes that fall short *)

(** X22: the state guards.  A recorder that is not recording rejects every
    write call and [stop] and is left exactly as it was, disk included; a
    recorder that is recording rejects [start] the same way (the files of
    the running session are not reopened); and after a [stop], whatever it
    returned, write calls are rejected. *)
Theorem calls_outside_a_session_are_rejected
    (m : Machine) (c : Call) (path : string) (cfg : RecorderConfig) (now : Z) :
  (isRecording m = false -> run_call c m = (None, m) /\ stop m = (None, m))
  /\ (isRecording m = true -> start path cfg now m = (None, m))
  /\ run_call c (after stop m) = (None, after stop m).
Proof.
  assert (Hrej : forall m, isRecording m = false -> run_call c m = (None, m)).
  { intros m0 H. unfold isRecording in H.
    destruct c; cbn [run_call]; unfold writeVideoFrame, writeAudioFrame;
      rewrite bind_this, H, bind_guard_false; reflexivity. }
  split; [|split].
  - intros H. split; [by apply Hrej|].
    unfold isRecording in H. unfold stop. by rewrite bind_this, H, bind_guard_false.
  - intros H. unfold isRecording in H. unfold start.
    by rewrite bind_this, H, bind_guard_false.
  - apply Hrej. unfold isRecording, after. apply stop_leaves_flag_clear.
Qed.



(** ** The journal through [IndexFile] *)

Lemma run_index_io {A B} (op : Op World A) (k : A -> Op IndexMachine B) (m : IndexMachine) :
  (index_io op ≫= k) m
  = match op (index_disk m) with
    | (Some a, w) => k a (mkIndexMachine (index m) (dirty_ m) w)
    | (None, w) => (None, mkIndexMachine (index m) (dirty_ m) w)
    end.
Proof.
  rewrite bind_run. unfold index_io. destruct (op (index_disk m)) as [[a|] w]; reflexivity.
Qed.

Lemma run_get {S A} (k : S -> Op S A) (s : S) : (get ≫= k) s = k s s.
Proof. reflexivity. Qed.

(** One record through [IndexFile::writeFrame], no fault pending. *)
Lemma IndexFile_writeFrame_nofault frame p c n d fs :
  fs !! p = Some c ->
  IndexFile_writeFrame frame
    (mkIndexMachine (mkIndexFile (Some (mkFile p (len c) false)) n) d (mkWorld fs []))
  = (Some tt,
     mkIndexMachine (mkIndexFile (Some (mkFile p (len (c ++ encodeFrame frame)) false))
                                 (u64 (n + 1)))
                    true (mkWorld (<[p := c ++ encodeFrame frame]> fs) [])).
Proof.
  intros Hc. unfold IndexFile_writeFrame. rewrite run_get. cbn [index ix_file].
  rewrite run_index_io. cbn [index_disk index dirty_].
  rewrite (file_write_end _ _ _ _ c) by done.
  rewrite wrote_nofault. cbn [fst snd f_path]. rewrite take_len.
  rewrite bind_run. unfold set_index_file at 1. cbn [index ix_frame_count dirty_ index_disk].
  rewrite (eqb_len_encodeFrame frame).
  rewrite bind_guard_true, run_get. cbn [index ix_frame_count ix_file].
  rewrite bind_run. unfold set_index_frame_count, set_dirty.
  cbn [index ix_frame_count ix_file dirty_ index_disk].
  by rewrite len_app.
Qed.

Lemma bind_assoc_run {S A B C} (c : Op S A) (g : A -> Op S B) (k : B -> Op S C) (s : S) :
  ((c ≫= g) ≫= k) s = (c ≫= fun a => g a ≫= k) s.
Proof. rewrite !bind_run. destruct (c s) as [[a|] s']; [by rewrite bind_run|reflexivity]. Qed.

Lemma write_frames_nofault frames : forall p c n fs (k : unit -> Op IndexMachine unit),
  fs !! p = Some c -> 0 <= n < 2 ^ 64 ->
  (foldr (fun frame rest => IndexFile_writeFrame frame;; rest) (mret tt) frames ≫= k)
    (mkIndexMachine (mkIndexFile (Some (mkFile p (len c) false)) n) true (mkWorld fs []))
  = k tt (mkIndexMachine
            (mkIndexFile (Some (mkFile p (len (c ++ flat_map encodeFrame frames)) false))
                         (u64 (n + len frames)))
            true (mkWorld (<[p := c ++ flat_map encodeFrame frames]> fs) [])).
Proof.
  induction frames as [|frame frames IH]; intros p c n fs k Hc Hn.
  - cbn [foldr flat_map]. rewrite bind_ret, app_nil_r.
    change (len []) with 0. rewrite Z.add_0_r, u64_small, insert_id by done. reflexivity.
  - cbn [foldr flat_map]. rewrite bind_assoc_run, bind_run.
    rewrite IndexFile_writeFrame_nofault by done.
    rewrite (IH p (c ++ encodeFrame frame) (u64 (n + 1)))
      by (apply lookup_insert_eq || apply u64_range).
    rewrite insert_insert_eq, <- app_assoc. do 3 f_equal.
    unfold u64. rewrite Zplus_mod_idemp_l. f_equal. unfold len. cbn [length]. lia.
Qed.

Lemma write_index_nofault filename cfg frames ix0 d0 fs :
  write_index filename cfg frames (mkIndexMachine ix0 d0 (mkWorld fs []))
  = (Some tt,
     mkIndexMachine (mkIndexFile None (u64 (len frames))) false
       (mkWorld (<[filename := journal_bytes cfg frames]> fs) [])).
Proof.
  unfold write_index, IndexFile_create.
  rewrite bind_assoc_run, run_index_io. cbn [index_disk index dirty_].
  rewrite fs_open_run. tidy.
  rewrite bind_assoc_run, bind_run. unfold set_index_file at 1.
  cbn [index ix_frame_count dirty_ index_disk].
  rewrite bind_assoc_run, bind_run. unfold set_index_frame_count at 1.
  cbn [index ix_file ix_frame_count dirty_ index_disk].
  rewrite bind_run. unfold set_dirty at 1. cbn [index dirty_ index_disk].
  unfold IndexFile_writeConfig. rewrite bind_assoc_run, run_get. cbn [index ix_file].
  rewrite bind_assoc_run, run_index_io. cbn [index_disk index dirty_].
  rewrite (file_write_end _ _ _ _ []) by (done || apply lookup_insert_eq).
  rewrite wrote_nofault. cbn [fst snd f_path app]. rewrite take_len, insert_insert_eq.
  rewrite bind_assoc_run, bind_run. unfold set_index_file at 1.
  cbn [index ix_frame_count dirty_ index_disk].
  change (len [] + len (le_bytes 4 MAGIC)) with (len (le_bytes 4 MAGIC)).
  change (len (le_bytes 4 MAGIC) =? sizeof_uint32) with true.
  rewrite bind_assoc_run, bind_guard_true.
  rewrite bind_assoc_run, run_index_io. cbn [index_disk index dirty_].
  rewrite (file_write_end _ _ _ _ (le_bytes 4 MAGIC)) by (done || apply lookup_insert_eq).
  rewrite wrote_nofault. cbn [fst snd f_path]. rewrite take_len, insert_insert_eq.
  rewrite bind_assoc_run, bind_run. unfold set_index_file at 1.
  cbn [index ix_frame_count dirty_ index_disk].
  rewrite (eqb_len_encodeConfig cfg).
  rewrite bind_assoc_run, bind_guard_true.
  rewrite bind_run. unfold set_dirty at 1. cbn [index dirty_ index_disk].
  rewrite <- len_app.
  rewrite write_frames_nofault by (apply lookup_insert_eq || lia).
  rewrite insert_insert_eq, Z.add_0_l.
  unfold IndexFile_close. rewrite run_get. cbn [index ix_file].
  rewrite bind_run. unfold attempt, IndexFile_flush. rewrite run_get.
  cbn [index ix_file dirty_ negb]. rewrite run_index_io. cbn [index_disk index dirty_].
  rewrite file_flush_run. tidy. rewrite bind_guard_true.
  unfold set_dirty, set_index_file. cbn [index ix_frame_count dirty_ index_disk].
  unfold journal_bytes. by rewrite <- !app_assoc.
Qed.

(** With no fault pending, reading a journal through [IndexFile] is parsing
    the file; the frame count [open] sets is the number of whole records. *)
Lemma read_index_nofault filename fs :
  read_index filename (mkWorld fs [])
  = (match fs !! filename with
     | Some c =>
         match parse_journal c with
         | Some (cfg, video, audio) =>
             Some (cfg, video, audio,
                   if (0 <? len c) && (header_size <? len c)
                   then (len c - header_size) / sizeof_FrameInfo else 0)
         | None => None
         end
     | None => None
     end, mkWorld fs []).
Proof.
  unfold read_index, IndexFile_open.
  rewrite !bind_run, fs_open_run. tidy.
  destruct (fs !! filename) as [c|] eqn:Hc; tidy; [|reflexivity].
  rewrite !bind_run, file_seek_run. tidy. rewrite Hc. tidy.
  rewrite Z.add_0_r.
  assert (Hn : (len c <? 0) = false) by (apply Z.ltb_ge, len_nonneg). rewrite Hn. tidy.
  rewrite bind_guard_true, !bind_run, file_seek_run. tidy.
  change (0 <? 0) with false. tidy. rewrite run_ret. tidy.
  unfold file_tell. cbn [f_pos]. unfold IndexFile_getFrameCount.
  unfold IndexFile_readConfig. cbn [ix_file ix_frame_count].
  rewrite !bind_run, file_read_run. tidy.
  change (sizeof_uint32 =? 0) with false. tidy.
  unfold contents. cbn [files]. rewrite Hc. cbn [default id].
  change (Z.to_nat 0) with 0%nat. change (Z.to_nat sizeof_uint32) with 4%nat.
  rewrite drop_0. unfold parse_journal.
  destruct (len (take 4 c) =? sizeof_uint32) eqn:E1; tidy;
    [rewrite bind_guard_true | rewrite bind_guard_false; reflexivity].
  destruct (le_value (take 4 c) =? MAGIC) eqn:E2; tidy;
    [rewrite bind_guard_true | rewrite bind_guard_false; reflexivity].
  rewrite !bind_run, file_read_run. tidy.
  change (sizeof_RecorderConfig =? 0) with false. tidy.
  unfold contents. cbn [files]. rewrite Hc. cbn [default id].
  apply Z.eqb_eq in E1. rewrite E1.
  change (Z.to_nat (0 + sizeof_uint32)) with 4%nat.
  change (Z.to_nat sizeof_RecorderConfig) with 32%nat.
  destruct (len (take 32 (drop 4 c)) =? sizeof_RecorderConfig) eqn:E3; tidy;
    [rewrite bind_guard_true | rewrite bind_guard_false; reflexivity].
  rewrite run_ret. tidy.
  unfold IndexFile_readAllFrames. cbn [ix_file ix_frame_count].
  rewrite !bind_run, file_seek_run. tidy.
  change (header_size <? 0) with false. tidy.
  rewrite bind_run. change (get (mkWorld fs [])) with (Some (mkWorld fs []), mkWorld fs []).
  tidy. unfold contents. cbn [files]. rewrite Hc. cbn [default id].
  destruct (read_frames_parse (S (length c)) header_size [] [] fs filename c Hc)
    as [f' Hrf]; [done|].
  rewrite bind_run, Hrf. tidy. rewrite !run_ret. tidy.
  change (Z.to_nat header_size) with 36%nat.
  destruct (parse_frames (S (length c)) (drop 36 c) [] []) as [v a]. reflexivity.
Qed.

(** X24: a journal written through [IndexFile] reads back.  With no fault
    pending, [create], [writeConfig], any number of [writeFrame]s and
    [close] leave a file of 36 + 40 n bytes, and [open], [readConfig] and
    [readAllFrames] on it give the configuration back, the records of
    track 0 and of track 1 in the order written, and [n] as frame count;
    records of any other track are counted but not returned. *)
Theorem IndexFile_written_journal_reads_back
    (filename : string) (cfg : RecorderConfig) (frames : list FrameInfo)
    (ix0 : IndexFile) (d0 : bool) (fs : gmap string bytes) :
  config_ok cfg -> Forall frame_ok frames -> len frames < 2 ^ 64 ->
  exists m,
    write_index filename cfg frames (mkIndexMachine ix0 d0 (mkWorld fs [])) = (Some tt, m)
    /\ files (index_disk m) = <[filename := journal_bytes cfg frames]> fs
    /\ len (journal_bytes cfg frames) = 36 + 40 * len frames
    /\ IndexFile_getFrameCount (index m) = len frames
    /\ read_index filename (index_disk m)
       = (Some (cfg, List.filter is_video frames, List.filter is_audio frames, len frames),
          index_disk m).
Proof.
  intros Hc Hf Hn. eexists. split; [apply write_index_nofault|].
  cbn [index_disk files index]. pose proof (len_nonneg frames) as H0.
  split; [reflexivity|]. split; [apply len_journal|].
  split; [unfold IndexFile_getFrameCount; cbn; apply u64_small; lia|].
  rewrite read_index_nofault, lookup_insert_eq.
  rewrite <- (app_nil_r (journal_bytes cfg frames)) at 1.
  rewrite parse_journal_records by (done || reflexivity).
  rewrite len_journal. unfold header_size, sizeof_uint32, sizeof_RecorderConfig, sizeof_FrameInfo.
  do 3 f_equal.
  destruct (Z.ltb_spec 0 (36 + 40 * len frames)); [|lia]. cbn [andb].
  destruct (Z.ltb_spec (4 + 32) (36 + 40 * len frames)).
  - replace (36 + 40 * len frames - (4 + 32)) with (len frames * 40) by lia.
    apply Z.div_mul. lia.
  - lia.
Qed.

Lemma IndexFile_written_journal_reads_back_witness :
  let v := mkFrame 0 3 0 0 1 0 (zeros 10) in
  let a := mkFrame 3 2 0 0 1 1 (zeros 10) in
  exists m,
    write_index "j.idx" default_config [v; a]
      (mkIndexMachine (mkIndexFile None 0) false empty_disk) = (Some tt, m)
    /\ read_index "j.idx" (index_disk m) = (Some (default_config, [v], [a], 2), index_disk m).
Proof.
  intros v a.
  destruct (IndexFile_written_journal_reads_back "j.idx" default_config [v; a]
              (mkIndexFile None 0) false ∅) as (m & Hw & _ & _ & _ & Hr).
  - unfold config_ok. cbn. repeat split; first [lia | reflexivity].
  - repeat constructor; cbn; first [lia | reflexivity].
  - reflexivity.
  - exists m. split; [exact Hw|exact Hr].
Defined.

(** ** Destruction and restart *)



(** X26: [start] does not look for an interrupted session.  With no fault
    pending it succeeds whatever is on disk: the MP4 file is cut back to
    its two headers, the journal to its header, and the lock is rewritten,
    so the samples and the records of an earlier session under the same
    name that was never recovered are gone. *)
Theorem start_overwrites_an_interrupted_session
    (path : string) (cfg : RecorderConfig) (now : Z) (r : Recorder)
    (fs : gmap string bytes) :
  recording_ r = false -> video_frames_ r = [] -> audio_frames_ r = [] ->
  exists m', start path cfg now (mkMachine r (mkWorld fs [])) = (Some tt, m')
    /\ files (disk m') !! path = Some (ftyp ++ mdat_header)
    /\ files (disk m') !! idx_name path = Some (journal_bytes cfg [])
    /\ hasIncompleteRecording (disk m') path = true
    /\ (forall p, p <> path -> p <> idx_name path -> p <> lock_name path ->
          files (disk m') !! p = fs !! p).
Proof.
  intros Hrec Hv Ha.
  destruct (start_run path cfg now r fs []) as [Hinv Hfwd]; [assumption..|].
  destruct (Hfwd eq_refl) as (m' & Hrun & _). exists m'. split; [exact Hrun|].
  destruct (Hinv m' Hrun) as (Hs & Hlock & Hother).
  destruct Hs as [_ _ _ _ _ _ Hmp4 _ Hidx _ _ _ _].
  split; [by rewrite app_nil_r in Hmp4|]. split; [exact Hidx|]. split; [|exact Hother].
  unfold hasIncompleteRecording, fs_exists. rewrite Hidx.
  destruct Hlock as [l ->]. reflexivity.
Qed.

Lemma start_overwrites_an_interrupted_session_witness :
  exists m', start "out.mp4" default_config 0
               (mkMachine new_recorder (mkWorld (files interrupted_session) []))
             = (Some tt, m')
    /\ files interrupted_session !! "out.mp4"%string
       = Some (ftyp ++ mdat_header ++ [0; 0; 0; 1; 0x65])
    /\ files (disk m') !! "out.mp4"%string = Some (ftyp ++ mdat_header).
Proof.
  destruct (start_overwrites_an_interrupted_session "out.mp4" default_config 0 new_recorder
              (files interrupted_session) eq_refl eq_refl eq_refl)
    as (m' & Hrun & Hmp4 & _).
  exists m'. split; [exact Hrun|]. split; [vm_compute; reflexivity|exact Hmp4].
Defined.

End Sessions.
